(** * gen_build_env.py: dependency resolution, classification and build plan

    A shallow embedding of the [BuildFarm] class of gen_build_env.py and
    the properties of its resolver, classifier, name mapper and Makefile
    generator.

    Conventions of the embedding.
    - Python [set] of package names: [gset string].  A Python set is
      iterated in an order the language leaves open; every loop over a
      set goes through [set_order], a parameter of the development that
      is only assumed to enumerate the elements of the set.
    - Python [dict] read by key: [gmap]; a dict that is iterated
      ([child.attrib], the repositories of the manifest) is an
      association list in document order.
    - [self.logger] calls: a writer of [diag] records.
    - Exceptions and the unbounded recursion of the resolver: the
      [outcome] type ([Raise], [Diverge] when the fuel runs out).  The
      fuel is the depth of the call stack; the recursion limit of the
      interpreter is not modelled.
    - [packaging.version] is an external library: [version.parse], which
      raises [InvalidVersion] on a string that is no version, and the two
      comparisons the code makes on parsed versions are parameters of the
      development.
    - The release descriptor of a package is kept as the list of the
      children of its parsed XML root; XML and YAML parsing, HTTP and the
      file cache are outside the embedding.  The text of an element is a
      string, and a ["source"] entry of the manifest has its ["url"] and
      ["version"].
    - [get_rosdep_yaml] works on a [store] (the cache directory by file
      name, and the URLs requested); [urlparse], [requests], [gzip] and
      [yaml] are the fields of the class [Network].
    - The main program is [main], applied to the value of [--targets];
      the files it writes are the components of its answer. *)

From Stdlib Require Import Ascii.
From stdpp Require Import gmap strings list fin_maps sets relations pretty
  sorting.

Local Open Scope string_scope.
Local Open Scope list_scope.

(** ** Strings *)

(** [str.split(sep)] for a one-character separator: every occurrence of
    the separator cuts, so the result is never empty. *)
Fixpoint split (sep : ascii) (s : string) : list string :=
  match s with
  | EmptyString => [EmptyString]
  | String c s' =>
      if Ascii.eqb c sep then EmptyString :: split sep s'
      else match split sep s' with
           | [] => [String c EmptyString]
           | w :: ws => String c w :: ws
           end
  end.

(** [v.split(" ")[-1]] *)
Definition last_token (v : string) : string :=
  List.last (split " "%char v) EmptyString.

(** [s.replace(a, b)] for one-character [a] and [b]. *)
Fixpoint replace (a b : ascii) (s : string) : string :=
  match s with
  | EmptyString => EmptyString
  | String c s' => String (if Ascii.eqb c a then b else c) (replace a b s')
  end.

(** ** Diagnostics, exceptions, and the monad of the embedding *)

(** One record per [self.logger] call of the modelled methods. *)
Inductive diag : Type :=
  | DebugRepositoryFound (package_name repo : string)
  | DebugVersionNotFound (package_name : string)
  | WarnVersion (dep_name bound package_name package_version : string)
  | DebugEdge (dep_name : string) (attrs : list (string * string))
  | WarnUnknownAttribute (k v dep_name : string)
  | WarnNamesNotFound (distribution : string)
  | WarnUnknownFormat
  | DebugSkipDuplicated (target : string).

Inductive exn : Type :=
  | KeyError (key : string)
  | TypeError (what : string)
  | InvalidVersion (s : string).

Inductive outcome (A : Type) : Type :=
  | Ok (a : A)
  | Raise (e : exn)
  | Diverge.
Arguments Ok {A} a.
Arguments Raise {A} e.
Arguments Diverge {A}.

Definition M (A : Type) : Type := (outcome A * list diag)%type.

Definition ret {A} (a : A) : M A := (Ok a, []).
Definition raise {A} (e : exn) : M A := (Raise e, []).
Definition log (d : diag) : M unit := (Ok tt, [d]).

Definition bind {A B} (m : M A) (f : A → M B) : M B :=
  match m with
  | (Ok a, l) => let '(r, l') := f a in (r, l ++ l')
  | (Raise e, l) => (Raise e, l)
  | (Diverge, l) => (Diverge, l)
  end.

Notation "'let*' x ':=' m 'in' k" := (bind m (λ x, k))
  (at level 10, x pattern, m at level 200, k at level 200).
Notation "m ;; k" := (bind m (λ _, k))
  (at level 100, k at level 200, right associativity).

(** [for x in l: s = body(x, s)] *)
Fixpoint for_each {A S} (l : list A) (body : A → S → M S) (s : S) : M S :=
  match l with
  | [] => ret s
  | x :: l' => let* s' := body x s in for_each l' body s'
  end.

(** ** Data model *)

(** A child of the root of a package.xml: what [get_xml_data_by_tags]
    puts in its dicts. *)
Record xml_elem : Type := XmlElem {
  tag : string;
  text : string;
  attrib : list (string * string)
}.

Record release_entry : Type := ReleaseEntry {
  packages : option (list string)
}.

Record source_entry : Type := SourceEntry {
  url : string;
  version : string
}.

(** A value of [repositories] in the distribution file; both keys are
    optional there. *)
Record repository : Type := Repository {
  release : option release_entry;
  source : option source_entry
}.

(** [self.dist_cache]: ["release_package_xmls"] and
    ["distribution_file"][0]["repositories"]. *)
Record dist_cache_t : Type := DistCache {
  release_package_xmls : gmap string (list xml_elem);
  repositories : list (string * repository)
}.

(** What a rosdep table holds for one OS distribution key. *)
Inductive dist_value : Type :=
  | NoneValue
  | ListValue (l : list string)
  | DictValue (keys : list string).

#[global] Instance dist_value_eq_dec : EqDecision dist_value.
Proof. solve_decision. Defined.

(** What a rosdep table holds under the OS name. *)
Inductive os_value : Type :=
  | PkgList (l : list string)
  | PerDist (p : gmap string dist_value)
  | OtherValue.

(** [self.dist_base] and [self.dist_python]: name -> OS name -> value. *)
Abbreviation rosdep_table := (gmap string (gmap string os_value)).

Record MakefileTarget : Type := MkTarget {
  target : string;
  depends : list string;
  commands : list string;
  comment : string;
  phony : bool;
  alias : option string
}.

Record GitRepository : Type := MkGitRepository {
  name : string;
  repo_url : string;
  base_dir : string;
  branch : option string;
  recursive : bool
}.

(** An element of [makefile_targets]: a comment line or a target. *)
Inductive makefile_item : Type :=
  | Line (s : string)
  | Target (t : MakefileTarget).

(** [MakefileTarget(target=..)] with the defaults of the dataclass. *)
Definition new_target (t : string) : MakefileTarget :=
  {| target := t; depends := []; commands := []; comment := "";
     phony := false; alias := None |}.

(** [' '.join(l)] *)
Fixpoint join (sep : string) (l : list string) : string :=
  match l with
  | [] => ""
  | [x] => x
  | x :: l' => x +:+ sep +:+ join sep l'
  end.

(** [MakefileTarget.__str__] *)
Definition MakefileTarget_str (t : MakefileTarget) : string :=
  (if decide (comment t = "") then "" else "# " +:+ comment t +:+ "
") +:+
  (match alias t with
   | Some a =>
       if decide (a = "") then ""
       else ".PHONY: " +:+ a +:+ "
" +:+ a +:+ ": " +:+ target t +:+ "

"
   | None => ""
   end) +:+
  (if phony t then ".PHONY: " +:+ target t +:+ "
" else "") +:+
  target t +:+ ":" +:+
  (match depends t with
   | [] => "
"
   | ds => " " +:+ join " " ds +:+ "
"
   end) +:+
  String.concat "" (map (λ cmd, String "009"%char cmd +:+ "
") (commands t)).

(** [f"{item}\n"] for an element of [makefile_targets]. *)
Definition item_str (i : makefile_item) : string :=
  match i with
  | Line s => s +:+ "
"
  | Target t => MakefileTarget_str t +:+ "
"
  end.

(** [base / name] on [Path]s, for a plain relative [name]. *)
Definition path_join (base name : string) : string := base +:+ "/" +:+ name.

(** [GitRepository.makefile_target] *)
Definition repo_makefile_target (r : GitRepository) : MakefileTarget :=
  let clone_cmd := "git clone " +:+ repo_url r +:+ " `dirname $@`" in
  let clone_cmd :=
    match branch r with
    | Some b => if decide (b = "") then clone_cmd else clone_cmd +:+ " -b " +:+ b
    | None => clone_cmd
    end in
  let clone_cmd :=
    if recursive r then clone_cmd +:+ " --recursive" else clone_cmd in
  {| target := path_join (path_join (base_dir r) (name r)) ".git";
     depends := []; commands := [clone_cmd]; comment := "";
     phony := false; alias := None |}.

(** [GitRepository.repo_dir] *)
Definition repo_dir (r : GitRepository) : string :=
  path_join (base_dir r) (name r).

(** [BuildPackage]: [__post_init__] puts the checkout target in front of
    the prerequisites of [target]. *)
Record BuildPackage : Type := MkBuildPackage {
  bp_target : MakefileTarget;
  bp_repo : GitRepository
}.

Definition new_BuildPackage (t : MakefileTarget) (r : GitRepository)
  : BuildPackage :=
  {| bp_target :=
       {| target := target t;
          depends := target (repo_makefile_target r) :: depends t;
          commands := commands t; comment := comment t;
          phony := phony t; alias := alias t |};
     bp_repo := r |}.

(** [BuildPackage.makefile_targets] *)
Definition makefile_targets_of (p : BuildPackage) : list makefile_item :=
  [Target (repo_makefile_target (bp_repo p)); Target (bp_target p)].

(** The parameters of the development. *)
Class Platform : Type := {
  (** the order in which a set of names is iterated *)
  set_order : gset string → list string;
  (** the values of [version.parse] *)
  Version : Type;
  (** [version.parse(s)]; [None] when it raises [InvalidVersion] *)
  version_parse : string → option Version;
  (** [a >= b] on parsed versions *)
  version_ge : Version → Version → bool;
  (** [a > b] on parsed versions *)
  version_gt : Version → Version → bool
}.

Class PlatformOk `{Platform} : Prop :=
  set_order_perm : ∀ s : gset string, set_order s ≡ₚ elements s.

(** The object state a [BuildFarm] works on. *)
Record BuildFarm : Type := MkBuildFarm {
  ros_distribution : string;
  ubuntu_distribution : string;
  dist_cache : dist_cache_t;
  dist_base : rosdep_table;
  dist_python : rosdep_table
}.

Section BuildFarm.
Context `{Platform}.
Variable self : BuildFarm.

(** *** Metadata access *)

Definition get_xml_data_by_tags (package_name : string) (tags : list string)
  : list xml_elem :=
  match release_package_xmls (dist_cache self) !! package_name with
  | None => []
  | Some root => filter (λ child, tag child ∈ tags) root
  end.

(** The [try] / bare [except] turns every failure into [None]. *)
Definition get_package_version (package_name : string) : M (option string) :=
  match get_xml_data_by_tags package_name ["version"] with
  | d :: _ => ret (Some (text d))
  | [] => log (DebugVersionNotFound package_name);; ret None
  end.

Definition tags_for_dependencies : list string :=
  ["depend"; "build_depend"; "buildtool_depend"; "run_depend";
   "exec_depend"; "build_export_depend"; "test_depend"].

Definition get_dependencies (package_name : string) : list xml_elem :=
  get_xml_data_by_tags package_name tags_for_dependencies.

(** *** classify_packages *)

Definition classify_packages (packages : gset string)
  : gset string * gset string * gset string :=
  let base_keys := dom (dist_base self) in
  let python_keys := dom (dist_python self) in
  let base_packages := base_keys ∩ packages in
  let python_packages := python_keys ∩ packages in
  let build_packages := packages ∖ base_packages ∖ python_packages in
  (base_packages, python_packages, build_packages).

(** *** get_repository *)

(** [v.get("release", {}).get("packages", [k])] *)
Definition release_packages (k : string) (v : repository) : list string :=
  match release v with
  | Some r => default [k] (packages r)
  | None => [k]
  end.

Fixpoint find_repository (package_name : string)
    (items : list (string * repository))
  : M (option string * option repository) :=
  match items with
  | [] => ret (None, None)
  | (k, v) :: items' =>
      if decide (package_name ∈ release_packages k v) then
        log (DebugRepositoryFound package_name k);;
        ret (Some k, Some v)
      else find_repository package_name items'
  end.

Definition get_repository (package_name : string)
  : M (option string * option repository) :=
  find_repository package_name (repositories (dist_cache self)).

(** *** get_package_dependencies *)

(** [depends.remove(x)]: [KeyError] when [x] is not a member. *)
Definition set_remove (x : string) (depends : gset string) : M (gset string) :=
  if decide (x ∈ depends) then ret (depends ∖ {[x]}) else raise (KeyError x).

(** [version.parse(s)] *)
Definition parse (s : string) : M Version :=
  match version_parse s with
  | Some x => ret x
  | None => raise (InvalidVersion s)
  end.

(** The body of [for k, v in d["attrib"].items()]; the result is the
    [depends] set after the iteration.  The first branch is the [if] on
    ["condition"] that ends in [continue]; the others are the chain of
    [if] / [elif] that follows it. *)
Definition check_attribute (package_name : string) (d : xml_elem)
    (kv : string * string) (depends : gset string) : M (gset string) :=
  let dep_name := text d in
  let '(k, v) := kv in
  if bool_decide (k = "condition") && negb (bool_decide (last_token v = "3"))
  then set_remove dep_name depends
  else if bool_decide (k = "version_gte") then
    let* package_version := get_package_version dep_name in
    match package_version with
    | None => ret depends
    | Some package_version =>
        let* bound := parse v in
        let* declared_version := parse package_version in
        if version_ge bound declared_version then
          log (WarnVersion dep_name v package_name package_version);;
          log (DebugEdge dep_name (attrib d));;
          ret depends
        else ret depends
    end
  else if bool_decide (k = "version_gt") then
    let* package_version := get_package_version dep_name in
    match package_version with
    | None => ret depends
    | Some package_version =>
        let* bound := parse v in
        let* declared_version := parse package_version in
        if version_gt bound declared_version then
          log (WarnVersion dep_name v package_name package_version);;
          log (DebugEdge dep_name (attrib d));;
          ret depends
        else ret depends
    end
  else if bool_decide (k = "condition") then ret depends
  else
    log (WarnUnknownAttribute k v dep_name);;
    log (DebugEdge dep_name (attrib d));;
    ret depends.

(** The body of [for d in depends_xml]. *)
Definition add_edge (package_name : string) (d : xml_elem)
    (depends : gset string) : M (gset string) :=
  for_each (attrib d) (check_attribute package_name d) ({[text d]} ∪ depends).

(** The first loop of [get_package_dependencies]: the names the edges of
    the package leave in [depends]. *)
Definition direct_dependencies (package_name : string) : M (gset string) :=
  for_each (get_dependencies package_name) (add_edge package_name) ∅.

(** [fuel] bounds the depth of the Python call stack; [Diverge] is the
    answer of a call that would go deeper. *)
Fixpoint get_package_dependencies (fuel : nat) (package_name : string)
    (ignore_depends : gset string) (recursive : bool) : M (gset string) :=
  match fuel with
  | 0 => (Diverge, [])
  | S fuel' =>
      let* depends := direct_dependencies package_name in
      if recursive then
        for_each (set_order depends)
          (λ key depends,
             if decide (key ∈ ignore_depends) then ret depends
             else
               let* child := get_package_dependencies fuel' key depends true in
               ret (depends ∪ child))
          depends
      else ret depends
  end.

(** *** get_package_names *)

Fixpoint map_M {A B} (f : A → M B) (l : list A) : M (list B) :=
  match l with
  | [] => ret []
  | x :: l' => let* y := f x in let* ys := map_M f l' in ret (y :: ys)
  end.

(** [table[n].get("ubuntu")] *)
Definition lookup_ubuntu (table : rosdep_table) (n : string)
  : M (option os_value) :=
  match table !! n with
  | None => raise (KeyError n)
  | Some entry => ret (entry !! "ubuntu")
  end.

(** [pkgs.update(v)] for a value found under a distribution key. *)
Definition set_update (pkgs : gset string) (v : dist_value) : M (gset string) :=
  match v with
  | NoneValue => raise (TypeError "'NoneType' object is not iterable")
  | ListValue l => ret (pkgs ∪ list_to_set l)
  | DictValue keys => ret (pkgs ∪ list_to_set keys)
  end.

(** The body of [for p in pkg_infos]. *)
Definition add_package_names (p : option os_value) (pkgs : gset string)
  : M (gset string) :=
  match p with
  | Some (PkgList l) => ret (pkgs ∪ list_to_set l)
  | Some (PerDist p) =>
      match p !! ubuntu_distribution self with
      | Some v => set_update pkgs v
      | None =>
          match p !! "*" with
          | Some NoneValue => ret pkgs
          | Some v => set_update pkgs v
          | None => log (WarnNamesNotFound (ubuntu_distribution self));; ret pkgs
          end
      end
  | _ => log WarnUnknownFormat;; ret pkgs
  end.

Definition get_package_names (base_dep python_dep : gset string)
  : M (gset string) :=
  let* base_pkgs := map_M (lookup_ubuntu (dist_base self)) (set_order base_dep) in
  let* python_pkgs :=
    map_M (lookup_ubuntu (dist_python self)) (set_order python_dep) in
  let pkg_infos := base_pkgs ++ python_pkgs in
  for_each pkg_infos add_package_names ∅.

(** *** gen_makefile *)

Definition build_dir : string :=
  "/root/" +:+ ros_distribution self +:+ "_build/src".

Definition env_dep : list string :=
  ["/tmp/deb/.touch"; "/tmp/built_packages/.touch"; build_dir +:+ "/.touch"].

(** The hand-declared ladder of build tools, in dict order. *)
Definition python_packages : list (string * list string) :=
  [("catkin_pkg", []); ("rospkg", ["catkin_pkg"]);
   ("rosdistro", ["rospkg"]); ("rosdep", ["rosdistro"])].

Definition built_marker (pkg : string) : string :=
  "/tmp/built_packages/" +:+ pkg.

Definition python_build_packages : list BuildPackage :=
  new_BuildPackage
    {| target := "/usr/local/bin/ros_release_python"; depends := [];
       commands :=
         ["ln -sf " +:+ build_dir +:+
          "/ros_release_python/scripts/ros_release_python $@"];
       comment := ""; phony := false; alias := None |}
    {| name := "ros_release_python";
       repo_url := "https://github.com/ros-infrastructure/ros_release_python.git";
       base_dir := build_dir; branch := None; recursive := true |}
  :: map (λ '(pkg, dep),
       new_BuildPackage
         {| target := built_marker (replace "_" "-" pkg);
            depends :=
              ["/usr/local/bin/ros_release_python"] ++ env_dep ++
              map (λ d, built_marker (replace "_" "-" d)) dep;
            commands :=
              ["cd `dirname $<` && ros_release_python deb3 && apt-get install -y ./deb_dist/*.deb && mv ./deb_dist/*.deb /tmp/deb && touch $@"];
            comment := ""; phony := false; alias := None |}
         {| name := pkg;
            repo_url := "https://github.com/ros-infrastructure/" +:+ pkg +:+ ".git";
            base_dir := build_dir; branch := None; recursive := true |})
     python_packages.

(** The part of [makefile_targets] that is built before the loop over
    [build_dep]. *)
Definition fixed_targets (main_targets build_dep : gset string)
  : list makefile_item :=
  [ Line "# main target";
    Target {| target := "all"; depends := set_order main_targets;
              commands :=
                ["@echo built packages : `ls -1 /tmp/deb/* | wc -l` / " +:+
                 pretty (size build_dep + 8)];
              comment := ""; phony := true; alias := None |} ] ++
  [ Line "# build env";
    Target {| target := "env_targets"; depends := env_dep; commands := [];
              comment := ""; phony := false; alias := None |} ] ++
  map (λ env,
         Target {| target := env; depends := [];
                   commands := ["mkdir -p $(shell dirname $@)"; "touch $@"];
                   comment := ""; phony := false; alias := None |}) env_dep ++
  [ Line "# python tools for build" ] ++
  [ Target {| target := "python_tools";
              depends := ["/root/.ros/rosdep/sources.cache"]; commands := [];
              comment := ""; phony := true; alias := None |};
    Target {| target := "/etc/ros/rosdep/sources.list.d";
              depends := ["/tmp/built_packages/rosdep"];
              commands := ["rosdep init"];
              comment := ""; phony := false; alias := None |};
    Target {| target := "/root/.ros/rosdep/sources.cache";
              depends := ["/root/rosdep.yaml"; "/etc/ros/rosdep/sources.list.d"];
              commands :=
                ["echo " +:+ String "034"%char "yaml file:///root/rosdep.yaml" +:+
                 String "034"%char " > /etc/ros/rosdep/sources.list.d/99-custom.list";
                 "rosdep update"];
              comment := ""; phony := false; alias := None |} ] ++
  concat (map makefile_targets_of python_build_packages) ++
  [ Line "# ROS packages to build" ].

(** The body of [for target in build_dep].  The two components of the
    answer of [get_repository] are [None] together, and subscripting
    [None] is a [TypeError]; a repository without a ["source"] key is a
    [KeyError]. *)
Definition build_package (build_dep : gset string) (target : string)
    (build_targets : list BuildPackage) : M (list BuildPackage) :=
  let* deps := get_package_dependencies 1 target ∅ false in
  let dependencies := deps ∩ build_dep in
  let* (repo_name, repo) := get_repository target in
  match repo_name, repo with
  | Some repo_name, Some repo =>
      match source repo with
      | None => raise (KeyError "source")
      | Some src =>
          let '(url, branch) :=
            if decide (repo_name = "rosconsole")
            then ("https://github.com/twdragon/rosconsole.git", "log4cxx-0.12")
            else (url src, version src) in
          let repository :=
            {| name := repo_name; repo_url := url; base_dir := build_dir;
               branch := Some branch; recursive := true |} in
          let t :=
            {| target := built_marker target;
               depends :=
                 map built_marker (set_order dependencies) ++
                 ["/root/.ros/rosdep/sources.cache"];
               commands :=
                 ["bash build_ros_package.sh " +:+ repo_dir repository +:+
                  " " +:+ target +:+ " && touch $@"];
               comment := ""; phony := false; alias := Some target |} in
          ret (build_targets ++ [new_BuildPackage t repository])
      end
  | _, _ => raise (TypeError "'NoneType' object is not subscriptable")
  end.

(** Everything appended to [makefile_targets] before the file is
    opened. *)
Definition accumulate_targets (main_targets build_dep : gset string)
  : M (list makefile_item) :=
  let* build_targets :=
    for_each (set_order build_dep) (build_package build_dep) [] in
  ret (fixed_targets main_targets build_dep ++
       concat (map makefile_targets_of build_targets) ++
       [ Target {| target := "clean"; depends := [];
                   commands :=
                     ["rm -rf /tmp/deb /tmp/built_packages " +:+ build_dir +:+
                      " /usr/local/bin/ros_release_python /etc/ros/rosdep/sources.list.d/20-default.list"];
                   comment := ""; phony := true; alias := None |} ]).

(** The body of the writing loop; the state is [wrote_targets] and the
    items written to the file so far. *)
Definition write_item (item : makefile_item)
    (st : gset string * list makefile_item)
  : M (gset string * list makefile_item) :=
  let '(wrote_targets, file) := st in
  match item with
  | Target t =>
      if decide (target t ∈ wrote_targets) then
        log (DebugSkipDuplicated (target t));; ret (wrote_targets, file)
      else ret ({[target t]} ∪ wrote_targets, file ++ [item])
  | Line _ => ret (wrote_targets, file ++ [item])
  end.

Definition write_targets (makefile_targets : list makefile_item)
  : M (list makefile_item) :=
  let* (_, file) := for_each makefile_targets write_item (∅, []) in
  ret file.

(** The result is the sequence of items written to the Makefile;
    [item_str] gives the text of each. *)
Definition gen_makefile (main_targets build_dep : gset string)
  : M (list makefile_item) :=
  let* makefile_targets := accumulate_targets main_targets build_dep in
  write_targets makefile_targets.

End BuildFarm.

(** ** The generated files and the main program *)

(** The order of [list.sort()] on strings. *)
Definition str_le (a b : string) : Prop := String.leb a b = true.

#[global] Instance str_le_dec a b : Decision (str_le a b).
Proof. unfold str_le. apply _. Defined.

Section outputs.
Context `{Platform}.
Variable self : BuildFarm.

(** *** gen_rosdep_yaml *)

(** The dict handed to [yaml.safe_dump]. *)
Definition gen_rosdep_yaml (targets : gset string)
  : gmap string (gmap string string) :=
  foldl (λ rosdep_data target,
           <[target := {["ubuntu" := "ros-noetic-" +:+ replace "_" "-" target]}]>
             rosdep_data)
    ∅ (set_order targets).

(** *** gen_dockerfile *)

Definition required_packages_for_build : gset string :=
  {[ "build-essential"; "git"; "dh-make"; "dh-python"; "libxml2-utils";
     "libturbojpeg0-dev"; "vim"; "python3-stdeb"; "python3-dateutil";
     "python3-docutils"; "python3-vcstools"; "python3-packaging";
     "python3-pip" ]}.

Definition ignore_pkgs : gset string :=
  {[ "python3-catkin-pkg"; "python3-catkin-pkg-modules"; "python3-rospkg";
     "python3-rospkg-modules"; "python3-rosdistro";
     "python3-rosdistro-modules"; "python3-rosdep";
     "python3-rosdep-modules" ]}.

(** [list(required_packages_for_build | apt_pkgs - ignore_pkgs)] after
    [sort()]; the difference binds tighter than the union. *)
Definition install_apt_packages (apt_pkgs : gset string) : list string :=
  merge_sort str_le
    (set_order (required_packages_for_build ∪ (apt_pkgs ∖ ignore_pkgs))).

(** The strings written to the Dockerfile, one per [f.write]. *)
Definition gen_dockerfile (apt_pkgs : gset string) : list string :=
  [ "FROM ubuntu:" +:+ ubuntu_distribution self +:+ "
";
    "ENV DEBIAN_FRONTEND=noninteractive
";
    "RUN apt-get update && apt-get upgrade -y && apt-get install -y \
  ";
    join " \
  " (install_apt_packages apt_pkgs) +:+ "

";
    "RUN pip3 install -U pip && pip3 install bloom
";
    "
";
    "COPY rosdep.yaml /root
";
    "COPY *.sh /root/
";
    "COPY Makefile /root/
";
    "
";
    "WORKDIR /root
" ].

(** *** The main program *)

(** [parse_args().targets]: the list given after [--targets], and the
    default, the string ["desktop"], when the option is absent.  The
    main program only iterates over the value, and iterating over a
    string yields its characters. *)
Fixpoint characters (s : string) : list string :=
  match s with
  | EmptyString => []
  | String c s' => String c EmptyString :: characters s'
  end.

Definition args_targets (given : option (list string)) : list string :=
  match given with
  | Some targets => targets
  | None => characters "desktop"
  end.

(** What the main program hands to the three generators. *)
Record generated : Type := Generated {
  all_depend_packages : gset string;
  base_pkgs : gset string;
  python_pkgs : gset string;
  build_pkgs : gset string;
  apt_pkgs : gset string;
  rosdep_yaml : gmap string (gmap string string);
  makefile : list makefile_item;
  dockerfile : list string
}.

(** The body of [if __name__ == "__main__"] after [parse_args]; the
    progress messages of the module-level logger are left out.  [fuel]
    bounds the stack of each call of the resolver. *)
Definition main (fuel : nat) (targets : list string) : M generated :=
  let* all_depend_packages :=
    for_each targets
      (λ target all_depend_packages,
         let* depends := get_package_dependencies self fuel target ∅ true in
         ret (all_depend_packages ∪ depends))
      ∅ in
  let '(base_pkgs, python_pkgs, build_pkgs) :=
    classify_packages self all_depend_packages in
  let build_pkgs := build_pkgs ∪ list_to_set targets in
  let* apt_pkgs := get_package_names self base_pkgs python_pkgs in
  let rosdep_yaml := gen_rosdep_yaml build_pkgs in
  let* makefile := gen_makefile self (list_to_set targets) build_pkgs in
  let dockerfile := gen_dockerfile apt_pkgs in
  ret {| all_depend_packages := all_depend_packages;
         base_pkgs := base_pkgs; python_pkgs := python_pkgs;
         build_pkgs := build_pkgs; apt_pkgs := apt_pkgs;
         rosdep_yaml := rosdep_yaml; makefile := makefile;
         dockerfile := dockerfile |}.

End outputs.

(** ** The metadata store *)

(** [Path(p).name]: the last component of [p]; empty components and
    [.] are dropped when the path is parsed. *)
Definition path_name (p : string) : string :=
  List.last
    (filter (λ c, c ≠ "" ∧ c ≠ ".") (split "/"%char p)) "".

(** [name.rfind('.')]: the index of the last dot. *)
Fixpoint rfind_dot (name : string) : option nat :=
  match name with
  | EmptyString => None
  | String c name' =>
      match rfind_dot name' with
      | Some i => Some (S i)
      | None => if Ascii.eqb c "."%char then Some 0 else None
      end
  end.

(** [Path.suffix] and [Path.stem]: the name is cut at its last dot
    unless that dot is its first or its last character. *)
Definition path_suffix (p : string) : string :=
  let name := path_name p in
  match rfind_dot name with
  | Some i =>
      if bool_decide (0 < i ∧ i < String.length name - 1)
      then String.substring i (String.length name - i) name else ""
  | None => ""
  end.

Definition path_stem (p : string) : string :=
  let name := path_name p in
  match rfind_dot name with
  | Some i =>
      if bool_decide (0 < i ∧ i < String.length name - 1)
      then String.substring 0 i name else name
  | None => name
  end.

(** The libraries [get_rosdep_yaml] calls.  A Python value is [None] or
    a document. *)
Class Network : Type := {
  document : Type;
  (** [urlparse(url).path] *)
  url_path : string → string;
  (** [requests.get(url, allow_redirects=True).content] *)
  requests_get : string → string;
  (** [gzip.GzipFile(fileobj=io.BytesIO(content)).read()] *)
  gunzip : string → string;
  (** [yaml.safe_load] *)
  yaml_load : string → option document;
  (** [yaml.safe_dump] *)
  yaml_dump : option document → string
}.

(** The cache directory, by file name, and the URLs requested so far. *)
Record store : Type := Store {
  cache_files : gmap string string;
  requested : list string
}.

Inductive fetched (A : Type) : Type :=
  | Fetched (content : A)
  | RuntimeError (msg : string).
Arguments Fetched {A} content.
Arguments RuntimeError {A} msg.

Section metadata_store.
Context `{Network}.

(** The file name of the cache entry of a URL. *)
Definition cache_filename (url : string) : fetched string :=
  let path := url_path url in
  if bool_decide (path_suffix path ∈ [".yaml"; ".yml"]) then
    Fetched (path_name path)
  else if bool_decide (path_suffix path = ".gz") then
    Fetched (path_stem path)
  else RuntimeError ("Unknown file extension: " +:+ path_suffix path).

(** The part of [get_rosdep_yaml] after the cache has been passed
    over: the request, the decoding by suffix and the cache write. *)
Definition download (url filename : string) (save_cache : bool) (st : store)
  : fetched (option document) * store :=
  let res := requests_get url in
  let content :=
    if bool_decide (path_suffix (url_path url) ∈ [".yaml"; ".yml"])
    then yaml_load res else yaml_load (gunzip res) in
  (Fetched content,
   {| cache_files :=
        if save_cache
        then <[filename := yaml_dump content]> (cache_files st)
        else cache_files st;
      requested := requested st ++ [url] |}).

Definition get_rosdep_yaml (url : string) (load_cache save_cache : bool)
    (st : store) : fetched (option document) * store :=
  match cache_filename url with
  | RuntimeError msg => (RuntimeError msg, st)
  | Fetched filename =>
      match cache_files st !! filename with
      | Some text =>
          if load_cache then (Fetched (yaml_load text), st)
          else download url filename save_cache st
      | None => download url filename save_cache st
      end
  end.

(** The lazily loaded documents of a [BuildFarm] that are fetched from a
    fixed URL: [__dist_index], [__dist_base] and [__dist_python]. *)
Record documents : Type := Documents {
  dist_index_doc : option document;
  dist_base_doc : option document;
  dist_python_doc : option document
}.

Definition rosdistro_base_url : string :=
  "https://raw.githubusercontent.com/ros/rosdistro/master".

(** The properties [dist_index], [dist_base] and [dist_python]: the
    field is filled on the first access that finds it [None]. *)
Definition dist_index_property (docs : documents) (st : store)
  : fetched (option document) * documents * store :=
  match dist_index_doc docs with
  | Some d => (Fetched (Some d), docs, st)
  | None =>
      match get_rosdep_yaml (rosdistro_base_url +:+ "/" +:+ "index-v4.yaml")
              true true st with
      | (Fetched content, st') =>
          (Fetched content,
           {| dist_index_doc := content; dist_base_doc := dist_base_doc docs;
              dist_python_doc := dist_python_doc docs |}, st')
      | (RuntimeError msg, st') => (RuntimeError msg, docs, st')
      end
  end.

Definition dist_base_property (docs : documents) (st : store)
  : fetched (option document) * documents * store :=
  match dist_base_doc docs with
  | Some d => (Fetched (Some d), docs, st)
  | None =>
      match get_rosdep_yaml (rosdistro_base_url +:+ "/" +:+ "rosdep/base.yaml")
              true true st with
      | (Fetched content, st') =>
          (Fetched content,
           {| dist_index_doc := dist_index_doc docs; dist_base_doc := content;
              dist_python_doc := dist_python_doc docs |}, st')
      | (RuntimeError msg, st') => (RuntimeError msg, docs, st')
      end
  end.

Definition dist_python_property (docs : documents) (st : store)
  : fetched (option document) * documents * store :=
  match dist_python_doc docs with
  | Some d => (Fetched (Some d), docs, st)
  | None =>
      match get_rosdep_yaml (rosdistro_base_url +:+ "/" +:+ "rosdep/python.yaml")
              true true st with
      | (Fetched content, st') =>
          (Fetched content,
           {| dist_index_doc := dist_index_doc docs;
              dist_base_doc := dist_base_doc docs;
              dist_python_doc := content |}, st')
      | (RuntimeError msg, st') => (RuntimeError msg, docs, st')
      end
  end.

End metadata_store.

(** ** Specification-level definitions *)

(** An attribute that makes the resolver drop the name of its edge. *)
Definition condition_fails (kv : string * string) : bool :=
  bool_decide (kv.1 = "condition") && negb (bool_decide (last_token kv.2 = "3")).

(** An edge is active when none of its attributes is a failing
    condition. *)
Definition edge_active (d : xml_elem) : bool :=
  forallb (λ kv, negb (condition_fails kv)) (attrib d).

(** The attributes of an element come from a dict: a key occurs once. *)
Definition attrib_ok (d : xml_elem) : Prop := NoDup (attrib d).*1.

Definition cache_ok (self : BuildFarm) : Prop :=
  map_Forall (λ _ root, Forall attrib_ok root)
    (release_package_xmls (dist_cache self)).

(** What one edge does to the working set, and what a list of edges
    leaves in it. *)
Definition edge_effect (depends : gset string) (d : xml_elem) : gset string :=
  if edge_active d then {[text d]} ∪ depends else depends ∖ {[text d]}.

Definition active_names (edges : list xml_elem) : gset string :=
  foldl edge_effect ∅ edges.

(** The declared dependency graph of the snapshot and its acyclicity. *)
Definition declared (self : BuildFarm) (a b : string) : Prop :=
  ∃ d, d ∈ get_dependencies self a ∧ text d = b.

Definition acyclic (self : BuildFarm) : Prop :=
  ∀ x, ¬ tc (declared self) x x.

(** The identifiers of the targets of a sequence of items. *)
Definition target_ids (items : list makefile_item) : list string :=
  omap (λ i, match i with Target t => Some (target t) | Line _ => None end) items.

(** The first target of a sequence that carries a given identifier. *)
Definition first_target (id : string) (items : list makefile_item)
  : option MakefileTarget :=
  head (omap (λ i, match i with
                   | Target t => if decide (target t = id) then Some t else None
                   | Line _ => None
                   end) items).

(** One step of the resolver: a name the first loop leaves in the
    working set of [a]. *)
Definition resolves `{Platform} (self : BuildFarm) (a b : string) : Prop :=
  ∃ depends, (direct_dependencies self a).1 = Ok depends ∧ b ∈ depends.

(** What the attribute loop asks of [version.parse] for one attribute:
    a bound is compared only when the dependency declares a version, and
    then the bound and the declared version both have to be versions. *)
Definition is_version `{Platform} (s : string) : bool :=
  match version_parse s with Some _ => true | None => false end.

Definition bound_parses `{Platform} (self : BuildFarm) (d : xml_elem)
    (kv : string * string) : bool :=
  if bool_decide (kv.1 = "version_gte") || bool_decide (kv.1 = "version_gt")
  then
    match head (get_xml_data_by_tags self (text d) ["version"]) with
    | None => true
    | Some e => is_version kv.2 && is_version (text e)
    end
  else true.

Definition edge_bounds_ok `{Platform} (self : BuildFarm) (d : xml_elem)
  : bool :=
  forallb (bound_parses self d) (attrib d).

(** The bounds on the edges of one package, and of every package of the
    snapshot. *)
Definition bounds_ok `{Platform} (self : BuildFarm) (package_name : string)
  : bool :=
  forallb (edge_bounds_ok self) (get_dependencies self package_name).

Definition versions_ok `{Platform} (self : BuildFarm) : Prop :=
  map_Forall (λ package_name _, bounds_ok self package_name = true)
    (release_package_xmls (dist_cache self)).


(** The condition of an edge holds when every [condition] attribute it
    carries ends in the token ["3"]. *)
Definition condition_holds (d : xml_elem) : Prop :=
  ∀ v, ("condition", v) ∈ attrib d → last_token v = "3".

(** The declared edges of the snapshot as a list, to check a ranking of
    the packages by computation. *)
Definition edge_list (self : BuildFarm) : list (string * string) :=
  '(a, root) ← map_to_list (release_package_xmls (dist_cache self));
  (λ d, (a, text d)) <$> filter (λ child, tag child ∈ tags_for_dependencies) root.

(** A package is listed when some repository of the manifest releases
    it. *)
Definition listed (self : BuildFarm) (package_name : string) : Prop :=
  ∃ k v, (k, v) ∈ repositories (dist_cache self) ∧
         package_name ∈ release_packages k v.

(** [table[n].get("ubuntu")] for a name of the table. *)
Definition os_entry (table : rosdep_table) (n : string) : option os_value :=
  table !! n ≫= (.!! "ubuntu").

(** The OS packages an entry stands for on the target distribution, in
    the words of the specification: a flat list verbatim; of a mapping
    the list under the exact distribution, else the list under the
    wildcard; nothing for an empty wildcard, for a mapping with neither
    key and for any other shape. *)
Definition value_names (v : dist_value) : gset string :=
  match v with
  | NoneValue => ∅
  | ListValue l => list_to_set l
  | DictValue keys => list_to_set keys
  end.

Definition contribution (distribution : string) (p : option os_value)
  : gset string :=
  match p with
  | Some (PkgList l) => list_to_set l
  | Some (PerDist m) =>
      match m !! distribution with
      | Some v => value_names v
      | None => from_option value_names ∅ (m !! "*")
      end
  | _ => ∅
  end.

(** The diagnostic an entry gives rise to. *)
Definition entry_diagnostics (distribution : string) (p : option os_value)
  : list diag :=
  match p with
  | Some (PkgList _) => []
  | Some (PerDist m) =>
      match m !! distribution, m !! "*" with
      | None, None => [WarnNamesNotFound distribution]
      | _, _ => []
      end
  | _ => [WarnUnknownFormat]
  end.

(** An entry whose exact distribution key holds the empty value cannot
    be iterated by [pkgs.update]. *)
Definition entry_ok (distribution : string) (p : option os_value) : Prop :=
  match p with
  | Some (PerDist m) => m !! distribution ≠ Some NoneValue
  | _ => True
  end.

(** The well-formedness conditions are decided by computation. *)
#[global] Instance attrib_ok_dec d : Decision (attrib_ok d).
Proof. unfold attrib_ok. apply _. Defined.

#[global] Instance cache_ok_dec self : Decision (cache_ok self).
Proof. unfold cache_ok. apply _. Defined.

#[global] Instance versions_ok_dec `{Platform} self : Decision (versions_ok self).
Proof. unfold versions_ok. apply _. Defined.

#[global] Instance entry_ok_dec distribution p :
  Decision (entry_ok distribution p).
Proof. destruct p as [[l|m|]|]; cbn; apply _. Defined.

(** The aggregate target of the plan. *)
Definition all_target `{Platform} (main_targets build_dep : gset string)
  : MakefileTarget :=
  {| target := "all"; depends := set_order main_targets;
     commands :=
       ["@echo built packages : `ls -1 /tmp/deb/* | wc -l` / " +:+
        pretty (size build_dep + 8)];
     comment := ""; phony := true; alias := None |}.

(** A package is sourced when [get_repository] finds it in a repository
    that has a ["source"] entry. *)
Definition sourced (self : BuildFarm) (package_name : string) : Prop :=
  ∃ k v src,
    (get_repository self package_name).1 = Ok (Some k, Some v) ∧
    source v = Some src.

(** The identifier of the checkout target of the repository [k]. *)
Definition checkout_marker (self : BuildFarm) (k : string) : string :=
  path_join (path_join (build_dir self) k) ".git".

(** What [gen_makefile] appends for a package of the build-from-source
    set: the checkout of its repository and its build target. *)
Definition package_target_of `{Platform} (self : BuildFarm)
    (build_dep : gset string) (package_name : string) (bp : BuildPackage)
  : Prop :=
  ∃ k v src deps,
    (get_repository self package_name).1 = Ok (Some k, Some v) ∧
    source v = Some src ∧
    (direct_dependencies self package_name).1 = Ok deps ∧
    bp_repo bp =
      {| name := k;
         repo_url := if decide (k = "rosconsole")
                     then "https://github.com/twdragon/rosconsole.git"
                     else url src;
         base_dir := build_dir self;
         branch := Some (if decide (k = "rosconsole")
                         then "log4cxx-0.12" else version src);
         recursive := true |} ∧
    target (bp_target bp) = built_marker package_name ∧
    alias (bp_target bp) = Some package_name ∧
    depends (bp_target bp) =
      checkout_marker self k ::
      (built_marker <$> set_order (deps ∩ build_dep)) ++
      ["/root/.ros/rosdep/sources.cache"] ∧
    commands (bp_target bp) =
      ["bash build_ros_package.sh " +:+ path_join (build_dir self) k +:+
       " " +:+ package_name +:+ " && touch $@"].

(** The names whose marker is the identifier of a target of the fixed
    part of the plan: the marker directory and the ladder of build
    tools. *)
Definition bootstrap_names : list string :=
  [".touch"; "catkin-pkg"; "rospkg"; "rosdistro"; "rosdep"].

(** ** Concrete snapshots *)

Module Examples.

(** A version is a dotted sequence of decimal numbers; two versions are
    compared number by number, a missing number counting as zero. *)
Fixpoint number (acc : N) (s : string) : option N :=
  match s with
  | EmptyString => Some acc
  | String c s' =>
      let n := N_of_ascii c in
      if ((48 <=? n) && (n <=? 57))%N
      then number (10 * acc + (n - 48)) s' else None
  end.

Definition dotted (s : string) : option (list N) :=
  mapM (λ w, if decide (w = "") then None else number 0 w)
       (split "."%char s).

Fixpoint lexicographic (a b : list N) : comparison :=
  match a, b with
  | x :: a', y :: b' =>
      match (x ?= y)%N with Eq => lexicographic a' b' | c => c end
  | _, _ => Eq
  end.

Definition compare_versions (a b : list N) : comparison :=
  let n := length a `max` length b in
  lexicographic (a ++ replicate (n - length a) 0%N)
                (b ++ replicate (n - length b) 0%N).

(** Sets are iterated in the order of [elements]. *)
Definition platform : Platform :=
  {| set_order := elements; Version := list N; version_parse := dotted;
     version_ge a b :=
       match compare_versions a b with Lt => false | _ => true end;
     version_gt a b :=
       match compare_versions a b with Gt => true | _ => false end |}.

Definition dep (n : string) (attrs : list (string * string)) : xml_elem :=
  {| tag := "depend"; text := n; attrib := attrs |}.

Definition farm (xmls : list (string * list xml_elem))
    (repos : list (string * repository)) (base python : rosdep_table)
  : BuildFarm :=
  {| ros_distribution := "noetic"; ubuntu_distribution := "jammy";
     dist_cache :=
       {| release_package_xmls := list_to_map xmls; repositories := repos |};
     dist_base := base; dist_python := python |}.

Definition git (u : string) : repository :=
  {| release := None; source := Some {| url := u; version := "master" |} |}.

(** [p] needs [bar] and, for Python 2 only, [foo]; [bar] needs [foo]. *)
Definition farm_chain : BuildFarm :=
  farm [("p", [dep "bar" [];
               dep "foo" [("condition", "$ROS_PYTHON_VERSION == 2")]]);
        ("bar", [dep "foo" [("version_gte", "1.2.0")]]);
        ("foo", [{| tag := "version"; text := "1.0.0"; attrib := [] |}])]
       [("p", git "https://example.org/p.git");
        ("bar", git "https://example.org/bar.git");
        ("foo", git "https://example.org/foo.git")] ∅ ∅.

(** [p] names [foo] twice: unconditionally, then for Python 2 only. *)
Definition farm_twice : BuildFarm :=
  farm [("p", [dep "foo" [];
               dep "foo" [("condition", "$ROS_PYTHON_VERSION == 2")]])]
       [] ∅ ∅.

(** [a] needs [b] and [b] needs [a]. *)
Definition farm_cycle : BuildFarm :=
  farm [("a", [dep "b" []]); ("b", [dep "a" []])] [] ∅ ∅.

(** [a] needs itself. *)
Definition farm_loop : BuildFarm :=
  farm [("a", [dep "a" []])] [] ∅ ∅.

(** The name [a] is a key of both reference tables; the other entries
    show the shapes a table holds under the OS name. *)
Definition farm_overlap : BuildFarm :=
  farm [] []
    {[ "a" := {[ "ubuntu" := PkgList ["liba-dev"] ]};
       "e" := {[ "ubuntu" := PerDist {[ "*" := ListValue ["libe-dev"] ]} ]} ]}
    {[ "a" := {[ "ubuntu" := PkgList ["python3-a"] ]};
       "b" := {[ "ubuntu" :=
                   PerDist {[ "focal" := ListValue ["python3-b"];
                              "*" := NoneValue ]} ]};
       "c" := {[ "ubuntu" :=
                   PerDist {[ "jammy" := ListValue ["python3-c"];
                              "*" := ListValue ["python-c"] ]} ]};
       "d" := {[ "ubuntu" :=
                   PerDist {[ "focal" := ListValue ["python3-d"] ]} ]} ]}.


(** A ranking of the packages of [farm_chain]. *)
Definition chain_rank (n : string) : nat :=
  if decide (n = "p") then 2 else if decide (n = "bar") then 1 else 0.

(** The packages [x] and [y] are released from one repository [r]; [z]
    is in no repository. *)
Definition farm_shared : BuildFarm :=
  farm [("x", [dep "y" []]); ("y", [])]
       [("r", {| release := Some {| packages := Some ["x"; "y"] |};
                 source := Some {| url := "https://example.org/r.git";
                                   version := "main" |} |})] ∅ ∅.

(** A platform that iterates sets in the opposite order. *)
Definition platform_rev : Platform :=
  {| set_order s := reverse (elements s); Version := list N;
     version_parse := dotted;
     version_ge a b :=
       match compare_versions a b with Lt => false | _ => true end;
     version_gt a b :=
       match compare_versions a b with Gt => true | _ => false end |}.

(** The bound of [bar] on [foo] is the word [latest], and [foo] declares
    a version. *)
Definition farm_latest : BuildFarm :=
  farm [("bar", [dep "foo" [("version_gte", "latest")]]);
        ("foo", [{| tag := "version"; text := "1.0.0"; attrib := [] |}])]
       [("bar", git "https://example.org/bar.git");
        ("foo", git "https://example.org/foo.git")] ∅ ∅.

(** [p] names [foo] twice, as in [farm_twice], and needs [bar], which
    needs [foo]. *)
Definition farm_sibling : BuildFarm :=
  farm [("p", [dep "foo" []; dep "bar" [];
               dep "foo" [("condition", "$ROS_PYTHON_VERSION == 2")]]);
        ("bar", [dep "foo" []])]
       [] ∅ ∅.

(** [p] needs a package that has the name of a build tool. *)
Definition farm_tools : BuildFarm :=
  farm [("p", [dep "rosdep" []])]
       [("p", git "https://example.org/p.git");
        ("rosdep", git "https://example.org/rosdep.git")] ∅ ∅.

(** The package [x] is listed by two repositories. *)
Definition farm_two : BuildFarm :=
  farm [] [("r1", {| release := Some {| packages := Some ["x"] |};
                     source := None |});
           ("r2", {| release := Some {| packages := Some ["x"; "y"] |};
                     source := None |})] ∅ ∅.

(** The runtime table holds [None] under the target distribution. *)
Definition farm_null : BuildFarm :=
  farm [] [] ∅
    {[ "n" := {[ "ubuntu" :=
                   PerDist {[ "jammy" := NoneValue;
                              "*" := ListValue ["python3-n"] ]} ]} ]}.

(** One repository releases the seven one-letter packages. *)
Definition farm_letters : BuildFarm :=
  farm []
    [("letters",
      {| release :=
           Some {| packages := Some ["d"; "e"; "s"; "k"; "t"; "o"; "p"] |};
         source := Some {| url := "https://example.org/letters.git";
                           version := "main" |} |})] ∅ ∅.

(** A network whose documents are non-empty strings, stored as they
    are; the path of a URL is the URL itself. *)
Definition network : Network :=
  {| document := string;
     url_path u := u;
     requests_get u := "document of " +:+ u;
     gunzip s := s;
     yaml_load s := if decide (s = "") then None else Some s;
     yaml_dump d := default "" d |}.

Definition empty_store : store := {| cache_files := ∅; requested := [] |}.

End Examples.

(** ** The monad *)

Section monad.
Context {A B : Type}.
Implicit Types (m : M A) (f : A → M B).

Lemma bind_outcome m f :
  (bind m f).1 =
  match m.1 with Ok a => (f a).1 | Raise e => Raise e | Diverge => Diverge end.
Proof. destruct m as [[a|e|] l]; simpl; [by destruct (f a)|done..]. Qed.

Lemma bind_Ok m f b l :
  bind m f = (Ok b, l) ↔
  ∃ a l1 l2, m = (Ok a, l1) ∧ f a = (Ok b, l2) ∧ l = l1 ++ l2.
Proof.
  split.
  - destruct m as [[a|e|] l1]; simpl; [|done..].
    destruct (f a) as [r l2] eqn:Hf. intros [= -> <-]. by exists a, l1, l2.
  - intros (a & l1 & l2 & -> & Hf & ->). simpl. by rewrite Hf.
Qed.

Lemma bind_ret_l (a : A) f : bind (ret a) f = f a.
Proof. unfold bind, ret. by destruct (f a). Qed.

Lemma bind_log m f :
  (bind m f).2 =
  m.2 ++ match m.1 with Ok a => (f a).2 | _ => [] end.
Proof.
  destruct m as [[a|e|] l]; simpl; [by destruct (f a)|by rewrite app_nil_r..].
Qed.

End monad.

Lemma for_each_outcome_pure {A S} (l : list A) (body : A → S → M S)
    (g : S → A → S) (s : S) :
  (∀ x s, x ∈ l → (body x s).1 = Ok (g s x)) →
  (for_each l body s).1 = Ok (foldl g s l).
Proof.
  revert s. induction l as [|x l IH]; intros s Hbody; [done|].
  simpl. rewrite bind_outcome, Hbody by left.
  apply IH. intros y s' Hy. apply Hbody. by right.
Qed.


Lemma for_each_app {A S} (l1 l2 : list A) (body : A → S → M S) s :
  for_each (l1 ++ l2) body s =
  (let* s' := for_each l1 body s in for_each l2 body s').
Proof.
  revert s. induction l1 as [|x l1 IH]; intros s; simpl.
  - by destruct (for_each l2 body s).
  - destruct (body x s) as [[s'| |] lg]; simpl; [|done..].
    rewrite IH. destruct (for_each l1 body s') as [[s''| |] lg']; simpl;
      [|by rewrite ?app_nil_r..].
    destruct (for_each l2 body s''). by rewrite app_assoc.
Qed.

(** ** Metadata access *)

Section metadata.
Context `{Platform}.
Variable self : BuildFarm.

Lemma get_xml_data_by_tags_absent package_name tags :
  release_package_xmls (dist_cache self) !! package_name = None →
  get_xml_data_by_tags self package_name tags = [].
Proof. unfold get_xml_data_by_tags. by intros ->. Qed.

Lemma get_package_version_outcome package_name :
  (get_package_version self package_name).1 =
  Ok (text <$> head (get_xml_data_by_tags self package_name ["version"])).
Proof.
  unfold get_package_version.
  by destruct (get_xml_data_by_tags self package_name ["version"]).
Qed.

Lemma get_dependencies_attrib_ok package_name :
  cache_ok self → Forall attrib_ok (get_dependencies self package_name).
Proof.
  intros Hok. unfold get_dependencies, get_xml_data_by_tags.
  destruct (release_package_xmls (dist_cache self) !! package_name)
    as [root|] eqn:Hroot; [|constructor].
  apply Hok in Hroot. simpl in Hroot.
  rewrite Forall_forall in Hroot |- *.
  intros d [_ Hd]%list_elem_of_filter. by apply Hroot.
Qed.

End metadata.

Lemma for_each_invariant {A S} (P : S → Prop) (l : list A)
    (body : A → S → M S) s :
  P s →
  (∀ x s s', x ∈ l → P s → (body x s).1 = Ok s' → P s') →
  ∀ s', (for_each l body s).1 = Ok s' → P s'.
Proof.
  revert s. induction l as [|x l IH]; intros s Hs Hbody s'; simpl.
  - by intros [= <-].
  - rewrite bind_outcome. destruct (body x s).1 as [s1| |] eqn:Hx; [|done..].
    apply IH; [by eapply Hbody; [left|..]|].
    intros y t t' Hy. apply Hbody. by right.
Qed.

Lemma for_each_fails {A S} (l : list A) (body : A → S → M S) s r :
  (for_each l body s).1 = r → (∀ s', r ≠ Ok s') →
  ∃ x s', x ∈ l ∧ (body x s').1 = r.
Proof.
  revert s. induction l as [|x l IH]; intros s; simpl.
  - intros <- Hr. by destruct (Hr s).
  - rewrite bind_outcome. destruct (body x s).1 as [s1| |] eqn:Hx.
    + intros Hl Hr. destruct (IH _ Hl Hr) as (y & s' & Hy & Hb).
      exists y, s'. split; [by right|done].
    + intros <- _. exists x, s. split; [by left|done].
    + intros <- _. exists x, s. split; [by left|done].
Qed.

Lemma for_each_Ok_each {A S} (l : list A) (body : A → S → M S) s s' x :
  (for_each l body s).1 = Ok s' → x ∈ l →
  ∃ s1 s2, (body x s1).1 = Ok s2.
Proof.
  revert s. induction l as [|y l IH]; intros s Hrun Hx;
    [by apply elem_of_nil in Hx|].
  cbn [for_each] in Hrun. rewrite bind_outcome in Hrun.
  destruct (body y s).1 as [s1| |] eqn:Hy; [|done..].
  apply elem_of_cons in Hx as [->|Hx]; [by exists s, s1|by eapply IH].
Qed.

(** ** The resolver *)

Section resolver.
Context `{Platform}.
Variable self : BuildFarm.

Lemma set_remove_member x (depends : gset string) :
  x ∈ depends → set_remove x depends = (Ok (depends ∖ {[x]}), []).
Proof. intros Hx. unfold set_remove. by rewrite decide_True. Qed.

Lemma parse_outcome s :
  (parse s).1 =
  match version_parse s with
  | Some x => Ok x
  | None => Raise (InvalidVersion s)
  end.
Proof. unfold parse. by destruct (version_parse s). Qed.

(** An attribute other than a failing condition leaves the working set
    as it is, or stops the loop with [InvalidVersion]. *)
Lemma check_attribute_outcome package_name d kv depends :
  condition_fails kv = false →
  (check_attribute self package_name d kv depends).1 = Ok depends ∧
    bound_parses self d kv = true ∨
  (∃ s, (check_attribute self package_name d kv depends).1
        = Raise (InvalidVersion s)) ∧
    bound_parses self d kv = false.
Proof.
  destruct kv as [k v].
  unfold condition_fails, check_attribute, bound_parses, is_version. simpl.
  intros ->.
  repeat (case_bool_decide; simpl); try (by left);
    rewrite bind_outcome, get_package_version_outcome;
    destruct (head _) as [e|]; simpl; try (by left);
    rewrite !bind_outcome, parse_outcome;
    (destruct (version_parse v) as [bound|]; simpl; [|right; by eauto]);
    rewrite !bind_outcome, parse_outcome;
    (destruct (version_parse (text e)) as [declared_version|]; simpl;
       [|right; by eauto]);
    left.
  - by destruct (version_ge bound declared_version).
  - by destruct (version_gt bound declared_version).
Qed.

Lemma check_attribute_keeps package_name d kv depends :
  condition_fails kv = false → bound_parses self d kv = true →
  (check_attribute self package_name d kv depends).1 = Ok depends.
Proof.
  intros Hkv Hb.
  destruct (check_attribute_outcome package_name d kv depends Hkv)
    as [[? _]|[_ ?]]; [done|congruence].
Qed.

Lemma check_attribute_invalid package_name d kv depends :
  bound_parses self d kv = false →
  ∃ s, (check_attribute self package_name d kv depends).1
       = Raise (InvalidVersion s).
Proof.
  intros Hb.
  assert (Hkv : condition_fails kv = false).
  { destruct kv as [k v]. unfold bound_parses, condition_fails in *.
    cbn [fst snd] in *.
    destruct (decide (k = "condition")) as [->|Hk];
      [|by rewrite (bool_decide_eq_false_2 _ Hk)].
    rewrite (bool_decide_eq_false_2 ("condition" = "version_gte")) in Hb
      by done.
    by rewrite (bool_decide_eq_false_2 ("condition" = "version_gt")) in Hb
      by done. }
  destruct (check_attribute_outcome package_name d kv depends Hkv)
    as [[_ ?]|[? _]]; [congruence|done].
Qed.

Lemma check_attribute_Ok package_name d kv depends depends' :
  (check_attribute self package_name d kv depends).1 = Ok depends' →
  bound_parses self d kv = true ∧
  (condition_fails kv = false → depends' = depends).
Proof.
  intros Hrun. destruct (bound_parses self d kv) eqn:Hb.
  - split; [done|]. intros Hkv.
    rewrite check_attribute_keeps in Hrun by done. by injection Hrun.
  - destruct (check_attribute_invalid package_name d kv depends Hb) as [s Hs].
    congruence.
Qed.

Lemma check_attribute_drops package_name d kv depends :
  condition_fails kv = true → text d ∈ depends →
  check_attribute self package_name d kv depends =
  (Ok (depends ∖ {[text d]}), []).
Proof.
  destruct kv as [k v]. unfold condition_fails, check_attribute. simpl.
  intros -> Hd. by apply set_remove_member.
Qed.

Lemma check_attribute_shrinks package_name d kv depends depends' :
  (check_attribute self package_name d kv depends).1 = Ok depends' →
  depends' ⊆ depends.
Proof.
  destruct (condition_fails kv) eqn:Hkv.
  - destruct kv as [k v]. unfold condition_fails in Hkv.
    unfold check_attribute. simpl in *. rewrite Hkv.
    unfold set_remove, ret, raise.
    destruct (decide (text d ∈ depends)); simpl; [|done].
    intros Heq. injection Heq as <-. set_solver.
  - intros [_ ->]%check_attribute_Ok; done.
Qed.

Lemma check_attribute_total package_name d kv depends :
  (check_attribute self package_name d kv depends).1 ≠ Diverge.
Proof.
  destruct (condition_fails kv) eqn:Hkv.
  - destruct kv as [k v]. unfold condition_fails in Hkv.
    unfold check_attribute. simpl in *. rewrite Hkv.
    unfold set_remove, ret, raise.
    by destruct (decide (text d ∈ depends)).
  - destruct (check_attribute_outcome package_name d kv depends Hkv)
      as [[-> _]|[[s ->] _]]; done.
Qed.

Lemma attributes_keep package_name d l depends :
  forallb (λ kv, negb (condition_fails kv)) l = true →
  forallb (bound_parses self d) l = true →
  (for_each l (check_attribute self package_name d) depends).1 = Ok depends.
Proof.
  intros Hl Hb.
  rewrite (for_each_outcome_pure _ _ (λ s _, s)).
  - clear Hl Hb. by induction l.
  - intros kv s Hkv. rewrite forallb_forall in Hl, Hb.
    apply check_attribute_keeps.
    + apply negb_true_iff, Hl. by apply list_elem_of_In.
    + apply Hb. by apply list_elem_of_In.
Qed.

(** A loop over attributes that returns has parsed every bound. *)
Lemma attributes_Ok_parse package_name d l depends depends' :
  (for_each l (check_attribute self package_name d) depends).1 = Ok depends' →
  forallb (bound_parses self d) l = true.
Proof.
  intros Hrun. apply forallb_forall. intros kv Hkv%list_elem_of_In.
  eapply for_each_Ok_each in Hrun as (s1 & s2 & Hbody); [|done].
  by apply check_attribute_Ok in Hbody as [? _].
Qed.

(** Without a failing condition the loop returns the working set, or
    stops with [InvalidVersion]. *)
Lemma attributes_keep_or_invalid package_name d l depends :
  forallb (λ kv, negb (condition_fails kv)) l = true →
  forallb (bound_parses self d) l = false →
  ∃ s, (for_each l (check_attribute self package_name d) depends).1
       = Raise (InvalidVersion s).
Proof.
  induction l as [|kv l IH]; [done|]. cbn [forallb for_each].
  intros [Hkv Hl]%andb_true_iff Hb. rewrite bind_outcome.
  apply negb_true_iff in Hkv.
  destruct (check_attribute_outcome package_name d kv depends Hkv)
    as [[-> Hp]|[[s ->] _]]; [|by eauto].
  rewrite Hp in Hb. by apply IH.
Qed.

Lemma NoDup_keys_condition (k v : string) (l : list (string * string)) :
  NoDup ((k, v) :: l).*1 → k = "condition" →
  forallb (λ kv, negb (condition_fails kv)) l = true.
Proof.
  intros Hnd ->. rewrite fmap_cons, NoDup_cons in Hnd. destruct Hnd as [Hk _].
  apply forallb_forall. intros [k' v'] Hin%list_elem_of_In.
  unfold condition_fails. simpl. case_bool_decide as Hk'; [|done].
  subst k'. destruct Hk. apply list_elem_of_fmap. by exists ("condition", v').
Qed.

Lemma bound_parses_condition d k v :
  condition_fails (k, v) = true → bound_parses self d (k, v) = true.
Proof.
  unfold condition_fails, bound_parses. cbn [fst snd].
  intros [Hk _]%andb_true_iff. apply bool_decide_eq_true in Hk. by subst k.
Qed.

Lemma attributes_outcome package_name d l depends :
  NoDup l.*1 → text d ∈ depends →
  forallb (bound_parses self d) l = true →
  (for_each l (check_attribute self package_name d) depends).1 =
  Ok (if forallb (λ kv, negb (condition_fails kv)) l
      then depends else depends ∖ {[text d]}).
Proof.
  induction l as [|[k v] l IH]; intros Hnd Hd Hb; [done|].
  cbn [for_each forallb] in *. apply andb_true_iff in Hb as [Hb1 Hb].
  rewrite bind_outcome.
  destruct (condition_fails (k, v)) eqn:Hkv; cbn [negb andb].
  - rewrite check_attribute_drops by done. cbn [fst].
    apply attributes_keep; [|done]. eapply NoDup_keys_condition; [done|].
    unfold condition_fails in Hkv. simpl in Hkv.
    apply andb_true_iff in Hkv as [Hk _]. by apply bool_decide_eq_true in Hk.
  - rewrite check_attribute_keeps by done.
    apply IH; [|done..]. rewrite fmap_cons in Hnd. by apply NoDup_cons in Hnd as [_ ?].
Qed.

Lemma attributes_invalid package_name d l depends :
  NoDup l.*1 → text d ∈ depends →
  forallb (bound_parses self d) l = false →
  ∃ s, (for_each l (check_attribute self package_name d) depends).1
       = Raise (InvalidVersion s).
Proof.
  revert depends.
  induction l as [|[k v] l IH]; intros depends Hnd Hd Hb; [done|].
  cbn [for_each forallb] in *. rewrite bind_outcome.
  destruct (condition_fails (k, v)) eqn:Hkv.
  - rewrite check_attribute_drops by done. cbn [fst].
    rewrite bound_parses_condition in Hb by done.
    apply attributes_keep_or_invalid; [|done].
    eapply NoDup_keys_condition; [done|].
    unfold condition_fails in Hkv. simpl in Hkv.
    apply andb_true_iff in Hkv as [Hk _]. by apply bool_decide_eq_true in Hk.
  - destruct (check_attribute_outcome package_name d (k, v) depends Hkv)
      as [[-> Hp]|[[s ->] _]]; [|by eauto].
    rewrite Hp in Hb. apply IH; [|done..].
    rewrite fmap_cons in Hnd. by apply NoDup_cons in Hnd as [_ ?].
Qed.

Lemma add_edge_outcome package_name d depends :
  attrib_ok d → edge_bounds_ok self d = true →
  (add_edge self package_name d depends).1 = Ok (edge_effect depends d).
Proof.
  intros Hok Hb. unfold add_edge, edge_effect, edge_active.
  rewrite attributes_outcome by (done || set_solver).
  destruct (forallb _ _); [done|]. f_equal. set_solver.
Qed.

Lemma add_edge_invalid package_name d depends :
  attrib_ok d → edge_bounds_ok self d = false →
  ∃ s, (add_edge self package_name d depends).1 = Raise (InvalidVersion s).
Proof.
  intros Hok Hb. unfold add_edge.
  apply attributes_invalid; [done|set_solver|done].
Qed.

Lemma add_edge_Ok package_name d depends depends' :
  attrib_ok d →
  (add_edge self package_name d depends).1 = Ok depends' →
  edge_bounds_ok self d = true ∧ depends' = edge_effect depends d.
Proof.
  intros Hok Hrun.
  assert (Hb : edge_bounds_ok self d = true)
    by by eapply attributes_Ok_parse.
  split; [done|]. rewrite add_edge_outcome in Hrun by done.
  by injection Hrun.
Qed.

Lemma add_edge_bound package_name d depends depends' :
  (add_edge self package_name d depends).1 = Ok depends' →
  depends' ⊆ {[text d]} ∪ depends.
Proof.
  unfold add_edge.
  apply (for_each_invariant (λ s, s ⊆ {[text d]} ∪ depends)); [done|].
  intros kv s s' _ Hs Hkv%check_attribute_shrinks. set_solver.
Qed.

Lemma add_edge_total package_name d depends :
  (add_edge self package_name d depends).1 ≠ Diverge.
Proof.
  intros Hdiv. apply for_each_fails in Hdiv as (kv & s & _ & Hkv); [|done].
  by apply check_attribute_total in Hkv.
Qed.

Lemma direct_dependencies_outcome package_name :
  cache_ok self → bounds_ok self package_name = true →
  (direct_dependencies self package_name).1 =
  Ok (active_names (get_dependencies self package_name)).
Proof.
  intros Hok Hb. unfold direct_dependencies, active_names.
  apply for_each_outcome_pure. intros d s Hd. apply add_edge_outcome.
  - pose proof (get_dependencies_attrib_ok self package_name Hok) as Hall.
    rewrite Forall_forall in Hall. by apply Hall.
  - unfold bounds_ok in Hb. rewrite forallb_forall in Hb.
    by apply Hb, list_elem_of_In.
Qed.

(** The first loop returns exactly when every bound it compares
    parses. *)
Lemma direct_dependencies_Ok package_name depends :
  cache_ok self →
  (direct_dependencies self package_name).1 = Ok depends →
  bounds_ok self package_name = true ∧
  depends = active_names (get_dependencies self package_name).
Proof.
  intros Hok Hrun.
  assert (Hb : bounds_ok self package_name = true).
  { apply forallb_forall. intros d Hd%list_elem_of_In.
    pose proof (get_dependencies_attrib_ok self package_name Hok) as Hall.
    rewrite Forall_forall in Hall.
    eapply for_each_Ok_each in Hrun as (s1 & s2 & Hbody); [|done].
    apply add_edge_Ok in Hbody as [? _]; [done|by apply Hall]. }
  split; [done|]. rewrite direct_dependencies_outcome in Hrun by done.
  by injection Hrun.
Qed.

Lemma edges_invalid package_name es depends :
  Forall attrib_ok es →
  forallb (edge_bounds_ok self) es = false →
  ∃ s, (for_each es (add_edge self package_name) depends).1
       = Raise (InvalidVersion s).
Proof.
  revert depends. induction es as [|d es IH]; intros depends Hall Hb; [done|].
  apply Forall_cons in Hall as [Hd Hall]. cbn [forallb for_each] in *.
  rewrite bind_outcome. destruct (edge_bounds_ok self d) eqn:Hbd.
  - rewrite add_edge_outcome by done. by apply IH.
  - destruct (add_edge_invalid package_name d depends Hd Hbd) as [s ->].
    by eauto.
Qed.

Lemma versions_ok_bounds package_name :
  versions_ok self → bounds_ok self package_name = true.
Proof.
  intros Hv.
  destruct (release_package_xmls (dist_cache self) !! package_name)
    as [root|] eqn:Hp.
  - by apply (Hv _ _ Hp).
  - unfold bounds_ok, get_dependencies.
    by rewrite get_xml_data_by_tags_absent.
Qed.

Lemma edges_outcome package_name es depends :
  Forall attrib_ok es → forallb (edge_bounds_ok self) es = true →
  (for_each es (add_edge self package_name) depends).1
  = Ok (foldl edge_effect depends es).
Proof.
  intros Hall Hb. apply for_each_outcome_pure. intros d s Hd.
  rewrite Forall_forall in Hall. rewrite forallb_forall in Hb.
  apply add_edge_outcome; [by apply Hall|by apply Hb, list_elem_of_In].
Qed.

Lemma direct_dependencies_invalid package_name :
  cache_ok self → bounds_ok self package_name = false →
  ∃ s, (direct_dependencies self package_name).1 = Raise (InvalidVersion s).
Proof.
  intros Hok Hb. apply edges_invalid; [|done].
  by apply get_dependencies_attrib_ok.
Qed.

Lemma direct_dependencies_declared package_name depends n :
  (direct_dependencies self package_name).1 = Ok depends →
  n ∈ depends → declared self package_name n.
Proof.
  unfold direct_dependencies. intros Hrun.
  revert n. pattern depends.
  eapply for_each_invariant; [| |exact Hrun]; [set_solver|].
  intros d s s' Hd Hs Hadd%add_edge_bound n Hn.
  apply Hadd in Hn. apply elem_of_union in Hn as [->%elem_of_singleton|Hn].
  - by exists d.
  - by apply Hs.
Qed.

Lemma direct_dependencies_total package_name :
  (direct_dependencies self package_name).1 ≠ Diverge.
Proof.
  intros Hdiv. apply for_each_fails in Hdiv as (d & s & _ & Hd); [|done].
  by apply add_edge_total in Hd.
Qed.

End resolver.

(** *** The names a list of edges leaves in the working set *)

Lemma elem_of_edge_effect n depends d :
  n ∈ edge_effect depends d ↔
  if decide (text d = n) then edge_active d = true else n ∈ depends.
Proof.
  unfold edge_effect. destruct (edge_active d), (decide (text d = n)); set_solver.
Qed.

Lemma foldl_edge_effect_other n depends es :
  (∀ d, d ∈ es → text d ≠ n) →
  n ∈ foldl edge_effect depends es ↔ n ∈ depends.
Proof.
  revert depends. induction es as [|d es IH]; intros depends Hes; [done|].
  simpl. rewrite IH by (intros; apply Hes; by right).
  rewrite elem_of_edge_effect, decide_False; [done|]. apply Hes. by left.
Qed.

Lemma foldl_edge_effect_keeps n depends es :
  n ∈ depends →
  (∀ d, d ∈ es → text d = n → edge_active d = true) →
  n ∈ foldl edge_effect depends es.
Proof.
  revert depends. induction es as [|d es IH]; intros depends Hn Hes; [done|].
  simpl. apply IH; [|intros d' ? ?; apply Hes; [by right|done]].
  apply elem_of_edge_effect. case_decide; [|done]. apply Hes; [by left|done].
Qed.

Lemma active_names_last es1 d es2 :
  (∀ d', d' ∈ es2 → text d' ≠ text d) →
  text d ∈ active_names (es1 ++ d :: es2) ↔ edge_active d = true.
Proof.
  intros Hes2. unfold active_names. rewrite foldl_app. simpl.
  rewrite foldl_edge_effect_other by done.
  by rewrite elem_of_edge_effect, decide_True.
Qed.

Lemma active_names_retained es1 d es2 :
  edge_active d = true →
  (∀ d', d' ∈ es2 → text d' = text d → edge_active d' = true) →
  text d ∈ active_names (es1 ++ d :: es2).
Proof.
  intros Hd Hes2. unfold active_names. rewrite foldl_app. simpl.
  apply foldl_edge_effect_keeps; [|done].
  by rewrite elem_of_edge_effect, decide_True.
Qed.

(** *** The recursion *)

Section recursion.
Context `{Platform}.
Variable self : BuildFarm.

Lemma bind_ret_r {A} (m : M A) : bind m ret = m.
Proof. destruct m as [[a| |] l]; simpl; [by rewrite app_nil_r|done..]. Qed.

Lemma get_package_dependencies_nonrecursive fuel package_name ignore_depends :
  get_package_dependencies self (S fuel) package_name ignore_depends false =
  direct_dependencies self package_name.
Proof. simpl. apply bind_ret_r. Qed.

Lemma elem_of_set_order `{!PlatformOk} x (s : gset string) :
  x ∈ set_order s ↔ x ∈ s.
Proof. by rewrite (set_order_perm s), elem_of_elements. Qed.

Lemma set_order_empty `{!PlatformOk} : set_order ∅ = [].
Proof.
  apply Permutation_nil_r. by rewrite (set_order_perm ∅), elements_empty.
Qed.

Lemma set_order_singleton `{!PlatformOk} x : set_order {[x]} = [x].
Proof.
  apply Permutation_singleton_r.
  by rewrite (set_order_perm {[x]}), elements_singleton.
Qed.

Lemma get_package_dependencies_closure `{!PlatformOk}
    fuel package_name ignore_depends recursive result :
  (get_package_dependencies self fuel package_name ignore_depends recursive).1
    = Ok result →
  ∃ depends,
    (direct_dependencies self package_name).1 = Ok depends ∧
    depends ⊆ result ∧
    ∀ n, n ∈ result →
      n ∈ depends ∨
      (recursive = true ∧
       ∃ key, key ∈ depends ∧ (key ∉ ignore_depends) ∧ tc (resolves self) key n).
Proof.
  revert package_name ignore_depends recursive result.
  induction fuel as [|fuel IH]; intros package_name ign rec result; [done|].
  cbn [get_package_dependencies]. rewrite bind_outcome.
  destruct (direct_dependencies self package_name).1 as [depends| |] eqn:Hd;
    [|done..].
  destruct rec; [|intros [= <-]; exists depends; by auto].
  intros Hloop. exists depends. split; [done|].
  eapply (for_each_invariant (λ s, depends ⊆ s ∧ (∀ n, n ∈ s →
            n ∈ depends ∨
            (true = true ∧
             ∃ key, key ∈ depends ∧ (key ∉ ign) ∧ tc (resolves self) key n))));
    [by auto| |exact Hloop].
  intros key s s' Hkey%elem_of_set_order [Hsub Hs].
  destruct (decide (key ∈ ign)) as [|Hign]; [by intros [= <-]|].
  rewrite bind_outcome.
  destruct (get_package_dependencies self fuel key s true).1
    as [child| |] eqn:Hchild; [|done..].
  intros [= <-]. split; [set_solver|].
  intros n [Hn|Hn]%elem_of_union; [by apply Hs|].
  right. split; [done|]. exists key. split_and!; [done..|].
  apply IH in Hchild as (dk & Hdk & _ & Hclose).
  destruct (Hclose n Hn) as [Hndk|(_ & key' & Hkey' & _ & Htc)].
  - apply tc_once. by exists dk.
  - eapply tc_l; [|done]. by exists dk.
Qed.

Lemma get_package_dependencies_diverge `{!PlatformOk}
    fuel package_name ignore_depends recursive :
  (get_package_dependencies self fuel package_name ignore_depends recursive).1
    = Diverge →
  ∃ y, nsteps (declared self) fuel package_name y.
Proof.
  revert package_name ignore_depends recursive.
  induction fuel as [|fuel IH]; intros package_name ign rec.
  { intros _. exists package_name. constructor. }
  cbn [get_package_dependencies]. rewrite bind_outcome.
  destruct (direct_dependencies self package_name).1 as [depends| |] eqn:Hd;
    [|done|by apply direct_dependencies_total in Hd].
  destruct rec; [|done].
  intros (key & s & Hkey%elem_of_set_order & Hbody)%for_each_fails; [|done].
  destruct (decide (key ∈ ign)); [done|].
  rewrite bind_outcome in Hbody.
  destruct (get_package_dependencies self fuel key s true).1
    as [child| |] eqn:Hchild; [done..|].
  apply IH in Hchild as [y Hy]. exists y.
  eapply nsteps_l; [|done]. by eapply direct_dependencies_declared.
Qed.

(** On a well-formed snapshot the resolver raises nothing but
    [InvalidVersion]. *)
Lemma get_package_dependencies_raises
    fuel package_name ignore_depends recursive e :
  cache_ok self →
  (get_package_dependencies self fuel package_name ignore_depends recursive).1
    = Raise e →
  ∃ s, e = InvalidVersion s.
Proof.
  intros Hok. revert package_name ignore_depends recursive.
  induction fuel as [|fuel IH]; intros package_name ign rec; [done|].
  cbn [get_package_dependencies]. rewrite bind_outcome.
  destruct (bounds_ok self package_name) eqn:Hb.
  - rewrite direct_dependencies_outcome by done.
    destruct rec; [|done].
    intros (key & s & _ & Hbody)%for_each_fails; [|done].
    destruct (decide (key ∈ ign)); [done|].
    rewrite bind_outcome in Hbody.
    destruct (get_package_dependencies self fuel key s true).1
      as [child| |] eqn:Hchild; [done| |done].
    injection Hbody as ->. by apply IH in Hchild.
  - destruct (direct_dependencies_invalid self package_name Hok Hb) as [s ->].
    intros [= <-]. by eauto.
Qed.

Lemma get_package_dependencies_no_raise
    fuel package_name ignore_depends recursive e :
  cache_ok self → versions_ok self →
  (get_package_dependencies self fuel package_name ignore_depends recursive).1
    ≠ Raise e.
Proof.
  intros Hok Hv. revert package_name ignore_depends recursive.
  induction fuel as [|fuel IH]; intros package_name ign rec; [done|].
  cbn [get_package_dependencies].
  rewrite bind_outcome, direct_dependencies_outcome
    by (done || by apply versions_ok_bounds).
  destruct rec; [|done].
  intros (key & s & _ & Hbody)%for_each_fails; [|done].
  destruct (decide (key ∈ ign)); [done|].
  rewrite bind_outcome in Hbody.
  destruct (get_package_dependencies self fuel key s true).1
    as [child| |] eqn:Hchild; [done| |done].
  injection Hbody as ->. by apply IH in Hchild.
Qed.

(** A chain of declared edges in an acyclic snapshot passes through
    pairwise different packages that all have a release descriptor. *)
Lemma declared_chain_bound n x y :
  acyclic self → nsteps (declared self) n x y →
  (n ≤ size (release_package_xmls (dist_cache self)))%nat.
Proof.
  intros Hacyc Hsteps.
  cut (∃ l : list string, length l = n ∧ NoDup l ∧
         ∀ a, a ∈ l → a ∈ dom (release_package_xmls (dist_cache self)) ∧
                      rtc (declared self) x a).
  { intros (l & <- & Hnd & Hl). rewrite <-size_dom.
    rewrite <-(size_list_to_set (C:=gset string) l) by done.
    apply subseteq_size. intros a Ha%elem_of_list_to_set. by apply Hl. }
  induction Hsteps as [x|n x x1 y Hstep _ (l & Hlen & Hnd & Hl)].
  { exists []. split_and!; [done|constructor|]. by intros a ?%elem_of_nil. }
  exists (x :: l). split_and!.
  - simpl. by rewrite Hlen.
  - constructor; [|done]. intros [_ Hx]%Hl.
    apply (Hacyc x). by eapply tc_rtc_r; [apply tc_once|].
  - intros a [->|Ha]%elem_of_cons.
    + split; [|done]. destruct Hstep as (d & Hd & _).
      unfold get_dependencies, get_xml_data_by_tags in Hd.
      apply elem_of_dom.
      destruct (release_package_xmls (dist_cache self) !! x); [done|].
      by apply elem_of_nil in Hd.
    + destruct (Hl a Ha) as [? ?]. split; [done|]. by eapply rtc_l.
Qed.

End recursion.

(** ** Conditions and rankings *)

Lemma platform_ok : @PlatformOk Examples.platform.
Proof. intros s. reflexivity. Qed.

Lemma edge_active_condition_holds d :
  edge_active d = true ↔ condition_holds d.
Proof.
  unfold edge_active, condition_holds. rewrite forallb_forall. split.
  - intros Hall v Hv%list_elem_of_In. apply Hall in Hv.
    unfold condition_fails in Hv. cbn [fst snd] in Hv.
    destruct (bool_decide (last_token v = "3")) eqn:Hlast;
      [by apply bool_decide_eq_true in Hlast|].
    by rewrite (bool_decide_eq_true_2 ("condition" = "condition")) in Hv.
  - intros Hall [k v] Hkv%list_elem_of_In. unfold condition_fails.
    cbn [fst snd]. case_bool_decide as Hk; [|done]. subst k.
    by rewrite (bool_decide_eq_true_2 _ (Hall v Hkv)).
Qed.

Lemma edge_inactive_condition d v :
  ("condition", v) ∈ attrib d → last_token v ≠ "3" → edge_active d = false.
Proof.
  intros Hv Hne. apply not_true_is_false.
  intros Hd%edge_active_condition_holds. by apply Hne, Hd.
Qed.

Lemma declared_edge_list self a b :
  declared self a b → (a, b) ∈ edge_list self.
Proof.
  intros (d & Hd & <-). unfold edge_list.
  unfold get_dependencies, get_xml_data_by_tags in Hd.
  destruct (release_package_xmls (dist_cache self) !! a) as [root|] eqn:Ha;
    [|by apply elem_of_nil in Hd].
  apply list_elem_of_bind. exists (a, root). split.
  - apply list_elem_of_fmap. by exists d.
  - by apply elem_of_map_to_list.
Qed.

(** A ranking that decreases along every declared edge rules out
    cycles. *)
Lemma acyclic_ranked self (rank : string → nat) :
  Forall (λ e, rank e.2 < rank e.1) (edge_list self) → acyclic self.
Proof.
  intros Hall x Hcycle.
  assert (Hlt : ∀ a b, tc (declared self) a b → rank b < rank a).
  { intros a b Hab. induction Hab as [a b Hab|a b c Hab _ IH].
    - apply declared_edge_list in Hab. rewrite Forall_forall in Hall.
      by apply Hall in Hab.
    - apply declared_edge_list in Hab. rewrite Forall_forall in Hall.
      apply Hall in Hab. simpl in Hab. lia. }
  apply Hlt in Hcycle. lia.
Qed.

(** ** The classifier *)

(** C1, as amended.  [classify_packages] covers its input, and the
    build-from-source set is disjoint from the two others; the system
    and the runtime set share exactly the names of the input that are
    keys of both reference tables, so they are disjoint if and only if
    no name of the input is a key of both. *)
Theorem classify_packages_cover (self : BuildFarm) (packages : gset string) :
  let '(system, runtime, source) := classify_packages self packages in
  system ∪ runtime ∪ source = packages ∧
  system ## source ∧ runtime ## source ∧
  system = packages ∩ dom (dist_base self) ∧
  runtime = packages ∩ dom (dist_python self) ∧
  system ∩ runtime = packages ∩ dom (dist_base self) ∩ dom (dist_python self) ∧
  (system ## runtime ↔
   ∀ n, n ∈ packages → ¬ (n ∈ dom (dist_base self) ∧ n ∈ dom (dist_python self))).
Proof.
  unfold classify_packages. cbv zeta.
  split_and!; try set_solver.
  apply set_eq. intros n. rewrite !elem_of_union, !elem_of_difference.
  rewrite !elem_of_intersection.
  destruct (decide (n ∈ dom (dist_base self)));
    destruct (decide (n ∈ dom (dist_python self))); tauto.
Qed.

(** C1 as stated fails: with the name [a] a key of both tables, the
    system and the runtime set of [{a}] both hold [a]. *)
Lemma classify_packages_overlap :
  let '(system, runtime, source) :=
    classify_packages Examples.farm_overlap {["a"]} in
  ¬ (system ∪ runtime ∪ source = {["a"]} ∧
     system ## runtime ∧ system ## source ∧ runtime ## source).
Proof.
  assert (Hc : classify_packages Examples.farm_overlap {["a"]}
               = ({["a"]}, {["a"]}, ∅)) by (by vm_compute).
  rewrite Hc. intros (_ & Hdisj & _). set_solver.
Qed.

(** ** The resolver *)

Section resolver_claims.
Context `{Platform} `{!PlatformOk}.

(** C7.  A package whose release descriptor is absent from the
    distribution cache has version [None] and no dependency edge, no
    call raises, and the resolver answers the empty set for it. *)
Theorem absent_descriptor (self : BuildFarm) (package_name : string) :
  release_package_xmls (dist_cache self) !! package_name = None →
  get_package_version self package_name
    = (Ok None, [DebugVersionNotFound package_name]) ∧
  get_dependencies self package_name = [] ∧
  ∀ fuel ignore_depends recursive,
    get_package_dependencies self (S fuel) package_name ignore_depends recursive
    = (Ok ∅, []).
Proof.
  intros Habsent. split_and!.
  - unfold get_package_version.
    by rewrite get_xml_data_by_tags_absent.
  - by apply get_xml_data_by_tags_absent.
  - intros fuel ign rec. cbn [get_package_dependencies].
    unfold direct_dependencies, get_dependencies.
    rewrite get_xml_data_by_tags_absent by done.
    destruct rec; [|done]. cbn. by rewrite set_order_empty.
Qed.

Lemma nonrecursive_outcome self package_name ignore_depends :
  cache_ok self → bounds_ok self package_name = true →
  (get_package_dependencies self 1 package_name ignore_depends false).1
  = Ok (active_names (get_dependencies self package_name)).
Proof.
  intros Hok Hb. rewrite get_package_dependencies_nonrecursive.
  by apply direct_dependencies_outcome.
Qed.

(** An edge whose condition holds leaves its name in every answer of the
    resolver, unless a later edge of the same name has a failing
    condition. *)
Lemma active_edge_retained self package_name es1 d es2
    fuel ignore_depends recursive result :
  cache_ok self →
  get_dependencies self package_name = es1 ++ d :: es2 →
  condition_holds d →
  (∀ d', d' ∈ es2 → text d' = text d → condition_holds d') →
  (get_package_dependencies self fuel package_name ignore_depends recursive).1
    = Ok result →
  text d ∈ result.
Proof.
  intros Hok Hes Hd Hes2 Hrun.
  destruct (get_package_dependencies_closure self _ _ _ _ _ Hrun)
    as (depends & Hdir & Hsub & _).
  apply Hsub. apply direct_dependencies_Ok in Hdir as [_ ->]; [|done].
  rewrite Hes.
  apply active_names_retained; [by apply edge_active_condition_holds|].
  intros d' Hd' Heq. by apply edge_active_condition_holds, Hes2.
Qed.

(** C2, as amended.  For a package whose first loop returns, that is
    whose version bounds are versions: an edge whose [condition] value,
    split on single spaces, ends in a token other than ["3"] does not put
    its name in the set of direct dependencies when no later edge of the
    package has the same name, and the recursive answer holds the name
    only when it is reached through another direct dependency.  An edge
    whose condition holds keeps its name in the answer when no later edge
    of the same name has a failing condition. *)
Theorem condition_filtering (self : BuildFarm) (package_name : string)
    (es1 : list xml_elem) (d : xml_elem) (es2 : list xml_elem)
    (ignore_depends : gset string) :
  cache_ok self →
  bounds_ok self package_name = true →
  get_dependencies self package_name = es1 ++ d :: es2 →
  ∃ depends,
    (get_package_dependencies self 1 package_name ignore_depends false).1
      = Ok depends ∧
    (∀ v, ("condition", v) ∈ attrib d → last_token v ≠ "3" →
       (∀ d', d' ∈ es2 → text d' ≠ text d) →
       (text d ∉ depends) ∧
       ∀ fuel result,
         (get_package_dependencies self fuel package_name ignore_depends true).1
           = Ok result →
         text d ∈ result →
         ∃ key, key ∈ depends ∧ (key ∉ ignore_depends) ∧
                tc (resolves self) key (text d)) ∧
    (condition_holds d →
       (∀ d', d' ∈ es2 → text d' = text d → condition_holds d') →
       text d ∈ depends ∧
       ∀ fuel recursive result,
         (get_package_dependencies self fuel package_name ignore_depends
            recursive).1 = Ok result →
         text d ∈ result).
Proof.
  intros Hok Hb Hes.
  exists (active_names (get_dependencies self package_name)).
  split; [by apply nonrecursive_outcome|].
  split.
  - intros v Hv Hne Hes2.
    assert (Hnot : text d ∉ active_names (get_dependencies self package_name)).
    { rewrite Hes, active_names_last by done.
      by rewrite (edge_inactive_condition d v). }
    split; [done|]. intros fuel result Hrun Hin.
    destruct (get_package_dependencies_closure self _ _ _ _ _ Hrun)
      as (depends & Hdir & _ & Hcl).
    apply direct_dependencies_Ok in Hdir as [_ ->]; [|done].
    destruct (Hcl _ Hin) as [?|[_ ?]]; done.
  - intros Hd Hes2. split.
    + apply (active_edge_retained self package_name es1 d es2
               1 ignore_depends false); [done..|].
      by apply nonrecursive_outcome.
    + intros fuel rec result.
      by apply (active_edge_retained self package_name es1 d es2).
Qed.

Lemma removes_by_name self package_name es1 d1 es2 d2 es3 v :
  cache_ok self →
  get_dependencies self package_name = es1 ++ d1 :: es2 ++ d2 :: es3 →
  text d1 = text d2 →
  ("condition", v) ∈ attrib d2 → last_token v ≠ "3" →
  (∀ d', d' ∈ es3 → text d' ≠ text d2) →
  text d1 ∉ active_names (get_dependencies self package_name).
Proof.
  intros Hok Hes Hname Hv Hne Hes3. rewrite Hes, Hname.
  replace (es1 ++ d1 :: es2 ++ d2 :: es3)
    with ((es1 ++ d1 :: es2) ++ d2 :: es3) by by rewrite <-app_assoc.
  rewrite active_names_last by done.
  by rewrite (edge_inactive_condition d2 v).
Qed.

(** C9, as amended.  Filtering removes by name.  For a package whose
    first loop returns, with an edge whose condition holds followed by
    an edge of the same name whose condition ends in a token other than
    ["3"]: the first edge puts the name in the working set, and the name
    is still there when the loop reaches the second edge if the edges of
    that name in between have conditions that hold; the second edge takes
    the name out of whatever working set it is run on; when it is the
    last edge of that name, the name is not among the direct
    dependencies, and the recursive answer holds it only when it is
    reached through another direct dependency.  In the snapshot
    [farm_twice] the answer for [p] is empty although an edge of [p]
    without condition names [foo]. *)
Theorem condition_removes_by_name (self : BuildFarm) (package_name : string)
    (es1 : list xml_elem) (d1 : xml_elem) (es2 : list xml_elem)
    (d2 : xml_elem) (es3 : list xml_elem) (v : string)
    (ignore_depends : gset string) :
  cache_ok self →
  bounds_ok self package_name = true →
  get_dependencies self package_name = es1 ++ d1 :: es2 ++ d2 :: es3 →
  text d1 = text d2 →
  condition_holds d1 →
  ("condition", v) ∈ attrib d2 → last_token v ≠ "3" →
  (∀ d', d' ∈ es3 → text d' ≠ text d2) →
  (∃ working,
     (for_each (es1 ++ [d1]) (add_edge self package_name) ∅).1 = Ok working ∧
     text d1 ∈ working) ∧
  ((∀ d', d' ∈ es2 → text d' = text d1 → condition_holds d') →
   ∃ working,
     (for_each (es1 ++ d1 :: es2) (add_edge self package_name) ∅).1
       = Ok working ∧
     text d1 ∈ working) ∧
  (∀ working,
     (add_edge self package_name d2 working).1
     = Ok (working ∖ {[text d1]})) ∧
  (∃ depends,
     (get_package_dependencies self 1 package_name ignore_depends false).1
       = Ok depends ∧
     (text d1 ∉ depends) ∧
     ∀ fuel result,
       (get_package_dependencies self fuel package_name ignore_depends true).1
         = Ok result →
       text d1 ∈ result →
       ∃ key, key ∈ depends ∧ (key ∉ ignore_depends) ∧
              tc (resolves self) key (text d1)) ∧
  (Examples.dep "foo" [] ∈ get_dependencies Examples.farm_twice "p" ∧
   ∀ fuel,
     (get_package_dependencies Examples.farm_twice (S fuel) "p" ∅ true).1
     = Ok ∅).
Proof.
  intros Hok Hb Hes Hname Hd1 Hv Hne Hes3.
  pose proof (get_dependencies_attrib_ok self package_name Hok) as Hall.
  unfold bounds_ok in Hb. rewrite Hes in Hall, Hb.
  apply Forall_app in Hall as [Hall1 Hall2].
  apply Forall_cons in Hall2 as [Hall_d1 Hall2].
  apply Forall_app in Hall2 as [Hall2 Hall3].
  apply Forall_cons in Hall3 as [Hall_d2 Hall3].
  rewrite forallb_app in Hb. cbn [forallb] in Hb. rewrite forallb_app in Hb.
  cbn [forallb] in Hb.
  apply andb_true_iff in Hb as [Hb1 Hb].
  apply andb_true_iff in Hb as [Hb_d1 Hb].
  apply andb_true_iff in Hb as [Hb2 Hb].
  apply andb_true_iff in Hb as [Hb_d2 Hb3].
  assert (Hbound : bounds_ok self package_name = true).
  { unfold bounds_ok. rewrite Hes, forallb_app. cbn [forallb].
    rewrite forallb_app. cbn [forallb].
    by rewrite Hb1, Hb_d1, Hb2, Hb_d2, Hb3. }
  split; [|split; [|split; [|split]]].
  - eexists. split.
    + apply edges_outcome.
      * apply Forall_app. split; [done|]. by apply Forall_singleton.
      * rewrite forallb_app. cbn [forallb]. by rewrite Hb1, Hb_d1.
    + apply (active_names_retained es1 d1 []).
      * by apply edge_active_condition_holds.
      * by intros d' ?%elem_of_nil.
  - intros Hes2. eexists. split.
    + apply edges_outcome.
      * apply Forall_app. split; [done|]. by apply Forall_cons.
      * rewrite forallb_app. cbn [forallb]. by rewrite Hb1, Hb_d1, Hb2.
    + apply (active_names_retained es1 d1 es2).
      * by apply edge_active_condition_holds.
      * intros d' Hd' Heq. by apply edge_active_condition_holds, Hes2.
  - intros working. rewrite add_edge_outcome by done.
    unfold edge_effect. rewrite (edge_inactive_condition d2 v) by done.
    by rewrite Hname.
  - exists (active_names (get_dependencies self package_name)).
    split; [by apply nonrecursive_outcome|].
    assert (Hnot : text d1 ∉ active_names (get_dependencies self package_name))
      by by eapply removes_by_name.
    split; [done|]. intros fuel result Hrun Hin.
    destruct (get_package_dependencies_closure self _ _ _ _ _ Hrun)
      as (depends & Hdir & _ & Hcl).
    apply direct_dependencies_Ok in Hdir as [_ ->]; [|done].
    destruct (Hcl _ Hin) as [?|[_ ?]]; done.
  - split; [by left|]. intros fuel. cbn [get_package_dependencies].
    rewrite bind_outcome.
    assert (Hdir : (direct_dependencies Examples.farm_twice "p").1 = Ok ∅)
      by (by vm_compute).
    rewrite Hdir, set_order_empty. done.
Qed.

(** The two packages of [farm_cycle] on the stack of the resolver. *)
Lemma farm_cycle_diverges fuel :
  (get_package_dependencies Examples.farm_cycle fuel "a" {["a"]} true).1
    = Diverge ∧
  (get_package_dependencies Examples.farm_cycle fuel "b" {["b"]} true).1
    = Diverge.
Proof.
  assert (Ha : (direct_dependencies Examples.farm_cycle "a").1 = Ok {["b"]})
    by (by vm_compute).
  assert (Hb : (direct_dependencies Examples.farm_cycle "b").1 = Ok {["a"]})
    by (by vm_compute).
  induction fuel as [|fuel [IHa IHb]]; [done|].
  cbn [get_package_dependencies]. rewrite !bind_outcome, Ha, Hb.
  rewrite !set_order_singleton. cbn [for_each].
  rewrite !bind_outcome.
  rewrite (decide_False (P:="b" ∈ ({["a"]} : gset string))) by set_solver.
  rewrite (decide_False (P:="a" ∈ ({["b"]} : gset string))) by set_solver.
  by rewrite !bind_outcome, IHa, IHb.
Qed.

(** C3.  On an acyclic snapshot the recursive resolver terminates for
    every package and every exclusion set: a stack of one frame more
    than there are release descriptors is enough.  When the snapshot is
    well formed the call then returns a set or ends with the
    [InvalidVersion] of a bound that is no version, and it returns a set
    when the bounds of the snapshot are versions.  The recursion passes
    only the working set of the current frame as exclusion set, so on the
    snapshot [farm_cycle], where [a] needs [b] and [b] needs [a], no
    stack depth is enough; a package that needs itself is cut by the
    exclusion set. *)
Theorem resolver_termination :
  (∀ (self : BuildFarm) (package_name : string) (exclude : gset string),
     acyclic self →
     ∀ fuel, size (release_package_xmls (dist_cache self)) < fuel →
       (get_package_dependencies self fuel package_name exclude true).1
         ≠ Diverge ∧
       (cache_ok self →
        (∃ result,
           (get_package_dependencies self fuel package_name exclude true).1
             = Ok result) ∨
        (∃ s,
           (get_package_dependencies self fuel package_name exclude true).1
             = Raise (InvalidVersion s))) ∧
       (cache_ok self → versions_ok self →
        ∃ result,
          (get_package_dependencies self fuel package_name exclude true).1
            = Ok result)) ∧
  (∀ fuel,
     (get_package_dependencies Examples.farm_cycle fuel "a" ∅ true).1
       = Diverge) ∧
  (get_package_dependencies Examples.farm_loop 2 "a" ∅ true).1 = Ok {["a"]}.
Proof.
  split_and!.
  - intros self package_name exclude Hacyc fuel Hfuel.
    assert (Hterm : (get_package_dependencies self fuel package_name
                       exclude true).1 ≠ Diverge).
    { intros Hdiv.
      destruct (get_package_dependencies_diverge self _ _ _ _ Hdiv) as [y Hy].
      apply declared_chain_bound in Hy; [lia|done]. }
    split; [done|]. split.
    + intros Hok.
      destruct (get_package_dependencies self fuel package_name exclude true).1
        as [result|e|] eqn:Hrun; [left; by exists result| |done].
      apply get_package_dependencies_raises in Hrun as [s ->]; [|done].
      right. by exists s.
    + intros Hok Hv.
      destruct (get_package_dependencies self fuel package_name exclude true).1
        as [result|e|] eqn:Hrun; [by exists result| |done].
      by apply get_package_dependencies_no_raise in Hrun.
  - intros [|fuel]; [done|]. cbn [get_package_dependencies].
    assert (Ha : (direct_dependencies Examples.farm_cycle "a").1 = Ok {["b"]})
      by (by vm_compute).
    rewrite bind_outcome, Ha, set_order_singleton. cbn [for_each].
    rewrite bind_outcome.
    rewrite (decide_False (P:="b" ∈ (∅ : gset string))) by set_solver.
    rewrite bind_outcome.
    by destruct (farm_cycle_diverges fuel) as [_ ->].
  - cbn [get_package_dependencies].
    assert (Ha : (direct_dependencies Examples.farm_loop "a").1 = Ok {["a"]})
      by (by vm_compute).
    rewrite bind_outcome, Ha, set_order_singleton. cbn [for_each].
    rewrite bind_outcome.
    rewrite (decide_False (P:="a" ∈ (∅ : gset string))) by set_solver.
    rewrite !bind_outcome, Ha, set_order_singleton. cbn [for_each].
    rewrite bind_outcome.
    rewrite (decide_True (P:="a" ∈ ({["a"]} : gset string))) by set_solver.
    cbn; f_equal; set_solver.
Qed.

End resolver_claims.

(** ** Version bounds *)





(** ** The Makefile *)

Lemma target_ids_app l1 l2 :
  target_ids (l1 ++ l2) = target_ids l1 ++ target_ids l2.
Proof. apply omap_app. Qed.

Lemma elem_of_target_ids t items :
  Target t ∈ items → target t ∈ target_ids items.
Proof. intros Ht. apply list_elem_of_omap. by exists (Target t). Qed.

Lemma first_target_cons_eq t items :
  first_target (target t) (Target t :: items) = Some t.
Proof. unfold first_target. cbn. by rewrite decide_True. Qed.

Lemma first_target_cons_ne id t items :
  target t ≠ id →
  first_target id (Target t :: items) = first_target id items.
Proof. intros Hne. unfold first_target. cbn. by rewrite decide_False. Qed.

Lemma first_target_cons_line id s items :
  first_target id (Line s :: items) = first_target id items.
Proof. done. Qed.

Lemma write_item_new t (wrote_targets : gset string) file :
  target t ∉ wrote_targets →
  write_item (Target t) (wrote_targets, file) =
  ret ({[target t]} ∪ wrote_targets, file ++ [Target t]).
Proof. intros Hnew. unfold write_item. by rewrite decide_False. Qed.

(** The writing loop, started with [file] already written and
    [wrote_targets] holding the identifiers of [file]. *)
Lemma write_loop items wrote_targets file :
  wrote_targets = list_to_set (target_ids file) →
  NoDup (target_ids file) →
  ∃ out dropped,
    for_each items write_item (wrote_targets, file) =
      (Ok (list_to_set (target_ids (file ++ out)), file ++ out),
       DebugSkipDuplicated <$> dropped) ∧
    NoDup (target_ids (file ++ out)) ∧
    sublist out items ∧
    target_ids items ≡ₚ target_ids out ++ dropped ∧
    (∀ id, id ∈ dropped → id ∈ target_ids (file ++ out)) ∧
    (∀ t, Target t ∈ out → first_target (target t) items = Some t).
Proof.
  revert wrote_targets file.
  induction items as [|[s|t] items IH]; intros wrote file -> Hnd.
  - exists [], []. rewrite app_nil_r. split_and!; try done.
    + intros id Hid. by apply elem_of_nil in Hid.
    + intros t Ht. by apply elem_of_nil in Ht.
  - destruct (IH (list_to_set (target_ids (file ++ [Line s])))
                (file ++ [Line s])) as (out & dropped & Hrun & Hnd' & Hsub
                                        & Hperm & Hdrop & Hfirst).
    { done. } { by rewrite target_ids_app, app_nil_r. }
    exists (Line s :: out), dropped.
    rewrite <-app_assoc in Hrun, Hnd', Hdrop. cbn [app] in Hrun, Hnd', Hdrop.
    split_and!; try done.
    + cbn [for_each write_item]. rewrite bind_ret_l, <-Hrun.
      by rewrite target_ids_app, app_nil_r.
    + by constructor.
    + intros t [?|Ht]%elem_of_cons; [done|].
      rewrite first_target_cons_line. by apply Hfirst.
  - destruct (decide (target t ∈ target_ids file)) as [Hin|Hnin].
    + destruct (IH (list_to_set (target_ids file)) file)
        as (out & dropped & Hrun & Hnd' & Hsub & Hperm & Hdrop & Hfirst);
        [done..|].
      exists out, (target t :: dropped). split_and!; try done.
      * cbn [for_each write_item].
        rewrite decide_True by by apply elem_of_list_to_set.
        cbn. by rewrite Hrun.
      * by constructor.
      * cbn. by rewrite Hperm, Permutation_middle.
      * intros id [->|Hid]%elem_of_cons; [|by apply Hdrop].
        rewrite target_ids_app. apply elem_of_app. by left.
      * intros t' Ht'. rewrite first_target_cons_ne; [by apply Hfirst|].
        intros Heq. rewrite target_ids_app in Hnd'.
        apply NoDup_app in Hnd' as (_ & Hdisj & _).
        apply (Hdisj (target t) Hin). rewrite Heq.
        by apply elem_of_target_ids.
    + destruct (IH (list_to_set (target_ids (file ++ [Target t])))
                  (file ++ [Target t]))
        as (out & dropped & Hrun & Hnd' & Hsub & Hperm & Hdrop & Hfirst).
      { done. }
      { rewrite target_ids_app. apply NoDup_app. split_and!; [done| |].
        - intros id Hid [->|[]%elem_of_nil]%elem_of_cons. done.
        - apply NoDup_singleton. }
      exists (Target t :: out), dropped.
      rewrite <-app_assoc in Hrun, Hnd', Hdrop. cbn [app] in Hrun, Hnd', Hdrop.
      split_and!; try done.
      * cbn [for_each write_item].
        rewrite decide_False by by rewrite elem_of_list_to_set.
        rewrite bind_ret_l, <-Hrun. f_equal. f_equal.
        rewrite target_ids_app. cbn. set_solver.
      * by constructor.
      * cbn. by rewrite Hperm.
      * intros t' [Heq|Ht']%elem_of_cons.
        { injection Heq as ->. apply first_target_cons_eq. }
        rewrite first_target_cons_ne; [by apply Hfirst|].
        intros Heq. rewrite target_ids_app in Hnd'.
        apply NoDup_app in Hnd' as (_ & _ & Hnd').
        cbn in Hnd'. apply NoDup_cons in Hnd' as [Hnot _].
        apply Hnot. rewrite Heq. by apply elem_of_target_ids.
Qed.

Lemma write_targets_spec items :
  ∃ out dropped,
    write_targets items = (Ok out, DebugSkipDuplicated <$> dropped) ∧
    NoDup (target_ids out) ∧
    sublist out items ∧
    target_ids items ≡ₚ target_ids out ++ dropped ∧
    (∀ id, id ∈ dropped → id ∈ target_ids out) ∧
    (∀ t, Target t ∈ out → first_target (target t) items = Some t).
Proof.
  destruct (write_loop items ∅ []) as (out & dropped & Hrun & Hrest);
    [done|constructor|].
  exists out, dropped. split; [|done].
  unfold write_targets. rewrite Hrun. cbn. by rewrite app_nil_r.
Qed.

Section makefile_claims.
Context `{Platform}.
Variable self : BuildFarm.

Lemma fixed_targets_head main_targets build_dep :
  ∃ rest,
    fixed_targets self main_targets build_dep =
    Line "# main target" :: Target (all_target main_targets build_dep) :: rest.
Proof. unfold fixed_targets. eexists. reflexivity. Qed.

Lemma accumulate_targets_head main_targets build_dep makefile_targets log1 :
  accumulate_targets self main_targets build_dep = (Ok makefile_targets, log1) →
  ∃ rest,
    makefile_targets =
    Line "# main target" :: Target (all_target main_targets build_dep) :: rest.
Proof.
  unfold accumulate_targets. intros (bts & l1 & l2 & _ & Hret & _)%bind_Ok.
  injection Hret as <- _. unfold fixed_targets. eexists. reflexivity.
Qed.

(** C4.  Every target identifier is written at most once.  Of the
    accumulated targets that carry one identifier, the first is written
    as it stands, each later one is dropped with one [skip duplicated
    target] record, and nothing else is left out or reordered. *)
Theorem written_targets_unique (main_targets build_dep : gset string)
    (makefile_targets : list makefile_item) (log1 : list diag) :
  accumulate_targets self main_targets build_dep = (Ok makefile_targets, log1) →
  ∃ out dropped,
    gen_makefile self main_targets build_dep =
      (Ok out, log1 ++ (DebugSkipDuplicated <$> dropped)) ∧
    NoDup (target_ids out) ∧
    sublist out makefile_targets ∧
    target_ids makefile_targets ≡ₚ target_ids out ++ dropped ∧
    (∀ id, id ∈ dropped → id ∈ target_ids out) ∧
    (∀ t, Target t ∈ out →
       first_target (target t) makefile_targets = Some t).
Proof.
  intros Hacc.
  destruct (write_targets_spec makefile_targets)
    as (out & dropped & Hrun & Hrest).
  exists out, dropped. split; [|done].
  unfold gen_makefile. rewrite Hacc. cbn. by rewrite Hrun.
Qed.

(** C5.  The aggregate target [all] is the first target of the plan; its
    prerequisites are the supplied root targets, and its only command
    reports the size of the build-from-source set plus eight.  Whenever
    the plan is written, [all] is written first and no other written
    target carries its identifier. *)
Theorem aggregate_target `{!PlatformOk} (main_targets build_dep : gset string) :
  fixed_targets self main_targets build_dep !! 1
    = Some (Target (all_target main_targets build_dep)) ∧
  (∀ r, r ∈ depends (all_target main_targets build_dep) ↔ r ∈ main_targets) ∧
  commands (all_target main_targets build_dep)
    = ["@echo built packages : `ls -1 /tmp/deb/* | wc -l` / " +:+
       pretty (size build_dep + 8)] ∧
  ∀ makefile_targets log1,
    accumulate_targets self main_targets build_dep
      = (Ok makefile_targets, log1) →
    ∃ out log,
      gen_makefile self main_targets build_dep =
        (Ok (Line "# main target" ::
             Target (all_target main_targets build_dep) :: out), log) ∧
      ∀ t, Target t ∈ out → target t ≠ "all".
Proof.
  split_and!; [done|intros r; apply elem_of_set_order|done|].
  intros makefile_targets log1 Hacc.
  destruct (accumulate_targets_head _ _ _ _ Hacc) as [rest ->].
  destruct (write_loop rest ({["all"]} ∪ ∅)
              (([] ++ [Line "# main target"]) ++
               [Target (all_target main_targets build_dep)]))
    as (out & dropped & Hrun & Hnd & _).
  { cbn. set_solver. } { cbn. apply NoDup_singleton. }
  assert (Hout :
    (gen_makefile self main_targets build_dep).1 =
    Ok (Line "# main target" ::
        Target (all_target main_targets build_dep) :: out)).
  { unfold gen_makefile. rewrite bind_outcome, Hacc. cbn [fst].
    unfold write_targets. rewrite bind_outcome.
    cbn [for_each]. cbn [write_item]. rewrite bind_ret_l.
    rewrite write_item_new by set_solver.
    rewrite bind_ret_l.
    change (target (all_target main_targets build_dep)) with "all".
    by rewrite Hrun. }
  destruct (gen_makefile self main_targets build_dep) as [r lg].
  cbn [fst] in Hout. subst r. exists out, lg. split; [done|].
  intros t Ht Hall. cbn in Hnd. apply NoDup_cons in Hnd as [Hnot _].
  apply Hnot. rewrite <-Hall. by apply elem_of_target_ids.
Qed.

End makefile_claims.

(** ** Repositories of the source set *)

Section repositories.
Context `{Platform}.
Variable self : BuildFarm.

Lemma find_repository_outcome package_name items :
  (∃ k v, (k, v) ∈ items ∧ package_name ∈ release_packages k v ∧
          (find_repository package_name items).1 = Ok (Some k, Some v)) ∨
  ((∀ k v, (k, v) ∈ items → package_name ∉ release_packages k v) ∧
   find_repository package_name items = (Ok (None, None), [])).
Proof.
  induction items as [|[k v] items IH].
  - right. split; [|done]. intros k v Hkv. by apply elem_of_nil in Hkv.
  - cbn [find_repository].
    destruct (decide (package_name ∈ release_packages k v)) as [Hin|Hnin].
    + left. exists k, v. split_and!; [by left|done..].
    + destruct IH as [(k' & v' & Hkv & Hin & Hrun)|[Hnone Hrun]].
      * left. exists k', v'. split_and!; [by right|done..].
      * right. split; [|done].
        intros k' v' [[= -> ->]|Hkv]%elem_of_cons; [done|by apply Hnone].
Qed.

Lemma get_repository_unlisted package_name :
  (get_repository self package_name).1 = Ok (None, None) ↔
  ¬ listed self package_name.
Proof.
  unfold get_repository, listed.
  destruct (find_repository_outcome package_name
              (repositories (dist_cache self)))
    as [(k & v & Hkv & Hin & Hrun)|[Hnone Hrun]]; rewrite Hrun.
  - split; [done|]. intros []. by exists k, v.
  - split; [|done]. intros _ (k & v & Hkv & Hin). by eapply Hnone.
Qed.

Lemma get_repository_listed package_name :
  listed self package_name →
  ∃ k v, (get_repository self package_name).1 = Ok (Some k, Some v).
Proof.
  intros Hl. unfold get_repository.
  destruct (find_repository_outcome package_name
              (repositories (dist_cache self)))
    as [(k & v & _ & _ & Hrun)|[Hnone Hrun]]; [by exists k, v|].
  destruct Hl as (k & v & Hkv & Hin). by destruct (Hnone k v).
Qed.

Lemma check_attribute_raises package_name d kv depends e :
  (check_attribute self package_name d kv depends).1 = Raise e →
  (∃ key, e = KeyError key) ∨ (∃ s, e = InvalidVersion s).
Proof.
  destruct (condition_fails kv) eqn:Hkv.
  - destruct kv as [k v]. unfold condition_fails in Hkv. cbn [fst snd] in Hkv.
    unfold check_attribute. rewrite Hkv. unfold set_remove, ret, raise.
    destruct (decide (text d ∈ depends)); [done|].
    intros [= <-]. left. by eexists.
  - destruct (check_attribute_outcome self package_name d kv depends Hkv)
      as [[-> _]|[[s ->] _]]; [done|].
    intros [= <-]. right. by eexists.
Qed.

Lemma direct_dependencies_raises package_name e :
  (direct_dependencies self package_name).1 = Raise e →
  (∃ key, e = KeyError key) ∨ (∃ s, e = InvalidVersion s).
Proof.
  intros (d & s & _ & Hd)%for_each_fails; [|done].
  apply for_each_fails in Hd as (kv & s' & _ & Hkv); [|done].
  by eapply check_attribute_raises.
Qed.

Lemma build_package_unlisted build_dep target build_targets :
  ¬ listed self target →
  (∀ out, (build_package self build_dep target build_targets).1 ≠ Ok out) ∧
  (build_package self build_dep target build_targets).1 ≠ Diverge ∧
  (cache_ok self →
   ∃ e, (build_package self build_dep target build_targets).1 = Raise e ∧
        (bounds_ok self target = true →
         e = TypeError "'NoneType' object is not subscriptable") ∧
        (bounds_ok self target = false → ∃ s, e = InvalidVersion s)).
Proof.
  intros Hunl%get_repository_unlisted.
  unfold build_package.
  rewrite bind_outcome, get_package_dependencies_nonrecursive.
  split_and!.
  - intros out.
    destruct (direct_dependencies self target).1; [|done..].
    by rewrite bind_outcome, Hunl.
  - destruct (direct_dependencies self target).1 eqn:Hd;
      [|done|by apply direct_dependencies_total in Hd].
    by rewrite bind_outcome, Hunl.
  - intros Hok. destruct (bounds_ok self target) eqn:Hb.
    + rewrite direct_dependencies_outcome by done.
      rewrite bind_outcome, Hunl. eexists. by split_and!.
    + destruct (direct_dependencies_invalid self target Hok Hb) as [s ->].
      eexists. split_and!; [done..|]. by eauto.
Qed.

Lemma build_package_listed build_dep target build_targets w :
  listed self target →
  (build_package self build_dep target build_targets).1 ≠ Raise (TypeError w).
Proof.
  intros (k & v & Hrepo)%get_repository_listed.
  unfold build_package.
  rewrite bind_outcome, get_package_dependencies_nonrecursive.
  destruct (direct_dependencies self target).1 as [deps|e|] eqn:Hd; [| |done].
  - rewrite bind_outcome, Hrepo.
    destruct (source v) as [src|]; [|done].
    by destruct (decide (k = "rosconsole")).
  - by apply direct_dependencies_raises in Hd as [[key ->]|[s ->]].
Qed.

Lemma build_package_total build_dep target build_targets :
  (build_package self build_dep target build_targets).1 ≠ Diverge.
Proof.
  unfold build_package.
  rewrite bind_outcome, get_package_dependencies_nonrecursive.
  destruct (direct_dependencies self target).1 eqn:Hd;
    [|done|by apply direct_dependencies_total in Hd].
  rewrite bind_outcome. unfold get_repository.
  destruct (find_repository_outcome target (repositories (dist_cache self)))
    as [(k & v & _ & _ & ->)|[_ ->]]; [|done].
  destruct (source v) as [src|]; [|done].
  by destruct (decide (k = "rosconsole")).
Qed.

Lemma write_targets_outcome items :
  ∃ out, (write_targets items).1 = Ok out.
Proof.
  destruct (write_targets_spec items) as (out & dropped & -> & _).
  by exists out.
Qed.

(** C10.  [get_repository] answers [(None, None)] exactly for a package
    that no repository of the manifest lists; [gen_makefile] subscripts
    the repository without a guard, so the body of its loop raises for
    such a package, a [TypeError] once the bounds on the edges of the
    package have parsed and [InvalidVersion] when one of them does not,
    and no Makefile is written when the build-from-source set holds one.
    When every package of the set is listed, [gen_makefile] raises no
    [TypeError]. *)
Theorem gen_makefile_requires_repository `{!PlatformOk}
    (main_targets build_dep : gset string) :
  (∀ package_name,
     (get_repository self package_name).1 = Ok (None, None) ↔
     ¬ listed self package_name) ∧
  (∀ target build_targets,
     ¬ listed self target → cache_ok self →
     ∃ e, (build_package self build_dep target build_targets).1 = Raise e ∧
          (bounds_ok self target = true →
           e = TypeError "'NoneType' object is not subscriptable") ∧
          (bounds_ok self target = false → ∃ s, e = InvalidVersion s)) ∧
  ((∃ target, target ∈ build_dep ∧ ¬ listed self target) →
   ∃ e, (gen_makefile self main_targets build_dep).1 = Raise e) ∧
  ((∀ target, target ∈ build_dep → listed self target) →
   ∀ w, (gen_makefile self main_targets build_dep).1 ≠ Raise (TypeError w)).
Proof.
  split_and!.
  - apply get_repository_unlisted.
  - intros target bts Hunl Hok. by apply build_package_unlisted.
  - intros (target & Hin & Hunl).
    unfold gen_makefile, accumulate_targets. rewrite !bind_outcome.
    destruct (for_each (set_order build_dep) (build_package self build_dep) []).1
      as [bts|e|] eqn:Hloop.
    + eapply (for_each_Ok_each _ _ _ _ target) in Hloop
        as (s1 & s2 & Hbody); [|by apply elem_of_set_order].
      by apply (build_package_unlisted build_dep target s1) in Hbody.
    + by exists e.
    + apply for_each_fails in Hloop as (x & s & _ & Hbody); [|done].
      by apply build_package_total in Hbody.
  - intros Hall w.
    unfold gen_makefile, accumulate_targets. rewrite !bind_outcome.
    destruct (for_each (set_order build_dep) (build_package self build_dep) []).1
      as [bts|e|] eqn:Hloop; [| |done].
    + cbn [ret fst].
      by destruct (write_targets_outcome
                     (fixed_targets self main_targets build_dep ++
                      concat (map makefile_targets_of bts) ++
                      [Target
                         {| target := "clean"; depends := [];
                            commands :=
                              ["rm -rf /tmp/deb /tmp/built_packages " +:+
                               build_dir self +:+
                               " /usr/local/bin/ros_release_python /etc/ros/rosdep/sources.list.d/20-default.list"];
                            comment := ""; phony := true; alias := None |}]))
        as [out ->].
    + apply for_each_fails in Hloop as (x & s & Hx%elem_of_set_order & Hbody);
        [|done].
      intros [= ->]. by apply build_package_listed in Hbody; [|apply Hall].
Qed.

End repositories.

(** ** The name mapper *)

Section name_mapper.
Context `{Platform}.
Variable self : BuildFarm.

Lemma map_M_lookup_ubuntu (table : rosdep_table) (l : list string) :
  (∀ n, n ∈ l → n ∈ dom table) →
  map_M (lookup_ubuntu table) l = ret (os_entry table <$> l).
Proof.
  induction l as [|n l IH]; intros Hl; [done|].
  cbn [map_M fmap list_fmap]. unfold lookup_ubuntu at 1, os_entry at 1.
  destruct (table !! n) as [entry|] eqn:Hn.
  - rewrite bind_ret_l, IH by (intros; apply Hl; by right). done.
  - assert (n ∈ dom table) as Hdom by (apply Hl; by left).
    apply elem_of_dom in Hdom as [? ?]. congruence.
Qed.

Lemma add_package_names_spec (p : option os_value) (pkgs : gset string) :
  entry_ok (ubuntu_distribution self) p →
  add_package_names self p pkgs =
  (Ok (pkgs ∪ contribution (ubuntu_distribution self) p),
   entry_diagnostics (ubuntu_distribution self) p).
Proof.
  unfold add_package_names, contribution, entry_diagnostics, entry_ok.
  destruct p as [[l|m|]|]; intros Hok; cbn;
    rewrite ?(right_id_L ∅ (∪)); try done.
  destruct (m !! ubuntu_distribution self) as [[|l|keys]|]; try done.
  destruct (m !! "*") as [[|l|keys]|]; cbn;
    rewrite ?(right_id_L ∅ (∪)); done.
Qed.

Lemma add_package_names_loop (infos : list (option os_value))
    (pkgs : gset string) :
  Forall (entry_ok (ubuntu_distribution self)) infos →
  for_each infos (add_package_names self) pkgs =
  (Ok (pkgs ∪ ⋃ (contribution (ubuntu_distribution self) <$> infos)),
   infos ≫= entry_diagnostics (ubuntu_distribution self)).
Proof.
  revert pkgs. induction infos as [|p infos IH]; intros pkgs Hok.
  - cbn. by rewrite (right_id_L ∅ (∪)).
  - apply Forall_cons in Hok as [Hp Hok]. cbn [for_each].
    rewrite add_package_names_spec by done. cbn [bind].
    rewrite IH by done. cbn. by rewrite (assoc_L (∪)).
Qed.

(** C8.  For a mapping of OS-distribution keys [get_package_names] adds
    the list under the exact target distribution when that key is
    present and, when it is absent, the list under the wildcard ["*"]; a
    wildcard holding [None] adds nothing; a flat list is added as it
    stands; a mapping with neither key adds nothing and logs one
    warning.  For classified names the answer is the union of these
    contributions. *)
Theorem get_package_names_mapping `{!PlatformOk} (base_dep python_dep : gset string) :
  (∀ l pkgs,
     add_package_names self (Some (PkgList l)) pkgs
     = (Ok (pkgs ∪ list_to_set l), [])) ∧
  (∀ m l pkgs,
     m !! ubuntu_distribution self = Some (ListValue l) →
     add_package_names self (Some (PerDist m)) pkgs
     = (Ok (pkgs ∪ list_to_set l), [])) ∧
  (∀ m l pkgs,
     m !! ubuntu_distribution self = None → m !! "*" = Some (ListValue l) →
     add_package_names self (Some (PerDist m)) pkgs
     = (Ok (pkgs ∪ list_to_set l), [])) ∧
  (∀ m pkgs,
     m !! ubuntu_distribution self = None → m !! "*" = Some NoneValue →
     add_package_names self (Some (PerDist m)) pkgs = (Ok pkgs, [])) ∧
  (∀ m pkgs,
     m !! ubuntu_distribution self = None → m !! "*" = None →
     add_package_names self (Some (PerDist m)) pkgs
     = (Ok pkgs, [WarnNamesNotFound (ubuntu_distribution self)])) ∧
  (base_dep ⊆ dom (dist_base self) →
   python_dep ⊆ dom (dist_python self) →
   Forall (entry_ok (ubuntu_distribution self))
     ((os_entry (dist_base self) <$> set_order base_dep) ++
      (os_entry (dist_python self) <$> set_order python_dep)) →
   ∃ pkgs,
     get_package_names self base_dep python_dep =
     (Ok pkgs,
      ((os_entry (dist_base self) <$> set_order base_dep) ++
       (os_entry (dist_python self) <$> set_order python_dep))
      ≫= entry_diagnostics (ubuntu_distribution self)) ∧
     ∀ x, x ∈ pkgs ↔
       (∃ n, n ∈ base_dep ∧
             x ∈ contribution (ubuntu_distribution self)
                   (os_entry (dist_base self) n)) ∨
       (∃ n, n ∈ python_dep ∧
             x ∈ contribution (ubuntu_distribution self)
                   (os_entry (dist_python self) n))).
Proof.
  split_and!.
  - done.
  - intros m l pkgs Hm. unfold add_package_names. by rewrite Hm.
  - intros m l pkgs Hm Hw. unfold add_package_names. by rewrite Hm, Hw.
  - intros m pkgs Hm Hw. unfold add_package_names. by rewrite Hm, Hw.
  - intros m pkgs Hm Hw. unfold add_package_names. by rewrite Hm, Hw.
  - intros Hbase Hpython Hok. eexists. split.
    + unfold get_package_names.
      rewrite map_M_lookup_ubuntu
        by (intros n Hn%elem_of_set_order; by apply Hbase).
      rewrite bind_ret_l.
      rewrite map_M_lookup_ubuntu
        by (intros n Hn%elem_of_set_order; by apply Hpython).
      rewrite bind_ret_l. by apply add_package_names_loop.
    + intros x. rewrite elem_of_union, fmap_app, union_list_app.
      rewrite elem_of_union, !elem_of_union_list.
      split.
      * intros [[]%elem_of_empty|[(X & HX & Hx)|(X & HX & Hx)]].
        -- apply list_elem_of_fmap in HX as (p & -> & Hp).
           apply list_elem_of_fmap in Hp as (n & -> & Hn%elem_of_set_order).
           left. by exists n.
        -- apply list_elem_of_fmap in HX as (p & -> & Hp).
           apply list_elem_of_fmap in Hp as (n & -> & Hn%elem_of_set_order).
           right. by exists n.
      * intros [(n & Hn & Hx)|(n & Hn & Hx)]; right; [left|right];
          (eexists; split; [|exact Hx]);
          apply list_elem_of_fmap; eexists; (split; [done|]);
          apply list_elem_of_fmap; exists n;
          (split; [done|by apply elem_of_set_order]).
Qed.

End name_mapper.

(** ** The claims on concrete snapshots *)

Example split_spaces : split " " "a b  c " = ["a"; "b"; ""; "c"; ""].
Proof. reflexivity. Qed.

Example last_token_python3 : last_token "$ROS_PYTHON_VERSION == 3" = "3".
Proof. reflexivity. Qed.

Example last_token_trailing_space : last_token "$ROS_PYTHON_VERSION == 3 " = "".
Proof. reflexivity. Qed.

Example replace_underscore : replace "_" "-" "catkin_pkg" = "catkin-pkg".
Proof. reflexivity. Qed.

Lemma farm_chain_ok : cache_ok Examples.farm_chain.
Proof. apply (bool_decide_unpack _). by vm_compute. Qed.

Lemma farm_twice_ok : cache_ok Examples.farm_twice.
Proof. apply (bool_decide_unpack _). by vm_compute. Qed.

Lemma farm_shared_ok : cache_ok Examples.farm_shared.
Proof. apply (bool_decide_unpack _). by vm_compute. Qed.

Lemma farm_chain_versions : @versions_ok Examples.platform Examples.farm_chain.
Proof. apply (bool_decide_unpack _). by vm_compute. Qed.

Lemma farm_shared_versions : @versions_ok Examples.platform Examples.farm_shared.
Proof. apply (bool_decide_unpack _). by vm_compute. Qed.


Lemma farm_chain_acyclic : acyclic Examples.farm_chain.
Proof.
  apply (acyclic_ranked _ Examples.chain_rank).
  apply (bool_decide_unpack _). by vm_compute.
Qed.

(** The checkout target of the repository that [x] and [y] share is
    written once, and the second one is reported. *)
Example shared_repository_written_once :
  ∃ out,
    @gen_makefile Examples.platform Examples.farm_shared {["x"]} {["x"; "y"]}
    = (Ok out,
       [DebugRepositoryFound "y" "r"; DebugRepositoryFound "x" "r";
        DebugSkipDuplicated "/root/noetic_build/src/r/.git"]) ∧
    target_ids out =
    ["all"; "env_targets"; "/tmp/deb/.touch"; "/tmp/built_packages/.touch";
     "/root/noetic_build/src/.touch"; "python_tools";
     "/etc/ros/rosdep/sources.list.d"; "/root/.ros/rosdep/sources.cache";
     "/root/noetic_build/src/ros_release_python/.git";
     "/usr/local/bin/ros_release_python";
     "/root/noetic_build/src/catkin_pkg/.git"; "/tmp/built_packages/catkin-pkg";
     "/root/noetic_build/src/rospkg/.git"; "/tmp/built_packages/rospkg";
     "/root/noetic_build/src/rosdistro/.git"; "/tmp/built_packages/rosdistro";
     "/root/noetic_build/src/rosdep/.git"; "/tmp/built_packages/rosdep";
     "/root/noetic_build/src/r/.git"; "/tmp/built_packages/y";
     "/tmp/built_packages/x"; "clean"].
Proof. eexists. split; by vm_compute. Qed.

(** C2 as stated fails on [farm_chain]: the edge from [p] to [foo] has
    a condition that ends in ["2"], and [foo] is in the answer for [p],
    reached through [bar]. *)
Lemma inactive_edge_reached_through_sibling :
  let d := Examples.dep "foo" [("condition", "$ROS_PYTHON_VERSION == 2")] in
  d ∈ get_dependencies Examples.farm_chain "p" ∧
  ("condition", "$ROS_PYTHON_VERSION == 2") ∈ attrib d ∧
  last_token "$ROS_PYTHON_VERSION == 2" ≠ "3" ∧
  (@get_package_dependencies Examples.platform Examples.farm_chain 3 "p" ∅ true).1
    = Ok {["bar"; "foo"]} ∧
  text d ∈ ({["bar"; "foo"]} : gset string).
Proof.
  split_and!.
  - right. left.
  - left.
  - by vm_compute.
  - by vm_compute.
  - set_solver.
Qed.

Lemma condition_filtering_witness :
  cache_ok Examples.farm_chain ∧
  @bounds_ok Examples.platform Examples.farm_chain "p" = true ∧
  get_dependencies Examples.farm_chain "p"
    = [Examples.dep "bar" []] ++
      Examples.dep "foo" [("condition", "$ROS_PYTHON_VERSION == 2")] :: [] ∧
  ∃ depends,
    (@get_package_dependencies Examples.platform Examples.farm_chain 1 "p" ∅
       false).1 = Ok depends ∧
    (∀ v, ("condition", v)
            ∈ attrib (Examples.dep "foo"
                        [("condition", "$ROS_PYTHON_VERSION == 2")]) →
       last_token v ≠ "3" →
       (∀ d', d' ∈ [] → text d' ≠ "foo") →
       ("foo" ∉ depends) ∧
       ∀ fuel result,
         (@get_package_dependencies Examples.platform Examples.farm_chain
            fuel "p" ∅ true).1 = Ok result →
         "foo" ∈ result →
         ∃ key, key ∈ depends ∧ (key ∉ (∅ : gset string)) ∧
                tc (@resolves Examples.platform Examples.farm_chain) key "foo") ∧
    (condition_holds (Examples.dep "foo"
                        [("condition", "$ROS_PYTHON_VERSION == 2")]) →
       (∀ d', d' ∈ [] → text d' = "foo" → condition_holds d') →
       "foo" ∈ depends ∧
       ∀ fuel recursive result,
         (@get_package_dependencies Examples.platform Examples.farm_chain
            fuel "p" ∅ recursive).1 = Ok result →
         "foo" ∈ result).
Proof.
  assert (Hb : @bounds_ok Examples.platform Examples.farm_chain "p" = true)
    by (by vm_compute).
  split; [exact farm_chain_ok|]. split; [exact Hb|]. split; [reflexivity|].
  apply (@condition_filtering Examples.platform platform_ok
           Examples.farm_chain "p" [Examples.dep "bar" []]
           (Examples.dep "foo" [("condition", "$ROS_PYTHON_VERSION == 2")])
           [] ∅ farm_chain_ok Hb).
  reflexivity.
Defined.

(** C9 as stated fails on [farm_sibling]: [p] has an edge to [foo]
    without condition and a later edge to [foo] whose condition ends in
    ["2"], and [foo] is in the answer for [p], reached through [bar]. *)
Lemma removed_name_reached_through_sibling :
  let d1 := Examples.dep "foo" [] in
  let d2 := Examples.dep "foo" [("condition", "$ROS_PYTHON_VERSION == 2")] in
  get_dependencies Examples.farm_sibling "p"
    = [d1; Examples.dep "bar" []; d2] ∧
  text d1 = text d2 ∧
  last_token "$ROS_PYTHON_VERSION == 2" ≠ "3" ∧
  (@get_package_dependencies Examples.platform Examples.farm_sibling 3 "p" ∅
     true).1 = Ok {["bar"; "foo"]} ∧
  text d1 ∈ ({["bar"; "foo"]} : gset string).
Proof.
  split_and!.
  - reflexivity.
  - reflexivity.
  - by vm_compute.
  - by vm_compute.
  - set_solver.
Qed.

Lemma condition_removes_by_name_witness :
  cache_ok Examples.farm_twice ∧
  @bounds_ok Examples.platform Examples.farm_twice "p" = true ∧
  (∃ working,
     (for_each ([] ++ [Examples.dep "foo" []])
        (@add_edge Examples.platform Examples.farm_twice "p") ∅).1
       = Ok working ∧
     "foo" ∈ working) ∧
  ((∀ d', d' ∈ [] → text d' = "foo" → condition_holds d') →
   ∃ working,
     (for_each ([] ++ Examples.dep "foo" [] :: [])
        (@add_edge Examples.platform Examples.farm_twice "p") ∅).1
       = Ok working ∧
     "foo" ∈ working) ∧
  (∀ working,
     (@add_edge Examples.platform Examples.farm_twice "p"
        (Examples.dep "foo" [("condition", "$ROS_PYTHON_VERSION == 2")])
        working).1
     = Ok (working ∖ {["foo"]})) ∧
  (∃ depends,
     (@get_package_dependencies Examples.platform Examples.farm_twice 1 "p" ∅
        false).1 = Ok depends ∧
     ("foo" ∉ depends) ∧
     ∀ fuel result,
       (@get_package_dependencies Examples.platform Examples.farm_twice
          fuel "p" ∅ true).1 = Ok result →
       "foo" ∈ result →
       ∃ key, key ∈ depends ∧ (key ∉ (∅ : gset string)) ∧
              tc (@resolves Examples.platform Examples.farm_twice) key "foo") ∧
  (Examples.dep "foo" [] ∈ get_dependencies Examples.farm_twice "p" ∧
   ∀ fuel,
     (@get_package_dependencies Examples.platform Examples.farm_twice
        (S fuel) "p" ∅ true).1 = Ok ∅).
Proof.
  assert (Hb : @bounds_ok Examples.platform Examples.farm_twice "p" = true)
    by (by vm_compute).
  split; [exact farm_twice_ok|]. split; [exact Hb|].
  apply (@condition_removes_by_name Examples.platform platform_ok
           Examples.farm_twice "p" [] (Examples.dep "foo" []) []
           (Examples.dep "foo" [("condition", "$ROS_PYTHON_VERSION == 2")])
           [] "$ROS_PYTHON_VERSION == 2" ∅ farm_twice_ok Hb).
  - reflexivity.
  - reflexivity.
  - intros v Hv. by apply elem_of_nil in Hv.
  - left.
  - by vm_compute.
  - intros d' Hd'. by apply elem_of_nil in Hd'.
Defined.

Lemma absent_descriptor_witness :
  release_package_xmls (dist_cache Examples.farm_chain) !! "libfoo" = None ∧
  get_package_version Examples.farm_chain "libfoo"
    = (Ok None, [DebugVersionNotFound "libfoo"]) ∧
  get_dependencies Examples.farm_chain "libfoo" = [] ∧
  ∀ fuel ignore_depends recursive,
    @get_package_dependencies Examples.platform Examples.farm_chain (S fuel)
      "libfoo" ignore_depends recursive = (Ok ∅, []).
Proof.
  split; [by vm_compute|].
  apply (@absent_descriptor Examples.platform platform_ok
           Examples.farm_chain "libfoo").
  by vm_compute.
Defined.

Lemma resolver_termination_witness :
  acyclic Examples.farm_chain ∧
  (3 < 4)%nat ∧
  cache_ok Examples.farm_chain ∧
  @versions_ok Examples.platform Examples.farm_chain ∧
  ∃ result,
    (@get_package_dependencies Examples.platform Examples.farm_chain 4 "p" ∅
       true).1 = Ok result.
Proof.
  split; [exact farm_chain_acyclic|]. split; [lia|].
  split; [exact farm_chain_ok|]. split; [exact farm_chain_versions|].
  assert (Hfuel : (size (release_package_xmls
                           (dist_cache Examples.farm_chain)) < 4)%nat)
    by (vm_compute; lia).
  destruct (proj1 (@resolver_termination Examples.platform platform_ok)
              Examples.farm_chain "p" ∅ farm_chain_acyclic 4 Hfuel)
    as (_ & _ & Hreturns).
  exact (Hreturns farm_chain_ok farm_chain_versions).
Defined.

Lemma written_targets_unique_witness :
  ∃ makefile_targets log1,
    @accumulate_targets Examples.platform Examples.farm_shared
      {["x"]} {["x"; "y"]} = (Ok makefile_targets, log1) ∧
    ∃ out dropped,
      @gen_makefile Examples.platform Examples.farm_shared {["x"]} {["x"; "y"]}
        = (Ok out, log1 ++ (DebugSkipDuplicated <$> dropped)) ∧
      NoDup (target_ids out) ∧
      sublist out makefile_targets ∧
      target_ids makefile_targets ≡ₚ target_ids out ++ dropped ∧
      (∀ id, id ∈ dropped → id ∈ target_ids out) ∧
      (∀ t, Target t ∈ out →
         first_target (target t) makefile_targets = Some t).
Proof.
  assert (∃ makefile_targets log1,
            @accumulate_targets Examples.platform Examples.farm_shared
              {["x"]} {["x"; "y"]} = (Ok makefile_targets, log1))
    as (makefile_targets & log1 & Hacc) by (vm_compute; eauto).
  exists makefile_targets, log1. split; [exact Hacc|].
  exact (@written_targets_unique Examples.platform Examples.farm_shared
           {["x"]} {["x"; "y"]} makefile_targets log1 Hacc).
Defined.

Lemma aggregate_target_witness :
  ∃ makefile_targets log1,
    @accumulate_targets Examples.platform Examples.farm_shared
      {["x"]} {["x"; "y"]} = (Ok makefile_targets, log1) ∧
    commands (@all_target Examples.platform {["x"]} {["x"; "y"]})
      = ["@echo built packages : `ls -1 /tmp/deb/* | wc -l` / 10"] ∧
    ∃ out log,
      @gen_makefile Examples.platform Examples.farm_shared {["x"]} {["x"; "y"]}
        = (Ok (Line "# main target" ::
               Target (@all_target Examples.platform {["x"]} {["x"; "y"]}) ::
               out), log) ∧
      ∀ t, Target t ∈ out → target t ≠ "all".
Proof.
  assert (∃ makefile_targets log1,
            @accumulate_targets Examples.platform Examples.farm_shared
              {["x"]} {["x"; "y"]} = (Ok makefile_targets, log1))
    as (makefile_targets & log1 & Hacc) by (vm_compute; eauto).
  exists makefile_targets, log1. split; [exact Hacc|].
  split; [by vm_compute|].
  exact (proj2 (proj2 (proj2
           (@aggregate_target Examples.platform Examples.farm_shared
              platform_ok {["x"]} {["x"; "y"]}))) makefile_targets log1 Hacc).
Defined.



Lemma get_package_names_mapping_witness :
  ∃ pkgs,
    @get_package_names Examples.platform Examples.farm_overlap
      {["a"; "e"]} {["b"; "c"; "d"]}
    = (Ok pkgs, [WarnNamesNotFound "jammy"]) ∧
    ∀ x, x ∈ pkgs ↔
      (∃ n, n ∈ ({["a"; "e"]} : gset string) ∧
            x ∈ contribution "jammy"
                  (os_entry (dist_base Examples.farm_overlap) n)) ∨
      (∃ n, n ∈ ({["b"; "c"; "d"]} : gset string) ∧
            x ∈ contribution "jammy"
                  (os_entry (dist_python Examples.farm_overlap) n)).
Proof.
  assert (Hbase : ({["a"; "e"]} : gset string)
                  ⊆ dom (dist_base Examples.farm_overlap))
    by (apply (bool_decide_unpack _); by vm_compute).
  assert (Hpython : ({["b"; "c"; "d"]} : gset string)
                    ⊆ dom (dist_python Examples.farm_overlap))
    by (apply (bool_decide_unpack _); by vm_compute).
  assert (Hok : Forall (entry_ok (ubuntu_distribution Examples.farm_overlap))
            ((os_entry (dist_base Examples.farm_overlap)
                <$> @set_order Examples.platform {["a"; "e"]}) ++
             (os_entry (dist_python Examples.farm_overlap)
                <$> @set_order Examples.platform {["b"; "c"; "d"]})))
    by (apply (bool_decide_unpack _); by vm_compute).
  exact (proj2 (proj2 (proj2 (proj2 (proj2
           (@get_package_names_mapping Examples.platform
              Examples.farm_overlap platform_ok
              {["a"; "e"]} {["b"; "c"; "d"]})))))
           Hbase Hpython Hok).
Defined.

Lemma gen_makefile_requires_repository_witness :
  (∃ target, target ∈ ({["x"; "z"]} : gset string) ∧
             ¬ listed Examples.farm_shared target) ∧
  (∃ e, (@gen_makefile Examples.platform Examples.farm_shared
           {["x"]} {["x"; "z"]}).1 = Raise e) ∧
  (∀ target, target ∈ ({["x"; "y"]} : gset string) →
             listed Examples.farm_shared target) ∧
  ∀ w, (@gen_makefile Examples.platform Examples.farm_shared
          {["x"]} {["x"; "y"]}).1 ≠ Raise (TypeError w).
Proof.
  assert (Hz : ∃ target, target ∈ ({["x"; "z"]} : gset string) ∧
                         ¬ listed Examples.farm_shared target).
  { exists "z". split; [set_solver|].
    apply (get_repository_unlisted Examples.farm_shared). by vm_compute. }
  assert (Hxy : ∀ target, target ∈ ({["x"; "y"]} : gset string) →
                          listed Examples.farm_shared target).
  { intros target Ht. exists "r", (Repository
      (Some {| packages := Some ["x"; "y"] |})
      (Some {| url := "https://example.org/r.git"; version := "main" |})).
    split; [by left|]. cbn. set_solver. }
  split; [exact Hz|]. split.
  - exact (proj1 (proj2 (proj2
      (@gen_makefile_requires_repository Examples.platform
         Examples.farm_shared platform_ok {["x"]} {["x"; "z"]}))) Hz).
  - split; [exact Hxy|].
    exact (proj2 (proj2 (proj2
      (@gen_makefile_requires_repository Examples.platform
         Examples.farm_shared platform_ok {["x"]} {["x"; "y"]}))) Hxy).
Defined.

(** * Further properties of the code *)

(** ** The answer of the resolver *)

Lemma for_each_invariant_rest {A S} (P : list A → S → Prop) (l : list A)
    (body : A → S → M S) s :
  P l s →
  (∀ x rest s s', P (x :: rest) s → (body x s).1 = Ok s' → P rest s') →
  ∀ s', (for_each l body s).1 = Ok s' → P [] s'.
Proof.
  revert s. induction l as [|x l IH]; intros s Hs Hbody s'; simpl.
  - by intros [= <-].
  - rewrite bind_outcome. destruct (body x s).1 as [s1| |] eqn:Hx; [|done..].
    apply IH; [by eapply Hbody|done].
Qed.

Section resolver_answer.
Context `{Platform} `{!PlatformOk}.
Variable self : BuildFarm.

(** The answer holds the direct dependencies of the package and, for
    each of its names outside the exclusion set, the direct dependencies
    of that name. *)
Lemma get_package_dependencies_closed
    fuel package_name ignore_depends result :
  (get_package_dependencies self fuel package_name ignore_depends true).1
    = Ok result →
  (∀ m, resolves self package_name m → m ∈ result) ∧
  (∀ n, n ∈ result →
     n ∈ ignore_depends ∨ ∀ m, resolves self n m → m ∈ result).
Proof.
  revert package_name ignore_depends result.
  induction fuel as [|fuel IH]; intros package_name ign result; [done|].
  cbn [get_package_dependencies]. rewrite bind_outcome.
  destruct (direct_dependencies self package_name).1 as [depends| |] eqn:Hd;
    [|done..].
  intros Hloop.
  cut (depends ⊆ result ∧
       ∀ n, n ∈ result →
         n ∈ ign ∨ (∀ m, resolves self n m → m ∈ result) ∨
         n ∈ ([] : list string)).
  { intros [Hsub Hcl]. split.
    - intros m (depends' & Hd' & Hm). rewrite Hd in Hd'.
      injection Hd' as <-. by apply Hsub.
    - intros n Hn. destruct (Hcl n Hn) as [?|[?|[]%elem_of_nil]]; auto. }
  revert Hloop.
  apply (for_each_invariant_rest
           (λ rest s, depends ⊆ s ∧
              ∀ n, n ∈ s →
                n ∈ ign ∨ (∀ m, resolves self n m → m ∈ s) ∨ n ∈ rest)).
  { split; [done|]. intros n Hn. right. right. by apply elem_of_set_order. }
  intros key rest s s' [Hsub Hinv].
  destruct (decide (key ∈ ign)) as [Hign|Hign].
  { intros [= <-]. split; [done|]. intros n Hn.
    destruct (Hinv n Hn) as [?|[?|[->|?]%elem_of_cons]]; auto. }
  rewrite bind_outcome.
  destruct (get_package_dependencies self fuel key s true).1
    as [child| |] eqn:Hchild; [|done..].
  intros [= <-]. apply IH in Hchild as [Hkey Hchild].
  split; [set_solver|].
  assert (Hold : ∀ n, n ∈ s →
            n ∈ ign ∨ (∀ m, resolves self n m → m ∈ s ∪ child) ∨ n ∈ rest).
  { intros n Hn. destruct (Hinv n Hn) as [?|[Hcl|[->|?]%elem_of_cons]]; auto.
    - right. left. intros m Hm. apply elem_of_union. left. by apply Hcl.
    - right. left. intros m Hm. apply elem_of_union. right. by apply Hkey. }
  intros n [Hn|Hn]%elem_of_union; [by apply Hold|].
  destruct (Hchild n Hn) as [Hn'|Hcl]; [by apply Hold|].
  right. left. intros m Hm. apply elem_of_union. right. by apply Hcl.
Qed.

(** Every name of an answer outside the exclusion set has been expanded:
    its first loop has returned. *)
Lemma get_package_dependencies_expanded
    fuel package_name ignore_depends result :
  (get_package_dependencies self fuel package_name ignore_depends true).1
    = Ok result →
  (∃ depends, (direct_dependencies self package_name).1 = Ok depends) ∧
  (∀ n, n ∈ result →
     n ∈ ignore_depends ∨
     ∃ depends, (direct_dependencies self n).1 = Ok depends).
Proof.
  revert package_name ignore_depends result.
  induction fuel as [|fuel IH]; intros package_name ign result; [done|].
  cbn [get_package_dependencies]. rewrite bind_outcome.
  destruct (direct_dependencies self package_name).1 as [depends| |] eqn:Hd;
    [|done..].
  intros Hloop. split; [by eauto|].
  cut (∀ n, n ∈ result →
         n ∈ ign ∨ (∃ depends, (direct_dependencies self n).1 = Ok depends) ∨
         n ∈ ([] : list string)).
  { intros Hcl n Hn. destruct (Hcl n Hn) as [?|[?|[]%elem_of_nil]]; auto. }
  revert Hloop.
  apply (for_each_invariant_rest
           (λ rest s, ∀ n, n ∈ s →
              n ∈ ign ∨
              (∃ depends, (direct_dependencies self n).1 = Ok depends) ∨
              n ∈ rest)).
  { intros n Hn. right. right. by apply elem_of_set_order. }
  intros key rest s s' Hinv.
  destruct (decide (key ∈ ign)) as [Hign|Hign].
  { intros [= <-] n Hn.
    destruct (Hinv n Hn) as [?|[?|[->|?]%elem_of_cons]]; auto. }
  rewrite bind_outcome.
  destruct (get_package_dependencies self fuel key s true).1
    as [child| |] eqn:Hchild; [|done..].
  intros [= <-]. apply IH in Hchild as [Hkey Hchild].
  assert (Hold : ∀ n, n ∈ s →
            n ∈ ign ∨
            (∃ depends, (direct_dependencies self n).1 = Ok depends) ∨
            n ∈ rest).
  { intros n Hn. destruct (Hinv n Hn) as [?|[?|[->|?]%elem_of_cons]]; auto. }
  intros n [Hn|Hn]%elem_of_union; [by apply Hold|].
  destruct (Hchild n Hn) as [Hn'|Hex]; [by apply Hold|auto].
Qed.

Lemma get_package_dependencies_reach fuel package_name result :
  (get_package_dependencies self fuel package_name ∅ true).1 = Ok result →
  ∀ n, n ∈ result ↔ tc (resolves self) package_name n.
Proof.
  intros Hrun n. split.
  - intros Hn.
    destruct (get_package_dependencies_closure self _ _ _ _ _ Hrun)
      as (depends & Hd & _ & Hcl).
    destruct (Hcl n Hn) as [Hin|(_ & key & Hkey & _ & Htc)].
    + apply tc_once. by exists depends.
    + eapply tc_l; [|done]. by exists depends.
  - destruct (get_package_dependencies_closed _ _ _ _ Hrun) as [Hfirst Hcl].
    assert (Hstep : ∀ a b, a ∈ result → resolves self a b → b ∈ result).
    { intros a b Ha Hab. destruct (Hcl a Ha) as [[]%elem_of_empty|Hcl'].
      by apply Hcl'. }
    assert (Hpath : ∀ a b, tc (resolves self) a b → a ∈ result → b ∈ result).
    { intros a b Hab. induction Hab as [a b Hab|a b c Hab _ IH]; intros Ha.
      - by eapply Hstep.
      - apply IH. by eapply Hstep. }
    intros Htc. inversion Htc as [a b Hab|a b c Hab Hbc]; subst.
    + by apply Hfirst.
    + eapply Hpath; [done|]. by apply Hfirst.
Qed.

(** X1.  With an empty exclusion set, an answer of the recursive
    resolver is exactly the set of names that are reached from the
    package along the edges the first loop keeps. *)
Theorem resolver_answer_is_closure fuel package_name result :
  (get_package_dependencies self fuel package_name ∅ true).1 = Ok result →
  ∀ n, n ∈ result ↔ tc (resolves self) package_name n.
Proof. apply get_package_dependencies_reach. Qed.


End resolver_answer.

Lemma for_each_Ok_agree {A S} (l : list A) (body1 body2 : A → S → M S)
    s r1 r2 :
  (∀ x s s1 s2, x ∈ l →
     (body1 x s).1 = Ok s1 → (body2 x s).1 = Ok s2 → s1 = s2) →
  (for_each l body1 s).1 = Ok r1 → (for_each l body2 s).1 = Ok r2 → r1 = r2.
Proof.
  revert s. induction l as [|x l IH]; intros s Hb; cbn [for_each].
  - by intros [= <-] [= <-].
  - rewrite !bind_outcome.
    destruct (body1 x s).1 as [s1| |] eqn:H1; [|done..].
    destruct (body2 x s).1 as [s2| |] eqn:H2; [|done..].
    assert (s1 = s2) as -> by (eapply Hb; [by left|done..]).
    apply IH. intros y t t1 t2 Hy. apply Hb. by right.
Qed.

(** The set a step of the attribute loop returns does not depend on the
    platform. *)
Lemma check_attribute_Ok_platform (P1 P2 : Platform) self package_name d kv
    depends s1 s2 :
  (@check_attribute P1 self package_name d kv depends).1 = Ok s1 →
  (@check_attribute P2 self package_name d kv depends).1 = Ok s2 →
  s1 = s2.
Proof.
  destruct (condition_fails kv) eqn:Hkv.
  - destruct kv as [k v]. unfold condition_fails in Hkv.
    cbn [fst snd] in Hkv. unfold check_attribute. rewrite Hkv. congruence.
  - intros [_ H1]%check_attribute_Ok [_ H2]%check_attribute_Ok.
    by rewrite H1, H2.
Qed.

Lemma direct_dependencies_Ok_platform (P1 P2 : Platform) self package_name
    d1 d2 :
  (@direct_dependencies P1 self package_name).1 = Ok d1 →
  (@direct_dependencies P2 self package_name).1 = Ok d2 →
  d1 = d2.
Proof.
  unfold direct_dependencies. apply for_each_Ok_agree.
  intros d s s1 s2 _. unfold add_edge. apply for_each_Ok_agree.
  intros kv t t1 t2 _. apply check_attribute_Ok_platform.
Qed.

Lemma resolver_answer_subset (P1 P2 : Platform)
    (HP1 : @PlatformOk P1) (HP2 : @PlatformOk P2) (self : BuildFarm)
    (fuel1 fuel2 : nat) (package_name : string) (result1 result2 : gset string) :
  (@get_package_dependencies P1 self fuel1 package_name ∅ true).1
    = Ok result1 →
  (@get_package_dependencies P2 self fuel2 package_name ∅ true).1
    = Ok result2 →
  result1 ⊆ result2.
Proof.
  intros Hrun1 Hrun2 n Hn.
  apply (@get_package_dependencies_reach P1 HP1 self _ _ _ Hrun1) in Hn.
  destruct (@get_package_dependencies_closed P2 HP2 self _ _ _ _ Hrun2)
    as [Hfirst Hcl].
  destruct (@get_package_dependencies_expanded P2 HP2 self _ _ _ _ Hrun2)
    as [Hp Hexp].
  assert (Hstep : ∀ a b, a = package_name ∨ a ∈ result2 →
            @resolves P1 self a b → b ∈ result2).
  { intros a b Ha (d1 & Hd1 & Hb).
    assert (∃ d2, (@direct_dependencies P2 self a).1 = Ok d2) as [d2 Hd2].
    { destruct Ha as [->|Ha]; [done|].
      by destruct (Hexp a Ha) as [[]%elem_of_empty|?]. }
    assert (d1 = d2) as ->
      by exact (direct_dependencies_Ok_platform P1 P2 self a d1 d2 Hd1 Hd2).
    destruct Ha as [->|Ha].
    - apply Hfirst. by exists d2.
    - destruct (Hcl a Ha) as [[]%elem_of_empty|Hcl']. apply Hcl'.
      by exists d2. }
  assert (Hpath : ∀ a b, tc (@resolves P1 self) a b →
            a = package_name ∨ a ∈ result2 → b ∈ result2).
  { intros a b Hab. induction Hab as [a b Hab|a b c Hab _ IH]; intros Ha.
    - by eapply Hstep.
    - apply IH. right. by eapply Hstep. }
  eapply Hpath; [done|by left].
Qed.

(** X2.  The answer for an empty exclusion set depends neither on the
    order in which sets are iterated, nor on what [version.parse] and
    the comparison of versions answer, nor on the stack depth: any two
    runs that return give the same set. *)
Theorem resolver_answer_unique (P1 P2 : Platform)
    (HP1 : @PlatformOk P1) (HP2 : @PlatformOk P2) (self : BuildFarm)
    (fuel1 fuel2 : nat) (package_name : string) (result1 result2 : gset string) :
  (@get_package_dependencies P1 self fuel1 package_name ∅ true).1
    = Ok result1 →
  (@get_package_dependencies P2 self fuel2 package_name ∅ true).1
    = Ok result2 →
  result1 = result2.
Proof.
  intros Hrun1 Hrun2. apply (anti_symm (⊆)).
  - by eapply (resolver_answer_subset P1 P2).
  - by eapply (resolver_answer_subset P2 P1).
Qed.

(** ** Attributes of an edge *)

(** X4.  An attribute whose key is none of [condition], [version_gte]
    and [version_gt] leaves the working set as it is and logs one
    warning and one debug record; a condition that ends in ["3"] is
    accepted without any record. *)
Theorem unknown_attribute_warns `{Platform} (self : BuildFarm)
    (package_name : string) (d : xml_elem) (k v : string)
    (depends : gset string) :
  (k ∉ ["condition"; "version_gte"; "version_gt"] →
   check_attribute self package_name d (k, v) depends
   = (Ok depends,
      [WarnUnknownAttribute k v (text d); DebugEdge (text d) (attrib d)])) ∧
  (k = "condition" → last_token v = "3" →
   check_attribute self package_name d (k, v) depends = (Ok depends, [])).
Proof.
  split.
  - intros Hk. unfold check_attribute.
    rewrite (bool_decide_eq_false_2 (k = "condition")) by set_solver.
    rewrite (bool_decide_eq_false_2 (k = "version_gte")) by set_solver.
    rewrite (bool_decide_eq_false_2 (k = "version_gt")) by set_solver.
    done.
  - intros -> Hv. unfold check_attribute.
    rewrite (bool_decide_eq_true_2 (last_token v = "3")) by done.
    done.
Qed.

(** ** Lookup of a repository *)

(** X5.  [get_repository] answers the first repository, in the order of
    the manifest, whose package list names the package; repositories
    after it are not looked at, and one debug record is logged. *)
Theorem get_repository_first_match (self : BuildFarm) (package_name : string)
    (before : list (string * repository)) (k : string) (v : repository)
    (after : list (string * repository)) :
  repositories (dist_cache self) = before ++ (k, v) :: after →
  package_name ∈ release_packages k v →
  (∀ k' v', (k', v') ∈ before → package_name ∉ release_packages k' v') →
  get_repository self package_name
  = (Ok (Some k, Some v), [DebugRepositoryFound package_name k]).
Proof.
  unfold get_repository. intros -> Hin.
  induction before as [|[k' v'] before IH]; intros Hbefore.
  - cbn [app find_repository]. by rewrite decide_True.
  - cbn [app find_repository]. rewrite decide_False.
    + apply IH. intros k'' v'' Hkv. apply Hbefore. by right.
    + apply Hbefore. by left.
Qed.

(** ** Errors of the name mapper *)

Lemma map_M_lookup_ubuntu_missing (table : rosdep_table) (l : list string) :
  (∃ n, n ∈ l ∧ n ∉ dom table) →
  ∃ n, n ∈ l ∧ (n ∉ dom table) ∧
       map_M (lookup_ubuntu table) l = (Raise (KeyError n), []).
Proof.
  induction l as [|x l IH]; intros (n & Hn & Hmiss);
    [by apply elem_of_nil in Hn|].
  cbn [map_M]. unfold lookup_ubuntu at 1.
  destruct (table !! x) as [entry|] eqn:Hx.
  - destruct IH as (n' & Hn' & Hmiss' & Hrun).
    { exists n. split; [|done].
      apply elem_of_cons in Hn as [->|Hn]; [|done].
      destruct Hmiss. apply elem_of_dom. by eexists. }
    exists n'. split_and!; [by right|done|].
    rewrite bind_ret_l, Hrun. done.
  - exists x. split_and!; [by left| |done].
    by apply not_elem_of_dom.
Qed.

Lemma add_package_names_invalid `{Platform} (self : BuildFarm)
    (p : option os_value) (pkgs : gset string) :
  ¬ entry_ok (ubuntu_distribution self) p →
  add_package_names self p pkgs
  = (Raise (TypeError "'NoneType' object is not iterable"), []).
Proof.
  unfold entry_ok, add_package_names.
  destruct p as [[l|m|]|]; try by intros [].
  intros Hm. destruct (m !! ubuntu_distribution self) as [[| |]|]; try done.
  all: by destruct Hm.
Qed.

Lemma add_package_names_loop_invalid `{Platform} (self : BuildFarm)
    (infos : list (option os_value)) (pkgs : gset string) :
  ¬ Forall (entry_ok (ubuntu_distribution self)) infos →
  (for_each infos (add_package_names self) pkgs).1
  = Raise (TypeError "'NoneType' object is not iterable").
Proof.
  revert pkgs. induction infos as [|p infos IH]; intros pkgs Hbad.
  - destruct Hbad. constructor.
  - cbn [for_each]. rewrite bind_outcome.
    destruct (decide (entry_ok (ubuntu_distribution self) p)) as [Hp|Hp].
    + rewrite add_package_names_spec by done. cbn [fst].
      apply IH. intros Hrest. apply Hbad. by constructor.
    + by rewrite add_package_names_invalid.
Qed.

Section name_mapper_errors.
Context `{Platform} `{!PlatformOk}.
Variable self : BuildFarm.

(** X6.  A name that is not a key of its reference table makes
    [get_package_names] raise a [KeyError] for such a name before any
    package is collected or any warning logged; the names of the system
    set are looked up first. *)
Theorem get_package_names_unknown_name (base_dep python_dep : gset string) :
  ((∃ n, n ∈ base_dep ∧ n ∉ dom (dist_base self)) →
   ∃ n, n ∈ base_dep ∧ (n ∉ dom (dist_base self)) ∧
        get_package_names self base_dep python_dep
        = (Raise (KeyError n), [])) ∧
  (base_dep ⊆ dom (dist_base self) →
   (∃ n, n ∈ python_dep ∧ n ∉ dom (dist_python self)) →
   ∃ n, n ∈ python_dep ∧ (n ∉ dom (dist_python self)) ∧
        get_package_names self base_dep python_dep
        = (Raise (KeyError n), [])).
Proof.
  split.
  - intros (n & Hn & Hmiss).
    destruct (map_M_lookup_ubuntu_missing (dist_base self) (set_order base_dep))
      as (n' & Hn' & Hmiss' & Hrun).
    { exists n. split; [by apply elem_of_set_order|done]. }
    exists n'. split_and!; [by apply elem_of_set_order in Hn'|done|].
    unfold get_package_names. by rewrite Hrun.
  - intros Hbase (n & Hn & Hmiss).
    destruct (map_M_lookup_ubuntu_missing (dist_python self)
                (set_order python_dep)) as (n' & Hn' & Hmiss' & Hrun).
    { exists n. split; [by apply elem_of_set_order|done]. }
    exists n'. split_and!; [by apply elem_of_set_order in Hn'|done|].
    unfold get_package_names.
    rewrite map_M_lookup_ubuntu
      by (intros x Hx%elem_of_set_order; by apply Hbase).
    rewrite bind_ret_l, Hrun. done.
Qed.

(** X7.  The names [classify_packages] puts in the system and in the
    runtime set are keys of their tables, so [get_package_names] raises
    no [KeyError] on them: it returns the union of the contributions,
    unless an entry holds [None] under the exact target distribution, in
    which case [pkgs.update] raises a [TypeError]. *)
Theorem classified_names_are_mapped (packages : gset string) :
  let '(system, runtime, _) := classify_packages self packages in
  let infos :=
    (os_entry (dist_base self) <$> set_order system) ++
    (os_entry (dist_python self) <$> set_order runtime) in
  (Forall (entry_ok (ubuntu_distribution self)) infos →
   get_package_names self system runtime
   = (Ok (⋃ (contribution (ubuntu_distribution self) <$> infos)),
      infos ≫= entry_diagnostics (ubuntu_distribution self))) ∧
  (¬ Forall (entry_ok (ubuntu_distribution self)) infos →
   (get_package_names self system runtime).1
   = Raise (TypeError "'NoneType' object is not iterable")).
Proof.
  unfold classify_packages. cbv zeta.
  assert (Hrun :
    get_package_names self (dom (dist_base self) ∩ packages)
      (dom (dist_python self) ∩ packages) =
    for_each
      ((os_entry (dist_base self)
          <$> set_order (dom (dist_base self) ∩ packages)) ++
       (os_entry (dist_python self)
          <$> set_order (dom (dist_python self) ∩ packages)))
      (add_package_names self) ∅).
  { unfold get_package_names.
    rewrite map_M_lookup_ubuntu
      by (intros n Hn%elem_of_set_order; set_solver).
    rewrite bind_ret_l.
    rewrite map_M_lookup_ubuntu
      by (intros n Hn%elem_of_set_order; set_solver).
    by rewrite bind_ret_l. }
  rewrite Hrun. split.
  - intros Hok. rewrite add_package_names_loop by done.
    by rewrite (left_id_L ∅ (∪)).
  - intros Hbad. by apply add_package_names_loop_invalid.
Qed.

End name_mapper_errors.

(** ** The writing loop on a plan without duplicates *)

Lemma write_loop_unique items file :
  NoDup (target_ids (file ++ items)) →
  for_each items write_item (list_to_set (target_ids file), file) =
  (Ok (list_to_set (target_ids (file ++ items)), file ++ items), []).
Proof.
  revert file. induction items as [|[s|t] items IH]; intros file Hnd.
  - by rewrite app_nil_r.
  - cbn [for_each write_item]. rewrite bind_ret_l.
    replace (list_to_set (target_ids file) : gset string)
      with (list_to_set (target_ids (file ++ [Line s])) : gset string)
      by by rewrite target_ids_app, app_nil_r.
    rewrite IH by by rewrite <-app_assoc.
    by rewrite <-app_assoc.
  - assert (Hnew : target t ∉ target_ids file).
    { rewrite target_ids_app in Hnd. apply NoDup_app in Hnd as (_ & Hdisj & _).
      intros Hin. apply (Hdisj _ Hin). by left. }
    cbn [for_each]. rewrite write_item_new
      by by rewrite elem_of_list_to_set.
    rewrite bind_ret_l.
    replace ({[target t]} ∪ list_to_set (target_ids file) : gset string)
      with (list_to_set (target_ids (file ++ [Target t])) : gset string).
    + rewrite IH by by rewrite <-app_assoc. by rewrite <-app_assoc.
    + rewrite target_ids_app. cbn. apply set_eq. intros x.
      rewrite list_to_set_app_L. set_solver.
Qed.

(** X8.  A plan whose target identifiers are pairwise different is
    written as it stands, without any record; in particular writing
    what [write_targets] has written changes nothing. *)
Theorem write_targets_keeps_unique (items : list makefile_item) :
  (NoDup (target_ids items) → write_targets items = (Ok items, [])) ∧
  (∀ out log, write_targets items = (Ok out, log) →
              write_targets out = (Ok out, [])).
Proof.
  assert (Hunique : ∀ l, NoDup (target_ids l) →
                         write_targets l = (Ok l, [])).
  { intros l Hnd. unfold write_targets.
    pose proof (write_loop_unique l [] Hnd) as Hrun. cbn in Hrun.
    by rewrite Hrun. }
  split; [by apply Hunique|].
  intros out log Hrun.
  destruct (write_targets_spec items) as (out' & dropped & Hrun' & Hnd & _).
  rewrite Hrun in Hrun'. injection Hrun' as -> _. by apply Hunique.
Qed.

(** ** The targets of the build-from-source set *)

Lemma built_marker_inj a b : built_marker a = built_marker b → a = b.
Proof. unfold built_marker. intros Heq. by simplify_eq/=. Qed.

Section package_targets.
Context `{Platform} `{!PlatformOk}.
Variable self : BuildFarm.

Lemma built_marker_not_checkout d k :
  built_marker d ≠ checkout_marker self k.
Proof. unfold built_marker, checkout_marker, path_join, build_dir. by cbn. Qed.

Lemma build_package_Ok build_dep target build_targets build_targets' :
  (build_package self build_dep target build_targets).1 = Ok build_targets' →
  ∃ bp, build_targets' = build_targets ++ [bp] ∧
        package_target_of self build_dep target bp.
Proof.
  unfold build_package.
  rewrite bind_outcome, get_package_dependencies_nonrecursive.
  destruct (direct_dependencies self target).1 as [deps| |] eqn:Hd; [|done..].
  rewrite bind_outcome.
  destruct (get_repository self target).1 as [[[k|] [v|]]| |] eqn:Hrepo;
    try done.
  destruct (source v) as [src|] eqn:Hsrc; [|done].
  destruct (decide (k = "rosconsole")) as [Hk|Hk]; intros [= <-];
    eexists; (split; [done|]); exists k, v, src, deps;
    rewrite ?(decide_True (P:=k = "rosconsole")) by done;
    rewrite ?(decide_False (P:=k = "rosconsole")) by done;
    by split_and!.
Qed.

Lemma build_package_sourced build_dep target build_targets :
  cache_ok self → bounds_ok self target = true → sourced self target →
  ∃ build_targets',
    (build_package self build_dep target build_targets).1 = Ok build_targets'.
Proof.
  intros Hok Hb (k & v & src & Hrepo & Hsrc). unfold build_package.
  rewrite bind_outcome, get_package_dependencies_nonrecursive.
  rewrite direct_dependencies_outcome by done.
  rewrite bind_outcome, Hrepo, Hsrc.
  destruct (decide (k = "rosconsole")); by eexists.
Qed.

Lemma build_loop_Ok build_dep l build_targets build_targets' :
  (for_each l (build_package self build_dep) build_targets).1
    = Ok build_targets' →
  ∃ bps, build_targets' = build_targets ++ bps ∧
         Forall2 (package_target_of self build_dep) l bps.
Proof.
  revert build_targets. induction l as [|t l IH]; intros bts.
  - intros [= <-]. exists []. by rewrite app_nil_r.
  - cbn [for_each]. rewrite bind_outcome.
    destruct (build_package self build_dep t bts).1 as [bts1| |] eqn:Ht;
      [|done..].
    apply build_package_Ok in Ht as (bp & -> & Hbp).
    intros (bps & -> & Hbps)%IH. exists (bp :: bps).
    split; [by rewrite <-app_assoc|by constructor].
Qed.

Lemma accumulate_targets_Ok main_targets build_dep makefile_targets log1 :
  accumulate_targets self main_targets build_dep = (Ok makefile_targets, log1) →
  ∃ bps rest,
    Forall2 (package_target_of self build_dep) (set_order build_dep) bps ∧
    makefile_targets =
      fixed_targets self main_targets build_dep ++
      concat (map makefile_targets_of bps) ++ [Target rest] ∧
    target rest = "clean" ∧ depends rest = [].
Proof.
  intros Hacc.
  assert (Hout : (accumulate_targets self main_targets build_dep).1
                 = Ok makefile_targets) by by rewrite Hacc.
  unfold accumulate_targets in Hout. rewrite bind_outcome in Hout.
  destruct (for_each (set_order build_dep) (build_package self build_dep) []).1
    as [bts| |] eqn:Hloop; [|done..].
  apply build_loop_Ok in Hloop as (bps & -> & Hbps).
  injection Hout as <-. by eexists bps, _.
Qed.

(** X9.  [gen_makefile] returns a plan exactly when, for every package
    of the build-from-source set, the version bounds on the edges of the
    package are versions, so that the call of the resolver for it
    returns, and the package is found in a repository that has a source
    entry (given that attribute keys are unique, as in a dict). *)
Theorem gen_makefile_returns_iff_sourced (main_targets build_dep : gset string) :
  cache_ok self →
  (∃ out, (gen_makefile self main_targets build_dep).1 = Ok out) ↔
  ∀ target, target ∈ build_dep →
    bounds_ok self target = true ∧ sourced self target.
Proof.
  intros Hok. unfold gen_makefile. split.
  - intros [out Hout] target Htarget. rewrite bind_outcome in Hout.
    destruct (accumulate_targets self main_targets build_dep)
      as [[items| |] log1] eqn:Hacc; [|done..].
    apply accumulate_targets_Ok in Hacc as (bps & rest & Hbps & _).
    apply elem_of_set_order in Htarget.
    apply list_elem_of_lookup in Htarget as [i Hi].
    destruct (Forall2_lookup_l _ _ _ _ _ Hbps Hi)
      as (bp & _ & k & v & src & deps & Hrepo & Hsrc & Hdeps & _).
    split; [|by exists k, v, src].
    by apply direct_dependencies_Ok in Hdeps as [? _].
  - intros Hall. rewrite bind_outcome. unfold accumulate_targets.
    rewrite bind_outcome.
    destruct (for_each (set_order build_dep) (build_package self build_dep) []).1
      as [bts|e|] eqn:Hloop.
    + cbn [ret fst]. apply write_targets_outcome.
    + apply for_each_fails in Hloop
        as (x & bts & Hx%elem_of_set_order & Hbody); [|done].
      destruct (Hall x Hx) as [Hb Hsrc].
      destruct (build_package_sourced build_dep x bts Hok Hb Hsrc)
        as [bts' Hrun]. by rewrite Hrun in Hbody.
    + apply for_each_fails in Hloop as (x & bts & _ & Hbody); [|done].
      by apply build_package_total in Hbody.
Qed.

End package_targets.

Lemma elem_of_concat_map {A B} (f : A → list B) (l : list A) (x : B) :
  x ∈ concat (map f l) ↔ ∃ y, y ∈ l ∧ x ∈ f y.
Proof.
  rewrite list_elem_of_In, in_concat. split.
  - intros (ys & (y & <- & Hy)%in_map_iff & Hx).
    exists y. by rewrite !list_elem_of_In.
  - intros (y & Hy & Hx). exists (f y). split.
    + apply in_map. by apply list_elem_of_In.
    + by apply list_elem_of_In.
Qed.

Lemma first_target_Some id items t :
  first_target id items = Some t → Target t ∈ items ∧ target t = id.
Proof.
  induction items as [|[s|t'] items IH]; [done| |].
  - rewrite first_target_cons_line. intros [? ?]%IH. split; [by right|done].
  - destruct (decide (target t' = id)) as [<-|Hne].
    + rewrite first_target_cons_eq. intros [= <-]. split; [by left|done].
    + rewrite first_target_cons_ne by done. intros [? ?]%IH.
      split; [by right|done].
Qed.

Lemma first_target_app id l1 l2 t :
  first_target id (l1 ++ l2) = Some t →
  first_target id l1 = Some t ∨
  (id ∉ target_ids l1) ∧ first_target id l2 = Some t.
Proof.
  induction l1 as [|[s|t'] l1 IH]; cbn [app].
  - intros Ht. right. split; [by intros ?%elem_of_nil|done].
  - rewrite !first_target_cons_line. apply IH.
  - destruct (decide (target t' = id)) as [<-|Hne].
    + rewrite !first_target_cons_eq. by left.
    + rewrite !first_target_cons_ne by done.
      intros [?|[Hnot ?]]%IH; [by left|right]. split; [|done].
      cbn. by intros [?|?]%elem_of_cons.
Qed.

Lemma first_target_of_first id l1 l2 t :
  id ∈ target_ids l1 → first_target id (l1 ++ l2) = Some t →
  Target t ∈ l1.
Proof.
  intros Hid [Ht|[Hnot _]]%first_target_app; [|done].
  by apply first_target_Some in Ht as [? _].
Qed.

Lemma elem_of_target_ids_inv id items :
  id ∈ target_ids items → ∃ t, Target t ∈ items ∧ target t = id.
Proof.
  intros ([s|t] & Hin & Heq)%list_elem_of_omap; [done|].
  injection Heq as <-. by exists t.
Qed.

Section plan.
Context `{Platform} `{!PlatformOk}.
Variable self : BuildFarm.

Lemma package_target_in_plan main_targets build_dep makefile_targets log1 t :
  accumulate_targets self main_targets build_dep = (Ok makefile_targets, log1) →
  t ∈ build_dep →
  ∃ bp, package_target_of self build_dep t bp ∧
        Target (repo_makefile_target (bp_repo bp)) ∈ makefile_targets ∧
        Target (bp_target bp) ∈ makefile_targets.
Proof.
  intros (bps & rest & Hbps & -> & _)%accumulate_targets_Ok
         Ht%elem_of_set_order.
  apply list_elem_of_lookup in Ht as [i Hi].
  destruct (Forall2_lookup_l _ _ _ _ _ Hbps Hi) as (bp & Hbp & Hpkg).
  exists bp. split; [done|].
  assert (Hin : bp ∈ bps) by (apply list_elem_of_lookup; by exists i).
  split; apply elem_of_app; right; apply elem_of_app; left;
    apply elem_of_concat_map; exists bp; (split; [done|]);
    unfold makefile_targets_of; set_solver.
Qed.

(** X10.  For every package of the build-from-source set the plan has a
    build target named by the marker of the package, with the bare
    package name as alias.  Its first prerequisite is the checkout
    target of the repository of the package, which the plan holds too;
    the marker of a package [d] is among its prerequisites exactly when
    [d] is a direct dependency of the package that is itself built from
    source; and the rosdep cache is a prerequisite. *)
Theorem package_targets_in_plan (main_targets build_dep : gset string)
    (makefile_targets : list makefile_item) (log1 : list diag) (t : string) :
  accumulate_targets self main_targets build_dep = (Ok makefile_targets, log1) →
  t ∈ build_dep →
  ∃ tg k v deps,
    Target tg ∈ makefile_targets ∧
    target tg = built_marker t ∧ alias tg = Some t ∧
    (get_repository self t).1 = Ok (Some k, Some v) ∧
    (direct_dependencies self t).1 = Ok deps ∧
    head (depends tg) = Some (checkout_marker self k) ∧
    checkout_marker self k ∈ target_ids makefile_targets ∧
    (∀ d, built_marker d ∈ depends tg ↔ d ∈ deps ∧ d ∈ build_dep) ∧
    "/root/.ros/rosdep/sources.cache" ∈ depends tg.
Proof.
  intros Hacc Ht.
  destruct (package_target_in_plan _ _ _ _ _ Hacc Ht)
    as (bp & (k & v & src & deps & Hrepo & Hsrc & Hdeps & Hbprepo & Htarget
              & Halias & Hdepends & Hcmd) & Hcheckout & Hin).
  exists (bp_target bp), k, v, deps. split_and!; try done.
  - by rewrite Hdepends.
  - apply elem_of_target_ids in Hcheckout.
    by rewrite Hbprepo in Hcheckout.
  - intros d. rewrite Hdepends, elem_of_cons, elem_of_app, list_elem_of_fmap.
    split.
    + intros [Heq|[(d' & Heq & Hd')|Hlast]].
      * by apply built_marker_not_checkout in Heq.
      * apply built_marker_inj in Heq as ->.
        apply elem_of_set_order in Hd'. set_solver.
      * apply list_elem_of_singleton in Hlast. unfold built_marker in Hlast.
        by simplify_eq/=.
    + intros [Hd Hb]. right. left. exists d. split; [done|].
      apply elem_of_set_order. set_solver.
  - rewrite Hdepends. set_solver.
Qed.

(** The fixed part of the plan names no prerequisite it has no target
    for, but the file [/root/rosdep.yaml] and the root targets of
    [all]. *)
Lemma fixed_targets_closed main_targets build_dep tg p :
  Target tg ∈ fixed_targets self main_targets build_dep →
  p ∈ depends tg →
  p ∈ target_ids (fixed_targets self main_targets build_dep) ∨
  p = "/root/rosdep.yaml" ∨
  (target tg = "all" ∧ p ∈ main_targets).
Proof.
  unfold fixed_targets, python_build_packages, python_packages, env_dep.
  cbn [map app concat makefile_targets_of new_BuildPackage bp_target bp_repo
       repo_makefile_target target depends name base_dir target_ids omap
       mbind option_bind list_omap].
  intros Htg Hp.
  repeat (apply elem_of_cons in Htg as [Htg|Htg];
          [try discriminate Htg; injection Htg as ->;
           cbn [depends target] in Hp |- *|]);
    try (by apply elem_of_nil in Htg);
    try (by apply elem_of_nil in Hp).
  all: try (right; right; split; [done|]; by apply elem_of_set_order).
  all: repeat (apply elem_of_cons in Hp as [->|Hp]);
    try (by apply elem_of_nil in Hp).
  all: try (right; left; reflexivity).
  all: left; cbn;
    repeat first [apply list_elem_of_here | apply list_elem_of_further].
Qed.

(** X11.  The written plan is closed: a prerequisite of a written
    target is the identifier of a written target, except the file
    [/root/rosdep.yaml] and the root targets that [all] names. *)
Theorem plan_is_closed (main_targets build_dep : gset string)
    (out : list makefile_item) (log : list diag)
    (tg : MakefileTarget) (p : string) :
  gen_makefile self main_targets build_dep = (Ok out, log) →
  Target tg ∈ out → p ∈ depends tg →
  p ∈ target_ids out ∨ p = "/root/rosdep.yaml" ∨
  (target tg = "all" ∧ p ∈ main_targets).
Proof.
  intros Hgen Htg Hp.
  destruct (accumulate_targets self main_targets build_dep)
    as [[items| |] log1] eqn:Hacc;
    try (unfold gen_makefile in Hgen; rewrite Hacc in Hgen; done).
  destruct (write_targets_spec items)
    as (out' & dropped & Hrun & _ & Hsub & Hperm & Hdrop & _).
  unfold gen_makefile in Hgen. rewrite Hacc in Hgen. cbn [bind] in Hgen.
  rewrite Hrun in Hgen. injection Hgen as -> _.
  assert (Hids : ∀ id, id ∈ target_ids items → id ∈ target_ids out).
  { intros id Hid. rewrite Hperm in Hid.
    apply elem_of_app in Hid as [?|?]; [done|by apply Hdrop]. }
  assert (Htg' : Target tg ∈ items) by by eapply elem_of_sublist.
  cut (p ∈ target_ids items ∨ p = "/root/rosdep.yaml" ∨
       target tg = "all" ∧ p ∈ main_targets).
  { intros [?|?]; [left; by apply Hids|by right]. }
  clear Htg Hsub Hperm Hdrop Hids.
  destruct (accumulate_targets_Ok self _ _ _ _ Hacc)
    as (bps & rest & Hbps & Hitems & Hclean & Hcleandeps).
  rewrite Hitems in Htg'.
  apply elem_of_app in Htg' as [Hfixed|Hrest].
  { destruct (fixed_targets_closed _ _ _ _ Hfixed Hp) as [Hid|Hother];
      [left|by right].
    rewrite Hitems, target_ids_app. apply elem_of_app. by left. }
  apply elem_of_app in Hrest as [Hpkg|Hlast].
  - apply elem_of_concat_map in Hpkg as (bp & Hbp & Hin).
    apply list_elem_of_lookup in Hbp as [i Hi].
    destruct (Forall2_lookup_r _ _ _ _ _ Hbps Hi)
      as (t & Ht & k & v & src & deps & Hrepo & Hsrc & Hdeps & Hbprepo
          & Htarget & Halias & Hdepends & Hcmd).
    unfold makefile_targets_of in Hin.
    apply elem_of_cons in Hin as [Hin|Hin].
    { injection Hin as ->. by apply elem_of_nil in Hp. }
    apply list_elem_of_singleton in Hin. injection Hin as ->.
    left. rewrite Hdepends in Hp.
    assert (Hbpin : bp ∈ bps) by (apply list_elem_of_lookup; by exists i).
    apply elem_of_cons in Hp as [->|Hp].
    + rewrite Hitems, !target_ids_app. apply elem_of_app. right.
      apply elem_of_app. left.
      replace (checkout_marker self k)
        with (target (repo_makefile_target (bp_repo bp)))
        by by rewrite Hbprepo.
      apply elem_of_target_ids, elem_of_concat_map. exists bp.
      split; [done|]. unfold makefile_targets_of. set_solver.
    + apply elem_of_app in Hp as [Hp|Hp].
      * apply list_elem_of_fmap in Hp as (d & -> & Hd%elem_of_set_order).
        assert (Hdb : d ∈ build_dep) by set_solver.
        destruct (package_target_in_plan _ _ _ _ _ Hacc Hdb)
          as (bp' & (k' & v' & src' & deps' & _ & _ & _ & _ & Htarget' & _)
              & _ & Hin').
        rewrite <-Htarget'. by apply elem_of_target_ids.
      * apply list_elem_of_singleton in Hp as ->.
        rewrite Hitems, target_ids_app. apply elem_of_app. left.
        unfold fixed_targets. cbn.
        repeat first [apply list_elem_of_here | apply list_elem_of_further].
  - apply list_elem_of_singleton in Hlast. injection Hlast as ->.
    rewrite Hcleandeps in Hp. by apply elem_of_nil in Hp.
Qed.

Lemma fixed_targets_no_alias main_targets build_dep tg :
  Target tg ∈ fixed_targets self main_targets build_dep → alias tg = None.
Proof.
  unfold fixed_targets, python_build_packages, python_packages, env_dep.
  cbn [map app concat makefile_targets_of new_BuildPackage bp_target bp_repo
       repo_makefile_target].
  intros Htg.
  repeat (apply elem_of_cons in Htg as [Htg|Htg];
          [try discriminate Htg; by injection Htg as ->|]).
  by apply elem_of_nil in Htg.
Qed.

Lemma built_marker_fixed main_targets build_dep n :
  built_marker n ∈ target_ids (fixed_targets self main_targets build_dep) ↔
  n ∈ bootstrap_names.
Proof.
  split.
  - unfold fixed_targets, python_build_packages, python_packages, env_dep,
      built_marker, build_dir.
    cbn. intros Hn.
    repeat (apply elem_of_cons in Hn as [Hn|Hn];
            [cbv in Hn; try discriminate Hn; simplify_eq;
             unfold bootstrap_names;
             repeat first [apply list_elem_of_here
                          | apply list_elem_of_further]|]).
    by apply elem_of_nil in Hn.
  - unfold bootstrap_names. intros Hn.
    repeat (apply elem_of_cons in Hn as [->|Hn]);
      try (by apply elem_of_nil in Hn);
      unfold fixed_targets; cbn;
      repeat first [apply list_elem_of_here | apply list_elem_of_further].
Qed.

Lemma gen_makefile_Ok_first main_targets build_dep makefile_targets log1 out :
  accumulate_targets self main_targets build_dep
    = (Ok makefile_targets, log1) →
  (gen_makefile self main_targets build_dep).1 = Ok out →
  (∀ id, id ∈ target_ids makefile_targets → id ∈ target_ids out) ∧
  (∀ t, Target t ∈ out → first_target (target t) makefile_targets = Some t).
Proof.
  intros Hacc. unfold gen_makefile. rewrite bind_outcome, Hacc. cbn [fst].
  destruct (write_targets_spec makefile_targets)
    as (out' & dropped & Hrun & _ & _ & Hperm & Hdrop & Hfirst).
  rewrite Hrun. intros [= <-]. split; [|done].
  intros id Hid. rewrite Hperm in Hid.
  apply elem_of_app in Hid as [?|?]; [done|by apply Hdrop].
Qed.

(** The target written for the marker of a package of the
    build-from-source set: the first one accumulated with that
    identifier, which is a target of the fixed part of the plan when
    there is one, and the target of the package otherwise. *)
Lemma written_package_target main_targets build_dep out n :
  (gen_makefile self main_targets build_dep).1 = Ok out →
  n ∈ build_dep →
  ∃ tg,
    Target tg ∈ out ∧ target tg = built_marker n ∧
    (∀ t, Target t ∈ out → target t = built_marker n → t = tg) ∧
    (n ∈ bootstrap_names →
     Target tg ∈ fixed_targets self main_targets build_dep ∧
     alias tg = None) ∧
    ((n ∉ bootstrap_names) →
     ∃ bp, package_target_of self build_dep n bp ∧ tg = bp_target bp).
Proof.
  intros Hgen Hn.
  destruct (accumulate_targets self main_targets build_dep)
    as [[items| |] log1] eqn:Hacc;
    try (unfold gen_makefile in Hgen; rewrite bind_outcome, Hacc in Hgen;
         done).
  destruct (gen_makefile_Ok_first _ _ _ _ _ Hacc Hgen) as [Hids Hfirst].
  destruct (package_target_in_plan _ _ _ _ _ Hacc Hn)
    as (bp & (k & v & src & deps & _ & _ & _ & _ & Htarget & _) & _ & Hin).
  apply elem_of_target_ids, Hids in Hin. rewrite Htarget in Hin.
  apply elem_of_target_ids_inv in Hin as (tg & Htg & Hid).
  pose proof (Hfirst tg Htg) as Hfirst_tg. rewrite Hid in Hfirst_tg.
  exists tg. split_and!; [done..| | |].
  - intros t Ht Heq. apply Hfirst in Ht. rewrite Heq in Ht. congruence.
  - intros Hboot.
    assert (Hfixed : Target tg ∈ fixed_targets self main_targets build_dep).
    { destruct (accumulate_targets_Ok self _ _ _ _ Hacc)
        as (bps & rest & _ & Hitems & _).
      rewrite Hitems in Hfirst_tg.
      eapply first_target_of_first; [|done]. by apply built_marker_fixed. }
    split; [done|]. by eapply fixed_targets_no_alias.
  - intros Hboot.
    destruct (accumulate_targets_Ok self _ _ _ _ Hacc)
      as (bps & rest & Hbps & Hitems & Hclean & _).
    rewrite Hitems in Hfirst_tg.
    apply first_target_app in Hfirst_tg as [Hf|[_ Hf]].
    { apply first_target_Some in Hf as [Hf _].
      apply elem_of_target_ids in Hf. rewrite Hid in Hf.
      by apply built_marker_fixed in Hf. }
    apply first_target_Some in Hf as [Hf _].
    apply elem_of_app in Hf as [Hf|Hf].
    + apply elem_of_concat_map in Hf as (bp' & Hbp' & Hf).
      apply list_elem_of_lookup in Hbp' as [i Hi].
      destruct (Forall2_lookup_r _ _ _ _ _ Hbps Hi)
        as (t' & Ht' & Hpkg).
      pose proof Hpkg as (k' & v' & src' & deps' & _ & _ & _ & Hrepo'
                          & Htarget' & _).
      unfold makefile_targets_of in Hf.
      apply elem_of_cons in Hf as [Hf|Hf].
      * injection Hf as ->. rewrite Hrepo' in Hid.
        symmetry in Hid. by apply built_marker_not_checkout in Hid.
      * apply list_elem_of_singleton in Hf. injection Hf as ->.
        rewrite Htarget' in Hid. apply built_marker_inj in Hid as ->.
        by exists bp'.
    + apply list_elem_of_singleton in Hf. injection Hf as ->.
      rewrite Hclean in Hid. unfold built_marker in Hid. by simplify_eq/=.
Qed.

End plan.

(** ** The generated rosdep table *)

Lemma lookup_foldl_insert {V} (f : string → V) (l : list string)
    (m : gmap string V) (k : string) :
  foldl (λ m x, <[x := f x]> m) m l !! k =
  if decide (k ∈ l) then Some (f k) else m !! k.
Proof.
  revert m. induction l as [|x l IH]; intros m; [done|].
  cbn [foldl]. rewrite IH.
  destruct (decide (k ∈ l)) as [Hin|Hnin].
  - rewrite decide_True by by right. done.
  - destruct (decide (k = x)) as [->|Hne].
    + rewrite decide_True by by left. by rewrite lookup_insert_eq.
    + rewrite decide_False by by intros [?|?]%elem_of_cons.
      by rewrite lookup_insert_ne.
Qed.

Lemma replace_no_source (a b : ascii) (s : string) (c : string) :
  a ≠ b → c ∈ characters (replace a b s) → c ≠ String a EmptyString.
Proof.
  intros Hab. induction s as [|x s IH]; cbn; [by intros ?%elem_of_nil|].
  intros [->|Hc]%elem_of_cons; [|by apply IH].
  destruct (Ascii.eqb x a) eqn:Hx; [congruence|].
  apply Ascii.eqb_neq in Hx. congruence.
Qed.

Lemma replace_idemp (a b : ascii) (s : string) :
  a ≠ b → replace a b (replace a b s) = replace a b s.
Proof.
  intros Hab. induction s as [|x s IH]; [done|]. cbn. rewrite IH. f_equal.
  destruct (Ascii.eqb x a) eqn:Hx; [|by rewrite Hx].
  destruct (Ascii.eqb b a) eqn:Hb; [|done].
  apply Ascii.eqb_eq in Hb. congruence.
Qed.

(** X12.  The generated rosdep table has one entry per target and
    nothing else: the target is mapped, under ["ubuntu"], to
    ["ros-noetic-"] followed by its name with every underscore replaced
    by a hyphen.  No underscore is left in that name, and a target and
    its hyphenated spelling get the same OS package name. *)
Theorem gen_rosdep_yaml_entries `{Platform} `{!PlatformOk}
    (targets : gset string) (target : string) :
  gen_rosdep_yaml targets !! target =
    (if decide (target ∈ targets)
     then Some {["ubuntu" := "ros-noetic-" +:+ replace "_" "-" target]}
     else None) ∧
  (∀ c, c ∈ characters (replace "_" "-" target) → c ≠ "_") ∧
  replace "_" "-" (replace "_" "-" target) = replace "_" "-" target.
Proof.
  split_and!.
  - unfold gen_rosdep_yaml.
    rewrite (lookup_foldl_insert
               (λ t, {["ubuntu" := "ros-noetic-" +:+ replace "_" "-" t]})).
    destruct (decide (target ∈ targets)) as [Hin|Hnin].
    + rewrite decide_True by by apply elem_of_set_order. done.
    + rewrite decide_False by by rewrite elem_of_set_order. done.
  - intros c Hc. by apply (replace_no_source "_" "-" target).
  - by apply replace_idemp.
Qed.

(** ** The package list of the Dockerfile *)

Lemma ascii_compare_lt_trans (a b c : ascii) :
  Ascii.compare a b = Lt → Ascii.compare b c = Lt → Ascii.compare a c = Lt.
Proof.
  unfold Ascii.compare. rewrite !N.compare_lt_iff. apply N.lt_trans.
Qed.

#[global] Instance str_le_trans : Transitive str_le.
Proof.
  unfold str_le, String.leb. intros a.
  induction a as [|x a IH]; intros [|y b] [|z c]; cbn; try done.
  destruct (Ascii.compare x y) eqn:Hxy; [|clear IH|done].
  - apply Ascii.compare_eq_iff in Hxy as ->.
    destruct (Ascii.compare y z) eqn:Hyz; [apply IH|done..].
  - destruct (Ascii.compare y z) eqn:Hyz; [| |done].
    + apply Ascii.compare_eq_iff in Hyz as ->. by rewrite Hxy.
    + by rewrite (ascii_compare_lt_trans x y z).
Qed.

#[global] Instance str_le_total : Total str_le.
Proof. intros a b. apply String.leb_total. Qed.

#[global] Instance str_le_antisymm : AntiSymm (=) str_le.
Proof. intros a b. apply String.leb_antisym. Qed.

Lemma required_not_ignored :
  required_packages_for_build ## ignore_pkgs.
Proof. apply (bool_decide_unpack _). by vm_compute. Qed.

(** X13.  The package list of the Dockerfile is in ascending order and
    without duplicates; it holds the packages required for the build,
    whatever the resolved packages are, and the resolved packages that
    are not ignored, and nothing else; an ignored package is never
    installed.  It is the only sorted arrangement of these packages, so
    it does not depend on the order in which the set is listed. *)
Theorem install_apt_packages_sorted `{Platform} `{!PlatformOk}
    (apt_pkgs : gset string) :
  StronglySorted str_le (install_apt_packages apt_pkgs) ∧
  NoDup (install_apt_packages apt_pkgs) ∧
  (∀ x, x ∈ install_apt_packages apt_pkgs ↔
        x ∈ required_packages_for_build ∨ (x ∈ apt_pkgs ∧ x ∉ ignore_pkgs)) ∧
  (∀ x, x ∈ ignore_pkgs → x ∉ install_apt_packages apt_pkgs) ∧
  (∀ l, Sorted str_le l →
        l ≡ₚ elements (required_packages_for_build ∪ (apt_pkgs ∖ ignore_pkgs)) →
        l = install_apt_packages apt_pkgs).
Proof.
  assert (Hperm : install_apt_packages apt_pkgs ≡ₚ
            elements (required_packages_for_build ∪ (apt_pkgs ∖ ignore_pkgs))).
  { unfold install_apt_packages.
    by rewrite merge_sort_Permutation, set_order_perm. }
  assert (Hmem : ∀ x, x ∈ install_apt_packages apt_pkgs ↔
            x ∈ required_packages_for_build ∨ (x ∈ apt_pkgs ∧ x ∉ ignore_pkgs)).
  { intros x. rewrite Hperm, elem_of_elements. set_solver. }
  split_and!.
  - apply StronglySorted_merge_sort; apply _.
  - rewrite Hperm. apply NoDup_elements.
  - done.
  - intros x Hx [Hreq|[_ Hnot]]%Hmem; [|done].
    by apply (required_not_ignored x).
  - intros l Hsorted Hl. apply (Sorted_unique str_le); [done| |].
    + apply Sorted_merge_sort; apply _.
    + by rewrite Hl, Hperm.
Qed.

(** ** The metadata store *)

Section metadata_store_properties.
Context `{Network}.

(** X14.  A URL whose path ends in none of [.yaml], [.yml] and [.gz] is
    refused with a [RuntimeError] before the cache is read or the
    network is used: the store is left as it was. *)
Theorem unknown_extension_is_refused (url : string)
    (load_cache save_cache : bool) (st : store) :
  path_suffix (url_path url) ∉ [".yaml"; ".yml"; ".gz"] →
  get_rosdep_yaml url load_cache save_cache st =
  (RuntimeError ("Unknown file extension: " +:+ path_suffix (url_path url)),
   st).
Proof.
  intros Hsuffix. unfold get_rosdep_yaml, cache_filename.
  rewrite bool_decide_eq_false_2 by set_solver.
  rewrite bool_decide_eq_false_2 by set_solver.
  done.
Qed.

Lemma get_rosdep_yaml_cases url load_cache save_cache st filename :
  cache_filename url = Fetched filename →
  (∃ text, cache_files st !! filename = Some text ∧ load_cache = true ∧
           get_rosdep_yaml url load_cache save_cache st
           = (Fetched (yaml_load text), st)) ∨
  ((cache_files st !! filename = None ∨ load_cache = false) ∧
   get_rosdep_yaml url load_cache save_cache st
   = download url filename save_cache st).
Proof.
  intros Hname. unfold get_rosdep_yaml. rewrite Hname.
  destruct (cache_files st !! filename) as [text|] eqn:Hfile; [|by auto].
  destruct load_cache; [left; by exists text|by auto].
Qed.

(** X15.  The cache is keyed by the file name of the URL: once a call
    has saved its document, a call that may read the cache, for any URL
    with the same file name, makes no request and leaves the store as it
    is; it returns the same document when the document survives
    [safe_dump] followed by [safe_load]. *)
Theorem cache_round_trip (url url' : string) (load_cache save_cache' : bool)
    (st : store) (filename : string) :
  cache_filename url = Fetched filename →
  cache_filename url' = Fetched filename →
  ∃ content st',
    get_rosdep_yaml url load_cache true st = (Fetched content, st') ∧
    (yaml_load (yaml_dump content) = content →
     get_rosdep_yaml url' true save_cache' st' = (Fetched content, st')).
Proof.
  intros Hname Hname'.
  destruct (get_rosdep_yaml_cases url load_cache true st filename Hname)
    as [(text & Hfile & _ & Hrun)|[_ Hrun]]; rewrite Hrun.
  - eexists _, _. split; [done|]. intros _.
    unfold get_rosdep_yaml. by rewrite Hname', Hfile.
  - unfold download. eexists _, _. split; [done|]. intros Hround.
    unfold get_rosdep_yaml. rewrite Hname'. cbn [cache_files].
    by rewrite lookup_insert_eq, Hround.
Qed.

(** X16.  A call makes at most one request, for its own URL, and none
    when it answers from the cache.  It writes to the cache only when it
    made a request and [save_cache] is set, and then only the file of
    its URL; when the cache may be read, no file that is present is
    overwritten. *)
Theorem get_rosdep_yaml_effects (url : string) (load_cache save_cache : bool)
    (st : store) (r : fetched (option document)) (st' : store) :
  get_rosdep_yaml url load_cache save_cache st = (r, st') →
  (st' = st ∨
   (requested st' = requested st ++ [url] ∧
    ∃ filename content,
      cache_filename url = Fetched filename ∧ r = Fetched content ∧
      cache_files st' =
        if save_cache then <[filename := yaml_dump content]> (cache_files st)
        else cache_files st)) ∧
  (load_cache = true → cache_files st ⊆ cache_files st').
Proof.
  intros Hrun.
  destruct (cache_filename url) as [filename|msg] eqn:Hname.
  - destruct (get_rosdep_yaml_cases url load_cache save_cache st filename Hname)
      as [(text & Hfile & _ & Hrun')|[Hmiss Hrun']];
      rewrite Hrun' in Hrun; injection Hrun as <- <-.
    + split; [by left|done].
    + split.
      * right. split; [done|]. by eexists _, _.
      * intros ->. cbn [cache_files download snd].
        destruct Hmiss as [Hnone|?]; [|done].
        destruct save_cache; [|done]. by apply insert_subseteq.
  - unfold get_rosdep_yaml in Hrun. rewrite Hname in Hrun.
    injection Hrun as <- <-. split; [by left|done].
Qed.

(** X17.  The documents of a [BuildFarm] are memoized: once an access has
    returned a document, every later access returns it again and touches
    neither the fields nor the store. *)
Theorem documents_are_memoized (docs docs' : documents) (st st' st'' : store)
    (d : document) :
  (dist_index_property docs st = (Fetched (Some d), docs', st') →
   dist_index_property docs' st'' = (Fetched (Some d), docs', st'')) ∧
  (dist_base_property docs st = (Fetched (Some d), docs', st') →
   dist_base_property docs' st'' = (Fetched (Some d), docs', st'')) ∧
  (dist_python_property docs st = (Fetched (Some d), docs', st') →
   dist_python_property docs' st'' = (Fetched (Some d), docs', st'')).
Proof.
  split_and!.
  - unfold dist_index_property at 1.
    destruct (dist_index_doc docs) as [d0|] eqn:Hdoc.
    + intros [= -> <- _]. unfold dist_index_property. by rewrite Hdoc.
    + destruct (get_rosdep_yaml _ true true st) as [[content|msg] st1];
        [|done].
      intros [= -> <- _]. done.
  - unfold dist_base_property at 1.
    destruct (dist_base_doc docs) as [d0|] eqn:Hdoc.
    + intros [= -> <- _]. unfold dist_base_property. by rewrite Hdoc.
    + destruct (get_rosdep_yaml _ true true st) as [[content|msg] st1];
        [|done].
      intros [= -> <- _]. done.
  - unfold dist_python_property at 1.
    destruct (dist_python_doc docs) as [d0|] eqn:Hdoc.
    + intros [= -> <- _]. unfold dist_python_property. by rewrite Hdoc.
    + destruct (get_rosdep_yaml _ true true st) as [[content|msg] st1];
        [|done].
      intros [= -> <- _]. done.
Qed.

End metadata_store_properties.

(** ** The main program *)

Section main_program.
Context `{Platform} `{!PlatformOk}.
Variable self : BuildFarm.

Lemma main_loop fuel targets (s s' : gset string) :
  (for_each targets
     (λ target all_depend_packages,
        let* depends := get_package_dependencies self fuel target ∅ true in
        ret (all_depend_packages ∪ depends)) s).1 = Ok s' →
  ∀ n, n ∈ s' ↔
       n ∈ s ∨ ∃ t, t ∈ targets ∧ tc (resolves self) t n.
Proof.
  revert s. induction targets as [|t targets IH]; intros s.
  - intros [= <-] n. split; [by left|].
    intros [?|(t & []%elem_of_nil & _)]; done.
  - cbn [for_each]. rewrite !bind_outcome.
    destruct (get_package_dependencies self fuel t ∅ true).1
      as [r| |] eqn:Ht; [|done..].
    cbn [ret fst]. intros Hrest n. rewrite (IH _ Hrest n), elem_of_union.
    rewrite (get_package_dependencies_reach self _ _ _ Ht n).
    split.
    + intros [[?|?]|(t' & Ht' & Htc)]; [by left| |].
      * right. exists t. split; [by left|done].
      * right. exists t'. split; [by right|done].
    + intros [?|(t' & [->|Ht']%elem_of_cons & Htc)]; [by left; left| |].
      * left. by right.
      * right. by exists t'.
Qed.

Lemma gen_makefile_Ok_inv main_targets build_dep out :
  (gen_makefile self main_targets build_dep).1 = Ok out →
  ∃ makefile_targets log1,
    accumulate_targets self main_targets build_dep
      = (Ok makefile_targets, log1) ∧
    out `sublist_of` makefile_targets ∧
    ∀ id, id ∈ target_ids makefile_targets → id ∈ target_ids out.
Proof.
  unfold gen_makefile. rewrite bind_outcome.
  destruct (accumulate_targets self main_targets build_dep)
    as [[items| |] log1] eqn:Hacc; [|done..].
  cbn [fst].
  destruct (write_targets_spec items)
    as (out' & dropped & Hrun & _ & Hsub & Hperm & Hdrop & _).
  rewrite Hrun. intros [= <-]. exists items, log1. split_and!; [done..|].
  intros id Hid. rewrite Hperm in Hid.
  apply elem_of_app in Hid as [?|?]; [done|by apply Hdrop].
Qed.

Lemma main_Ok_inv fuel targets g :
  (main self fuel targets).1 = Ok g →
  ∃ all,
    (for_each targets
       (λ target all_depend_packages,
          let* depends := get_package_dependencies self fuel target ∅ true in
          ret (all_depend_packages ∪ depends)) ∅).1 = Ok all ∧
    all_depend_packages g = all ∧
    build_pkgs g =
      (all ∖ (dom (dist_base self) ∩ all) ∖ (dom (dist_python self) ∩ all))
      ∪ list_to_set targets ∧
    rosdep_yaml g = gen_rosdep_yaml (build_pkgs g) ∧
    (gen_makefile self (list_to_set targets) (build_pkgs g)).1
      = Ok (makefile g).
Proof.
  unfold main. rewrite bind_outcome.
  destruct (for_each targets _ ∅).1 as [all| |] eqn:Hloop; [|done..].
  unfold classify_packages. cbv zeta. rewrite bind_outcome.
  destruct (get_package_names self _ _).1 as [apt| |]; [|done..].
  rewrite bind_outcome.
  destruct (gen_makefile self _ _).1 as [mk| |] eqn:Hmk; [|done..].
  intros [= <-]. exists all. by split_and!.
Qed.

(** X18.  When the main program returns, the resolved set is the set
    of names reached from some root target; the build-from-source set
    holds the root targets, whatever the reference tables say about
    them, and the resolved names that are a key of neither table.  For
    every package of the build-from-source set the Makefile has exactly
    one target with the marker of the package: the build target of the
    package, with the package name as alias, unless the name is one of
    [bootstrap_names]; then the marker is the identifier of a target of
    the fixed part of the plan, that target is the one written, without
    alias, and the target of the package is dropped.  Every package of
    the set has its entry in the generated rosdep table. *)
Theorem main_builds_roots_and_unmapped (fuel : nat) (targets : list string)
    (g : generated) (log : list diag) :
  main self fuel targets = (Ok g, log) →
  (∀ n, n ∈ all_depend_packages g ↔
        ∃ t, t ∈ targets ∧ tc (resolves self) t n) ∧
  (∀ n, n ∈ build_pkgs g ↔
        n ∈ targets ∨
        (n ∈ all_depend_packages g ∧ (n ∉ dom (dist_base self)) ∧
         (n ∉ dom (dist_python self)))) ∧
  (∀ n, n ∈ build_pkgs g →
        (∃ tg,
           Target tg ∈ makefile g ∧ target tg = built_marker n ∧
           (∀ t, Target t ∈ makefile g → target t = built_marker n →
                 t = tg) ∧
           (n ∈ bootstrap_names →
            Target tg ∈ fixed_targets self (list_to_set targets)
                          (build_pkgs g) ∧
            alias tg = None) ∧
           ((n ∉ bootstrap_names) →
            ∃ bp, package_target_of self (build_pkgs g) n bp ∧
                  tg = bp_target bp ∧ alias tg = Some n)) ∧
        rosdep_yaml g !! n
        = Some {["ubuntu" := "ros-noetic-" +:+ replace "_" "-" n]}).
Proof.
  intros Hmain.
  assert (Hout : (main self fuel targets).1 = Ok g) by by rewrite Hmain.
  apply main_Ok_inv in Hout as (all & Hloop & Hall & Hbuild & Hyaml & Hmk).
  split_and!.
  - intros n. rewrite Hall, (main_loop _ _ _ _ Hloop n).
    split; [intros [[]%elem_of_empty|?]; done|by right].
  - intros n. rewrite Hbuild, Hall, elem_of_union, elem_of_list_to_set.
    rewrite !elem_of_difference, !elem_of_intersection. tauto.
  - intros n Hn. split.
    + destruct (written_package_target self _ _ _ _ Hmk Hn)
        as (tg & Htg & Hid & Honly & Hboot & Hown).
      exists tg. split_and!; [done..|].
      intros Hnot. destruct (Hown Hnot) as (bp & Hpkg & ->).
      exists bp. split_and!; [done..|].
      by destruct Hpkg as (k & v & src & deps & _ & _ & _ & _ & _ & ? & _).
    + rewrite Hyaml. unfold gen_rosdep_yaml.
      rewrite (lookup_foldl_insert
                 (λ t, {["ubuntu" := "ros-noetic-" +:+ replace "_" "-" t]})).
      by rewrite decide_True by by apply elem_of_set_order.
Qed.

Lemma main_roots_listed fuel targets g t :
  (main self fuel targets).1 = Ok g → t ∈ targets → listed self t.
Proof.
  intros (all & _ & _ & Hbuild & _ & Hmk)%main_Ok_inv Ht.
  apply gen_makefile_Ok_inv in Hmk as (items & log1 & Hacc & _).
  assert (Hin : t ∈ build_pkgs g).
  { rewrite Hbuild, elem_of_union, elem_of_list_to_set. by right. }
  destruct (package_target_in_plan self _ _ _ _ _ Hacc Hin)
    as (bp & (k & v & src & deps & Hrepo & _) & _).
  destruct (find_repository_outcome t (repositories (dist_cache self)))
    as [(k' & v' & Hkv & Hlisted & _)|[_ Hnone]]; [by exists k', v'|].
  unfold get_repository in Hrepo. by rewrite Hnone in Hrepo.
Qed.

(** X19.  The main program does not return when a root target is in no
    repository of the manifest: root targets are always built from
    source, and the Makefile generator needs their repository. *)
Theorem main_needs_listed_roots (fuel : nat) (targets : list string) :
  (∃ t, t ∈ targets ∧ ¬ listed self t) →
  ∀ g, (main self fuel targets).1 ≠ Ok g.
Proof.
  intros (t & Ht & Hunl) g Hmain. apply Hunl.
  by eapply main_roots_listed.
Qed.

(** X20.  Without [--targets] the value of the option is the string
    ["desktop"], and the main program iterates over its characters: the
    root targets are the seven one-letter names, each of which has to be
    listed in the manifest for the program to return, and [desktop] is
    built only when it is reached from one of them. *)
Theorem default_targets_are_letters (fuel : nat) (g : generated)
    (log : list diag) :
  main self fuel (args_targets None) = (Ok g, log) →
  (∀ c, c ∈ ["d"; "e"; "s"; "k"; "t"; "o"; "p"] →
        c ∈ build_pkgs g ∧ listed self c) ∧
  ("desktop" ∈ build_pkgs g → "desktop" ∈ all_depend_packages g).
Proof.
  intros Hmain.
  assert (Hout : (main self fuel (args_targets None)).1 = Ok g)
    by by rewrite Hmain.
  pose proof Hout as (all & _ & Hall & Hbuild & _)%main_Ok_inv.
  split.
  - intros c Hc. split; [|by eapply main_roots_listed].
    rewrite Hbuild, elem_of_union, elem_of_list_to_set. by right.
  - rewrite Hbuild, Hall, elem_of_union, elem_of_list_to_set.
    intros [Hd|Hd]; [set_solver|].
    cbn in Hd. repeat (apply elem_of_cons in Hd as [Hd|Hd]; [done|]).
    by apply elem_of_nil in Hd.
Qed.

End main_program.

(** ** The further properties on concrete snapshots *)

Lemma platform_rev_ok : @PlatformOk Examples.platform_rev.
Proof. intros s. apply reverse_Permutation. Qed.

Lemma resolver_answer_is_closure_witness :
  (@get_package_dependencies Examples.platform Examples.farm_chain 4 "p" ∅
     true).1 = Ok {["bar"; "foo"]} ∧
  ∀ n, n ∈ ({["bar"; "foo"]} : gset string) ↔
       tc (@resolves Examples.platform Examples.farm_chain) "p" n.
Proof.
  assert (Hrun : (@get_package_dependencies Examples.platform
                    Examples.farm_chain 4 "p" ∅ true).1 = Ok {["bar"; "foo"]})
    by (by vm_compute).
  split; [exact Hrun|].
  exact (@resolver_answer_is_closure Examples.platform platform_ok
           Examples.farm_chain 4 "p" {["bar"; "foo"]} Hrun).
Defined.

Lemma resolver_answer_unique_witness :
  (@get_package_dependencies Examples.platform Examples.farm_chain 4 "p" ∅
     true).1 = Ok {["bar"; "foo"]} ∧
  (@get_package_dependencies Examples.platform_rev Examples.farm_chain 7 "p" ∅
     true).1 = Ok {["foo"; "bar"]} ∧
  ({["bar"; "foo"]} : gset string) = {["foo"; "bar"]}.
Proof.
  assert (H1 : (@get_package_dependencies Examples.platform
                  Examples.farm_chain 4 "p" ∅ true).1 = Ok {["bar"; "foo"]})
    by (by vm_compute).
  assert (H2 : (@get_package_dependencies Examples.platform_rev
                  Examples.farm_chain 7 "p" ∅ true).1 = Ok {["foo"; "bar"]})
    by (by vm_compute).
  split; [exact H1|]. split; [exact H2|].
  exact (resolver_answer_unique Examples.platform Examples.platform_rev
           platform_ok platform_rev_ok Examples.farm_chain 4 7 "p" _ _ H1 H2).
Defined.


Lemma unknown_attribute_warns_witness :
  ("version_lt" ∉ ["condition"; "version_gte"; "version_gt"]) ∧
  @check_attribute Examples.platform Examples.farm_chain "p"
    (Examples.dep "bar" [("version_lt", "2.0.0")]) ("version_lt", "2.0.0")
    {["bar"]}
  = (Ok {["bar"]},
     [WarnUnknownAttribute "version_lt" "2.0.0" "bar";
      DebugEdge "bar" [("version_lt", "2.0.0")]]).
Proof.
  assert (Hk : "version_lt" ∉ ["condition"; "version_gte"; "version_gt"])
    by (apply (bool_decide_unpack _); by vm_compute).
  split; [exact Hk|].
  exact (proj1 (@unknown_attribute_warns Examples.platform Examples.farm_chain
                  "p" (Examples.dep "bar" [("version_lt", "2.0.0")])
                  "version_lt" "2.0.0" {["bar"]}) Hk).
Defined.

Lemma get_repository_first_match_witness :
  get_repository Examples.farm_two "x"
  = (Ok (Some "r1",
         Some {| release := Some {| packages := Some ["x"] |};
                 source := None |}),
     [DebugRepositoryFound "x" "r1"]).
Proof.
  apply (get_repository_first_match Examples.farm_two "x" [] "r1"
           {| release := Some {| packages := Some ["x"] |}; source := None |}
           [("r2", {| release := Some {| packages := Some ["x"; "y"] |};
                      source := None |})]).
  - reflexivity.
  - cbn. left.
  - intros k' v' Hkv. by apply elem_of_nil in Hkv.
Defined.

Lemma get_package_names_unknown_name_witness :
  ∃ n, n ∈ ({["a"; "zz"]} : gset string) ∧
       (n ∉ dom (dist_base Examples.farm_overlap)) ∧
       @get_package_names Examples.platform Examples.farm_overlap
         {["a"; "zz"]} {["b"]}
       = (Raise (KeyError n), []).
Proof.
  apply (proj1 (@get_package_names_unknown_name Examples.platform platform_ok
                  Examples.farm_overlap {["a"; "zz"]} {["b"]})).
  exists "zz". split; [set_solver|].
  apply (bool_decide_unpack _). by vm_compute.
Defined.

Lemma classified_names_are_mapped_witness :
  (@get_package_names Examples.platform Examples.farm_null ∅ {["n"]}).1
  = Raise (TypeError "'NoneType' object is not iterable").
Proof.
  assert (Hbad : ¬ Forall (entry_ok (ubuntu_distribution Examples.farm_null))
            ((os_entry (dist_base Examples.farm_null)
                <$> @set_order Examples.platform
                      (dom (dist_base Examples.farm_null) ∩ {["n"]})) ++
             (os_entry (dist_python Examples.farm_null)
                <$> @set_order Examples.platform
                      (dom (dist_python Examples.farm_null) ∩ {["n"]}))))
    by (apply (bool_decide_unpack _); by vm_compute).
  exact (proj2 (@classified_names_are_mapped Examples.platform platform_ok
                  Examples.farm_null {["n"]}) Hbad).
Defined.

Lemma write_targets_keeps_unique_witness :
  NoDup (target_ids [Line "# plan"; Target (new_target "a");
                     Target (new_target "b")]) ∧
  write_targets [Line "# plan"; Target (new_target "a");
                 Target (new_target "b")]
  = (Ok [Line "# plan"; Target (new_target "a"); Target (new_target "b")], []).
Proof.
  assert (Hnd : NoDup (target_ids [Line "# plan"; Target (new_target "a");
                                   Target (new_target "b")]))
    by (apply (bool_decide_unpack _); by vm_compute).
  split; [exact Hnd|].
  exact (proj1 (write_targets_keeps_unique _) Hnd).
Defined.

Lemma farm_shared_sourced target :
  target ∈ ({["x"; "y"]} : gset string) →
  @bounds_ok Examples.platform Examples.farm_shared target = true ∧
  sourced Examples.farm_shared target.
Proof.
  intros Ht. split; [by apply versions_ok_bounds, farm_shared_versions|].
  exists "r", (Repository
    (Some {| packages := Some ["x"; "y"] |})
    (Some {| url := "https://example.org/r.git"; version := "main" |})),
    {| url := "https://example.org/r.git"; version := "main" |}.
  split; [|done].
  apply elem_of_union in Ht as [->%elem_of_singleton| ->%elem_of_singleton];
    by vm_compute.
Qed.

(** In the snapshot [farm_latest] both packages are in a repository
    with a source entry, and no plan is written for them: the bound of
    [bar] on [foo] is no version. *)
Example invalid_bound_stops_plan :
  sourced Examples.farm_latest "bar" ∧ sourced Examples.farm_latest "foo" ∧
  @bounds_ok Examples.platform Examples.farm_latest "bar" = false ∧
  (@gen_makefile Examples.platform Examples.farm_latest
     {["bar"]} {["bar"; "foo"]}).1 = Raise (InvalidVersion "latest").
Proof.
  split_and!; [| |by vm_compute..].
  - exists "bar", (Examples.git "https://example.org/bar.git"),
      {| url := "https://example.org/bar.git"; version := "master" |}.
    split; [by vm_compute|done].
  - exists "foo", (Examples.git "https://example.org/foo.git"),
      {| url := "https://example.org/foo.git"; version := "master" |}.
    split; [by vm_compute|done].
Qed.

Lemma gen_makefile_returns_iff_sourced_witness :
  cache_ok Examples.farm_shared ∧
  (∀ target, target ∈ ({["x"; "y"]} : gset string) →
             @bounds_ok Examples.platform Examples.farm_shared target = true ∧
             sourced Examples.farm_shared target) ∧
  ∃ out, (@gen_makefile Examples.platform Examples.farm_shared
            {["x"]} {["x"; "y"]}).1 = Ok out.
Proof.
  split; [exact farm_shared_ok|]. split; [exact farm_shared_sourced|].
  exact (proj2 (@gen_makefile_returns_iff_sourced Examples.platform
                  platform_ok Examples.farm_shared {["x"]} {["x"; "y"]}
                  farm_shared_ok)
           farm_shared_sourced).
Defined.

Lemma package_targets_in_plan_witness :
  ∃ makefile_targets log1,
    @accumulate_targets Examples.platform Examples.farm_shared
      {["x"]} {["x"; "y"]} = (Ok makefile_targets, log1) ∧
    "x" ∈ ({["x"; "y"]} : gset string) ∧
    ∃ tg k v deps,
      Target tg ∈ makefile_targets ∧
      target tg = built_marker "x" ∧ alias tg = Some "x" ∧
      (get_repository Examples.farm_shared "x").1 = Ok (Some k, Some v) ∧
      (@direct_dependencies Examples.platform Examples.farm_shared "x").1
        = Ok deps ∧
      head (depends tg) = Some (checkout_marker Examples.farm_shared k) ∧
      checkout_marker Examples.farm_shared k ∈ target_ids makefile_targets ∧
      (∀ d, built_marker d ∈ depends tg ↔
            d ∈ deps ∧ d ∈ ({["x"; "y"]} : gset string)) ∧
      "/root/.ros/rosdep/sources.cache" ∈ depends tg.
Proof.
  assert (∃ makefile_targets log1,
            @accumulate_targets Examples.platform Examples.farm_shared
              {["x"]} {["x"; "y"]} = (Ok makefile_targets, log1))
    as (makefile_targets & log1 & Hacc) by (vm_compute; eauto).
  assert (Hx : "x" ∈ ({["x"; "y"]} : gset string)) by set_solver.
  exists makefile_targets, log1. split; [exact Hacc|]. split; [exact Hx|].
  exact (@package_targets_in_plan Examples.platform platform_ok
           Examples.farm_shared {["x"]} {["x"; "y"]} makefile_targets log1 "x"
           Hacc Hx).
Defined.

Lemma plan_is_closed_witness :
  ∃ out log tg,
    @gen_makefile Examples.platform Examples.farm_shared {["x"]} {["x"; "y"]}
      = (Ok out, log) ∧
    Target tg ∈ out ∧ target tg = "/tmp/built_packages/x" ∧
    "/tmp/built_packages/y" ∈ depends tg ∧
    ("/tmp/built_packages/y" ∈ target_ids out ∨
     "/tmp/built_packages/y" = "/root/rosdep.yaml" ∨
     (target tg = "all" ∧ "/tmp/built_packages/y" ∈ ({["x"]} : gset string))).
Proof.
  assert (∃ out log tg,
            @gen_makefile Examples.platform Examples.farm_shared
              {["x"]} {["x"; "y"]} = (Ok out, log) ∧
            Target tg ∈ out ∧ target tg = "/tmp/built_packages/x" ∧
            "/tmp/built_packages/y" ∈ depends tg)
    as (out & log & tg & Hgen & Htg & Hid & Hp).
  { vm_compute. eexists _, _, _. split; [reflexivity|]. split.
    - do 24 apply list_elem_of_further. apply list_elem_of_here.
    - split; [reflexivity|]. apply list_elem_of_further, list_elem_of_here. }
  exists out, log, tg. split_and!; [done..|].
  exact (@plan_is_closed Examples.platform platform_ok Examples.farm_shared
           {["x"]} {["x"; "y"]} out log tg "/tmp/built_packages/y"
           Hgen Htg Hp).
Defined.

Lemma gen_rosdep_yaml_entries_witness :
  @gen_rosdep_yaml Examples.platform {["rosbag_storage"; "roscpp"]}
    !! "rosbag_storage"
  = Some {["ubuntu" := "ros-noetic-rosbag-storage"]}.
Proof.
  exact (proj1 (@gen_rosdep_yaml_entries Examples.platform platform_ok
                  {["rosbag_storage"; "roscpp"]} "rosbag_storage")).
Defined.

Lemma install_apt_packages_sorted_witness :
  StronglySorted str_le
    (@install_apt_packages Examples.platform
       {["zlib1g-dev"; "python3-rospkg"]}) ∧
  "python3-rospkg" ∉ @install_apt_packages Examples.platform
                       {["zlib1g-dev"; "python3-rospkg"]}.
Proof.
  destruct (@install_apt_packages_sorted Examples.platform platform_ok
              {["zlib1g-dev"; "python3-rospkg"]})
    as (Hsorted & _ & _ & Hignored & _).
  split; [exact Hsorted|]. apply Hignored.
  apply (bool_decide_unpack _). by vm_compute.
Defined.

Lemma unknown_extension_is_refused_witness :
  (path_suffix (@url_path Examples.network "https://example.org/index.json")
     ∉ [".yaml"; ".yml"; ".gz"]) ∧
  @get_rosdep_yaml Examples.network "https://example.org/index.json" true true
    Examples.empty_store
  = (RuntimeError "Unknown file extension: .json", Examples.empty_store).
Proof.
  assert (Hs : path_suffix
                 (@url_path Examples.network "https://example.org/index.json")
               ∉ [".yaml"; ".yml"; ".gz"])
    by (apply (bool_decide_unpack _); by vm_compute).
  split; [exact Hs|].
  exact (@unknown_extension_is_refused Examples.network
           "https://example.org/index.json" true true Examples.empty_store Hs).
Defined.

Lemma cache_round_trip_witness :
  @cache_filename Examples.network "https://example.org/rosdep/base.yaml"
    = Fetched "base.yaml" ∧
  @cache_filename Examples.network "https://mirror.example.org/base.yaml.gz"
    = Fetched "base.yaml" ∧
  ∃ content st',
    @get_rosdep_yaml Examples.network "https://example.org/rosdep/base.yaml"
      true true Examples.empty_store = (Fetched content, st') ∧
    (@yaml_load Examples.network (@yaml_dump Examples.network content)
       = content →
     @get_rosdep_yaml Examples.network
       "https://mirror.example.org/base.yaml.gz" true false st'
     = (Fetched content, st')).
Proof.
  assert (H1 : @cache_filename Examples.network
                 "https://example.org/rosdep/base.yaml" = Fetched "base.yaml")
    by (by vm_compute).
  assert (H2 : @cache_filename Examples.network
                 "https://mirror.example.org/base.yaml.gz"
               = Fetched "base.yaml") by (by vm_compute).
  split; [exact H1|]. split; [exact H2|].
  exact (@cache_round_trip Examples.network
           "https://example.org/rosdep/base.yaml"
           "https://mirror.example.org/base.yaml.gz" true false
           Examples.empty_store "base.yaml" H1 H2).
Defined.

Lemma get_rosdep_yaml_effects_witness :
  ∃ r st',
    @get_rosdep_yaml Examples.network "https://example.org/rosdep/base.yaml"
      true true Examples.empty_store = (r, st') ∧
    (st' = Examples.empty_store ∨
     (requested st'
      = requested Examples.empty_store
        ++ ["https://example.org/rosdep/base.yaml"] ∧
      ∃ filename content,
        @cache_filename Examples.network
          "https://example.org/rosdep/base.yaml" = Fetched filename ∧
        r = Fetched content ∧
        cache_files st' =
          <[filename := @yaml_dump Examples.network content]>
            (cache_files Examples.empty_store))) ∧
    (true = true → cache_files Examples.empty_store ⊆ cache_files st').
Proof.
  eexists _, _. split; [reflexivity|].
  exact (@get_rosdep_yaml_effects Examples.network
           "https://example.org/rosdep/base.yaml" true true
           Examples.empty_store _ _ eq_refl).
Defined.

Lemma documents_are_memoized_witness :
  ∃ d docs' st',
    @dist_base_property Examples.network
      {| dist_index_doc := None; dist_base_doc := None;
         dist_python_doc := None |} Examples.empty_store
    = (Fetched (Some d), docs', st') ∧
    @dist_base_property Examples.network docs' st'
    = (Fetched (Some d), docs', st').
Proof.
  assert (∃ d docs' st',
            @dist_base_property Examples.network
              {| dist_index_doc := None; dist_base_doc := None;
                 dist_python_doc := None |} Examples.empty_store
            = (Fetched (Some d), docs', st'))
    as (d & docs' & st' & Hrun) by (vm_compute; eauto).
  exists d, docs', st'. split; [exact Hrun|].
  exact (proj1 (proj2 (@documents_are_memoized Examples.network _ docs'
                         Examples.empty_store st' st' d)) Hrun).
Defined.

Lemma main_builds_roots_and_unmapped_witness :
  ∃ g log,
    @main Examples.platform Examples.farm_tools 5 ["p"] = (Ok g, log) ∧
    (∀ n, n ∈ all_depend_packages g ↔
          ∃ t, t ∈ ["p"] ∧
               tc (@resolves Examples.platform Examples.farm_tools) t n) ∧
    (∀ n, n ∈ build_pkgs g ↔
          n ∈ ["p"] ∨
          (n ∈ all_depend_packages g ∧
           (n ∉ dom (dist_base Examples.farm_tools)) ∧
           (n ∉ dom (dist_python Examples.farm_tools)))) ∧
    (∀ n, n ∈ build_pkgs g →
          (∃ tg,
             Target tg ∈ makefile g ∧ target tg = built_marker n ∧
             (∀ t, Target t ∈ makefile g → target t = built_marker n →
                   t = tg) ∧
             (n ∈ bootstrap_names →
              Target tg ∈ @fixed_targets Examples.platform Examples.farm_tools
                            (list_to_set ["p"]) (build_pkgs g) ∧
              alias tg = None) ∧
             ((n ∉ bootstrap_names) →
              ∃ bp, @package_target_of Examples.platform Examples.farm_tools
                      (build_pkgs g) n bp ∧
                    tg = bp_target bp ∧ alias tg = Some n)) ∧
          rosdep_yaml g !! n
          = Some {["ubuntu" := "ros-noetic-" +:+ replace "_" "-" n]}).
Proof.
  assert (∃ g log, @main Examples.platform Examples.farm_tools 5 ["p"]
                   = (Ok g, log))
    as (g & log & Hmain) by (vm_compute; eauto).
  exists g, log. split; [exact Hmain|].
  exact (@main_builds_roots_and_unmapped Examples.platform platform_ok
           Examples.farm_tools 5 ["p"] g log Hmain).
Defined.

(** In the snapshot [farm_tools] the package [rosdep] is built from
    source, and the target written for its marker is the one of the
    ladder of build tools, which has no alias. *)
Example tool_name_shadows_package :
  ∃ g log tg,
    @main Examples.platform Examples.farm_tools 5 ["p"] = (Ok g, log) ∧
    build_pkgs g = {["p"; "rosdep"]} ∧
    DebugSkipDuplicated "/tmp/built_packages/rosdep" ∈ log ∧
    first_target "/tmp/built_packages/rosdep" (makefile g) = Some tg ∧
    alias tg = None ∧
    depends tg =
      ["/root/noetic_build/src/rosdep/.git";
       "/usr/local/bin/ros_release_python"; "/tmp/deb/.touch";
       "/tmp/built_packages/.touch"; "/root/noetic_build/src/.touch";
       "/tmp/built_packages/rosdistro"].
Proof.
  do 3 eexists. split; [by vm_compute|]. split; [by vm_compute|].
  split;
    [repeat first [apply list_elem_of_here | apply list_elem_of_further]|].
  split; [by vm_compute|]. split; by vm_compute.
Qed.

Lemma main_needs_listed_roots_witness :
  (∃ t, t ∈ ["x"; "z"] ∧ ¬ listed Examples.farm_shared t) ∧
  ∀ g, (@main Examples.platform Examples.farm_shared 5 ["x"; "z"]).1 ≠ Ok g.
Proof.
  assert (Hz : ∃ t, t ∈ ["x"; "z"] ∧ ¬ listed Examples.farm_shared t).
  { exists "z". split; [set_solver|].
    apply (get_repository_unlisted Examples.farm_shared). by vm_compute. }
  split; [exact Hz|].
  exact (@main_needs_listed_roots Examples.platform platform_ok
           Examples.farm_shared 5 ["x"; "z"] Hz).
Defined.

Lemma default_targets_are_letters_witness :
  ∃ g log,
    @main Examples.platform Examples.farm_letters 3 (args_targets None)
      = (Ok g, log) ∧
    (∀ c, c ∈ ["d"; "e"; "s"; "k"; "t"; "o"; "p"] →
          c ∈ build_pkgs g ∧ listed Examples.farm_letters c) ∧
    ("desktop" ∈ build_pkgs g → "desktop" ∈ all_depend_packages g).
Proof.
  assert (∃ g log, @main Examples.platform Examples.farm_letters 3
                     (args_targets None) = (Ok g, log))
    as (g & log & Hmain) by (vm_compute; eauto).
  exists g, log. split; [exact Hmain|].
  exact (@default_targets_are_letters Examples.platform platform_ok
           Examples.farm_letters 3 g log Hmain).
Defined.
